(** * Silent Stride: the routing core, embedded and verified

    A shallow embedding of [utils.py], [graph_processor.py],
    [routing_engine.py] and the slots of [main_window.py] that drive the
    engine.  Python floats are IEEE binary64 numbers and are
    modelled by Rocq's primitive floats, so every constant, rounding,
    infinity and NaN below is the one CPython computes.  Edge attribute
    dictionaries are finite maps from attribute names to Python values.
    Code that raises is modelled in an error monad; the planner, which
    talks to a geocoder, to osmnx and to networkx, runs in a state and
    error monad over the engine and a log of the external calls.

    The definitions come first: Python values, [utils], the graph,
    [graph_processor], [routing_engine], [main_window], networkx's edge
    weights, the specification's wording of the cost model and of the
    analytics, and sample data.  The facts follow: binary64 arithmetic,
    the cost model, the planner and its policy, the analytics, and the
    graph passes; then more of each, the graph read back from the file,
    and the window's slots. *)

From Stdlib Require Import ZArith Lia List String Ascii Bool Floats.
From stdpp Require Import base option gmap strings.

Set Warnings "-inexact-float".
Local Open Scope Z_scope.

(** ** Exceptions and the error monad *)

Inductive exn :=
| ValueError (msg : string)
| TypeError
| KeyError
| OverflowError
| ZeroDivisionError
| LibraryError (name : string).

Inductive result (A : Type) :=
| Ok (a : A)
| Raise (e : exn).
Arguments Ok {A} a.
Arguments Raise {A} e.

Definition rbind {A B} (m : result A) (k : A → result B) : result B :=
  match m with
  | Ok a => k a
  | Raise e => Raise e
  end.

Declare Scope result_scope.
Delimit Scope result_scope with result.
Notation "'let!' x ':=' m 'in' k" := (rbind m (fun x => k))
  (at level 10, x pattern, m at level 100, k at level 200) : result_scope.
Local Open Scope result_scope.

Definition is_ok {A} (r : result A) : bool :=
  match r with Ok _ => true | Raise _ => false end.

(** The outcome is not a division by zero. *)
Definition no_zero_division {A} (r : result A) : Prop := r ≠ Raise ZeroDivisionError.

(** The same, as a test: the outcome is [ZeroDivisionError]. *)
Definition is_zero_division {A} (r : result A) : bool :=
  match r with
  | Raise ZeroDivisionError => true
  | _ => false
  end.

#[global] Instance result_fmap : FMap result :=
  λ A B f r, match r with Ok a => Ok (f a) | Raise e => Raise e end.

(** ** Python values *)

Module py.

(** The values an edge attribute can hold.  [VObj] stands for any other
    object (a list of tags, a geometry). *)
Inductive pyval :=
| VNone
| VBool (b : bool)
| VInt (z : Z)
| VFloat (f : float)
| VStr (s : string)
| VObj.

(** An attribute dictionary, as networkx keeps one per edge. *)
Abbreviation attrs := (gmap string pyval).

(** [d.get(k, dflt)] and [d.get(k)]. *)
Definition get (d : attrs) (k : string) (dflt : pyval) : pyval :=
  default dflt (d !! k).
Definition get_none (d : attrs) (k : string) : pyval := get d k VNone.

(** [d[k]], which raises [KeyError] on a missing key. *)
Definition getitem (d : attrs) (k : string) : result pyval :=
  match d !! k with
  | Some v => Ok v
  | None => Raise KeyError
  end.

(** [float(n)] for an int: the nearest binary64 number, ties to even;
    CPython raises [OverflowError] when that is out of range. *)
Definition float_of_int (z : Z) : result float :=
  let f := SF2Prim (binary_normalize prec emax z 0 false) in
  if is_infinity f then Raise OverflowError else Ok f.

(** The interpreter's builtins that are not re-implemented here:
    [float(s)] on a string ([None] when it raises [ValueError]). *)
Class Builtins := { float_of_str : string → option float }.

Section conversions.
Context `{Builtins}.

(** [float(v)]. *)
Definition as_float (v : pyval) : result float :=
  match v with
  | VFloat f => Ok f
  | VInt z => float_of_int z
  | VBool b => Ok (if b then 1%float else 0%float)
  | VStr s =>
      match float_of_str s with
      | Some f => Ok f
      | None => Raise (ValueError "could not convert string to float")
      end
  | VNone | VObj => Raise TypeError
  end.

End conversions.

(** [a / b] on floats raises on a zero divisor. *)
Definition truediv (a b : float) : result float :=
  if (b =? 0)%float then Raise ZeroDivisionError else Ok (a / b)%float.

(** [for x in xs: ...] with a body that may raise. *)
Fixpoint for_each {A B} (f : A → result B) (xs : list A) : result (list B) :=
  match xs with
  | [] => Ok []
  | x :: xs' =>
      let! y := f x in
      let! ys := for_each f xs' in
      Ok (y :: ys)
  end.

(** [min(l)] and [max(l)]: the first element, replaced by each later one
    that compares strictly below (above) it. *)
Definition min_ (l : list float) : result float :=
  match l with
  | [] => Raise (ValueError "min() arg is an empty sequence")
  | x :: xs => Ok (fold_left (λ m y, if (y <? m)%float then y else m) xs x)
  end.

Definition max_ (l : list float) : result float :=
  match l with
  | [] => Raise (ValueError "max() arg is an empty sequence")
  | x :: xs => Ok (fold_left (λ m y, if (m <? y)%float then y else m) xs x)
  end.

(** [s.lower()], on the bytes of [s]: only the ASCII capitals change.  No
    other character lowers to a letter of the words [_is_truthy] looks
    for, so membership in that list is decided as in CPython. *)
Definition lower_ascii (c : ascii) : ascii :=
  let n := nat_of_ascii c in
  if ((65 <=? n) && (n <=? 90))%nat then ascii_of_nat (n + 32) else c.

Fixpoint lower (s : string) : string :=
  match s with
  | EmptyString => EmptyString
  | String c r => String (lower_ascii c) (lower r)
  end.

(** [s in l] for a list of strings. *)
Definition str_in (s : string) (l : list string) : bool :=
  existsb (String.eqb s) l.

(** [v in l] where [l] is a list of strings: [==] between a string and
    any other object is false. *)
Definition in_strs (v : pyval) (l : list string) : bool :=
  match v with
  | VStr s => str_in s l
  | _ => false
  end.

(** [v == s] for a string [s]. *)
Definition eq_str (v : pyval) (s : string) : bool :=
  match v with
  | VStr s' => String.eqb s' s
  | _ => false
  end.

(** [isinstance(v, (int, float))]; [bool] is a subclass of [int]. *)
Definition is_int_or_float (v : pyval) : bool :=
  match v with
  | VBool _ | VInt _ | VFloat _ => true
  | _ => false
  end.

End py.
Import py.

(** ** utils.py *)

Module utils.

Definition _is_truthy (val : pyval) : bool :=
  match val with
  | VNone => false
  | VBool b => b
  | VInt z => negb (z =? 0)
  | VFloat f => negb (f =? 0)%float
  | VStr s => str_in (lower s) ["true"; "1"; "yes"; "t"; "1.0"]%string
  | VObj => false
  end.

End utils.
Import utils.

(** ** The street network

    osmnx hands over a networkx [MultiDiGraph]: several edges may join the
    same pair of nodes, told apart by an integer key.  The graph is kept
    as its edge list, in the order [G.edges(keys=True, data=True)] yields
    it. *)

Module graph.

Definition node := Z.

Record edge := Edge {
  src : node;
  dst : node;
  key : Z;
  data : attrs
}.

Record MultiDiGraph := Graph {
  graph_attrs : gmap string string;
  edge_list : list edge
}.

(** [G[u][v]]: the dictionary from edge key to attribute dictionary, in
    insertion order. *)
Abbreviation keydict := (list (Z * attrs)).

Definition joins (u v : node) (e : edge) : bool :=
  (src e =? u) && (dst e =? v).

(** [G.get_edge_data(u, v)]: the keyed dictionary, [None] without an
    edge from [u] to [v]. *)
Definition get_edge_data (G : MultiDiGraph) (u v : node) : option keydict :=
  match filter (λ e, joins u v e = true) (edge_list G) with
  | [] => None
  | es => Some (map (λ e, (key e, data e)) es)
  end.

(** [d[k]] on a keyed dictionary. *)
Fixpoint keydict_getitem (d : keydict) (k : Z) : result attrs :=
  match d with
  | [] => Raise KeyError
  | (k', a) :: d' => if k' =? k then Ok a else keydict_getitem d' k
  end.

(** [G.get_edge_data(u, v)[k]]; subscripting [None] is a [TypeError]. *)
Definition edge_data_at (G : MultiDiGraph) (u v : node) (k : Z) : result attrs :=
  match get_edge_data G u v with
  | None => Raise TypeError
  | Some d => keydict_getitem d k
  end.

End graph.
Import graph.

(** ** config.py *)

Module config.

Definition DEFAULT_SPEED : Z := 30.

End config.

(** ** graph_processor.py

    [load_and_process_graph] downloads the network and the parks, then
    runs two passes over the edges: the first adds the custom costs, the
    second normalizes them.  Both passes are embedded; the download, the
    projection and the park geometry are osmnx's and geopandas' and enter
    as parameters. *)

Module graph_processor.

Section passes.
Context `{Builtins}.

(** The traffic-signal nodes found in the node pass, and the geometric
    test of the edge pass: the edge has a geometry whose 20 m buffer
    meets a park polygon. *)
Variable junction_nodes : gset node.
Variable meets_park : pyval → bool.

(** [n * x] for an int [n] and a float [x]: the int is converted first. *)
Definition int_mul_float (n : Z) (x : float) : result float :=
  let! nf := float_of_int n in Ok (nf * x)%float.

(** The noise weight of a road class (the [if]/[elif] chain). *)
Definition noise_score_of (road_type : pyval) : Z :=
  if in_strs road_type ["motorway"; "primary"; "trunk"]%string then 10
  else if in_strs road_type ["secondary"; "tertiary"]%string then 7
  else if in_strs road_type ["residential"; "living_street"; "unclassified"]%string then 3
  else 5.

(** The body of the first edge loop: the attribute dictionary of the edge
    [(u, v, key)] after the assignments. *)
Definition add_custom_costs (e : edge) : result edge :=
  let edge_data := data e in
  let! speed_kmh := as_float (get edge_data "speed_kph" (VInt config.DEFAULT_SPEED)) in
  let! length_m := as_float (get edge_data "length" (VFloat 0)) in
  let! current_time_cost :=
    if (speed_kmh =? 0)%float then Ok infinity
    else let! h := truediv (length_m / 1000)%float speed_kmh in Ok (h * 3600)%float in
  let edge_data := <["time_cost" := VFloat current_time_cost]> edge_data in
  let road_type := get edge_data "highway" (VStr "residential") in
  let noise_score := noise_score_of road_type in
  let! noise_cost := int_mul_float noise_score length_m in
  let edge_data := <["noise_cost" := VFloat noise_cost]> edge_data in
  let edge_data := <["length" := VFloat length_m]> edge_data in
  let road_geom := get_none edge_data "geometry" in
  let edge_data := <["green_cover" := VBool (meets_park road_geom)]> edge_data in
  let edge_data :=
    if bool_decide (src e ∈ junction_nodes) || bool_decide (dst e ∈ junction_nodes)
    then <["is_junction" := VBool true]> edge_data
    else <["is_junction" := get edge_data "junction" (VBool false)]> edge_data in
  Ok (Edge (src e) (dst e) (key e) edge_data).

Definition time_cost_of (e : edge) : result float :=
  let! v := getitem (data e) "time_cost" in as_float v.

Definition noise_cost_of (e : edge) : result float :=
  let! v := getitem (data e) "noise_cost" in as_float v.

(** [times]: the comprehension keeps the values that are not [inf]. *)
Fixpoint times_of (es : list edge) : result (list float) :=
  match es with
  | [] => Ok []
  | e :: es' =>
      let! t := time_cost_of e in
      let! ts := times_of es' in
      Ok (if negb (t =? infinity)%float then t :: ts else ts)
  end.

(** [noises]: every edge's value. *)
Definition noises_of (es : list edge) : result (list float) :=
  for_each noise_cost_of es.

(** [hi - lo if (hi - lo) > 0 else 1.0]. *)
Definition range_of (lo hi : float) : float :=
  if (0 <? hi - lo)%float then (hi - lo)%float else 1%float.

(** The body of the second edge loop. *)
Definition normalize_edge (min_time range_time min_noise range_noise : float)
    (e : edge) : result edge :=
  let edge_data := data e in
  let! current_time_cost := time_cost_of e in
  let! current_noise_cost := noise_cost_of e in
  let! time_cost_norm :=
    if (current_time_cost =? infinity)%float then Ok 1%float
    else truediv (current_time_cost - min_time)%float range_time in
  let edge_data := <["time_cost_norm" := VFloat time_cost_norm]> edge_data in
  let! noise_cost_norm := truediv (current_noise_cost - min_noise)%float range_noise in
  let edge_data := <["noise_cost_norm" := VFloat noise_cost_norm]> edge_data in
  Ok (Edge (src e) (dst e) (key e) edge_data).

(** "Normalize the costs": the lists, their extrema, the ranges, and the
    second loop. *)
Definition normalize_costs (es : list edge) : result (list edge) :=
  let! times := times_of es in
  let! noises := noises_of es in
  let! min_time := min_ times in
  let! max_time := max_ times in
  let! min_noise := min_ noises in
  let! max_noise := max_ noises in
  let range_time := range_of min_time max_time in
  let range_noise := range_of min_noise max_noise in
  for_each (normalize_edge min_time range_time min_noise range_noise) es.

(** The edge passes of [load_and_process_graph] on a projected graph. *)
Definition process_graph (G_proj : MultiDiGraph) : result MultiDiGraph :=
  let! es := for_each add_custom_costs (edge_list G_proj) in
  let! es := normalize_costs es in
  Ok (Graph (graph_attrs G_proj) es).

End passes.

(** The node pass: the nodes whose [highway] attribute is
    ['traffic_signals'], collected over [G_proj.nodes(data=True)]. *)
Definition junction_nodes_of (nodes : list (node * attrs)) : gset node :=
  fold_left
    (λ junction_nodes nd,
       if eq_str (get_none nd.2 "highway") "traffic_signals"
       then junction_nodes ∪ {[ nd.1 ]} else junction_nodes)
    nodes ∅.

Section loading.
Context `{Builtins}.

(** [get_graph], the body of the loop over the edges of the graph read
    back from the file: the edge after the turn, and whether it was
    assigned to. *)
Definition verify_edge (e : edge) : result (edge * bool) :=
  if negb (is_int_or_float (get_none (data e) "time_cost"))
  then
    let! t := as_float (get (data e) "time_cost" (VFloat infinity)) in
    Ok (Edge (src e) (dst e) (key e) (<["time_cost" := VFloat t]> (data e)), true)
  else Ok (e, false).

(** The loop, threading [needs_resave]. *)
Fixpoint verify_edges (es : list edge) (needs_resave : bool) : result (list edge * bool) :=
  match es with
  | [] => Ok ([], needs_resave)
  | e :: es' =>
      let! turn := verify_edge e in
      let! rest := verify_edges es' (turn.2 || needs_resave) in
      Ok (turn.1 :: rest.1, rest.2)
  end.

(** [get_graph] when the file exists: the graph returned, and whether it
    was saved again. *)
Definition verify_loaded (G : MultiDiGraph) : result (MultiDiGraph * bool) :=
  let! checked := verify_edges (edge_list G) false in
  Ok (Graph (graph_attrs G) checked.1, checked.2).

End loading.

End graph_processor.

(** ** routing_engine.py

    The engine's fields, [set_preferences], [_get_edge_cost] and
    [find_route].  The [print] calls are left out.  The heuristic
    [_euclidean_heuristic] is handed to the search with the weight; it
    is the search's business and no result of the planner reads it. *)

Module routing_engine.

(** The fields [__init__] sets, the geocoder client apart. *)
Record RoutingEngine := Engine {
  G : MultiDiGraph;
  graph_crs : string;
  graph_init_crs : string;
  w_time : float;
  w_noise : float;
  prefer_parks : bool;
  avoid_junctions : bool
}.

(** What [find_route] passes to [nx.astar_path] as [weight]: the name of
    an edge attribute, or the bound method [self._get_edge_cost]. *)
Inductive weight_function :=
| attribute (name : string)
| bound_get_edge_cost (self : RoutingEngine).

Record Location := { latitude : float; longitude : float }.

(** A route's geometry: rows of coordinates and the reference system. *)
Record GeoDataFrame := { rows : list (list (float * float)); frame_crs : string }.

(** The collaborators of the planner: geopy's geocoder, the wall clock,
    osmnx's projection, nearest-node lookup and route geometry, and
    networkx's A* search.  Each call may raise. *)
Class Collaborators := {
  geocode : string → result (option Location);
  now_hour : Z;
  project_geometry : float → float → string → string → result (float * float);
  nearest_nodes : MultiDiGraph → float → float → result node;
  astar_path : MultiDiGraph → node → node → weight_function → result (list node);
  route_to_gdf : MultiDiGraph → list node → string → result GeoDataFrame;
  to_crs : GeoDataFrame → string → result GeoDataFrame;
  total_bounds : GeoDataFrame → float * float * float * float
}.

(** The calls that leave the process, logged in the order they are made. *)
Inductive event :=
| Geocode (address : string)
| Project (lon lat : float)
| NearestNodes (x y : float)
| AStar (start_node end_node : node) (weight : weight_function)
| RouteToGdf (path_nodes : list node).

(** The engine object and the log: the state a method call runs in. *)
Record world := World { engine : RoutingEngine; log : list event }.

Definition M (A : Type) : Type := world → result A * world.

Definition ret {A} (a : A) : M A := λ w, (Ok a, w).
Definition raise {A} (e : exn) : M A := λ w, (Raise e, w).
Definition bind {A B} (m : M A) (k : A → M B) : M B :=
  λ w, match m w with
       | (Ok a, w') => k a w'
       | (Raise e, w') => (Raise e, w')
       end.
Definition lift {A} (r : result A) : M A := λ w, (r, w).
Definition self : M RoutingEngine := λ w, (Ok (engine w), w).
Definition call {A} (ev : event) (r : result A) : M A :=
  λ w, (r, World (engine w) (log w ++ [ev])).

Declare Scope method_scope.
Delimit Scope method_scope with method.
Notation "'do' x ← m ; k" := (bind m (fun x => k))
  (at level 10, x pattern, m at level 100, k at level 200) : method_scope.

(** [RoutingEngine(graph)]: [graph['crs']] must be there, ['init_crs']
    defaults. *)
Definition __init__ (graph : MultiDiGraph) : result RoutingEngine :=
  match graph_attrs graph !! "crs"%string with
  | None => Raise KeyError
  | Some crs =>
      Ok (Engine graph crs (default "EPSG:4326"%string (graph_attrs graph !! "init_crs"%string))
                 1 0 false false)
  end.

(** [set_preferences]: four assignments. *)
Definition set_preferences (w_time w_noise : float) (prefer_parks avoid_junctions : bool)
    : M unit :=
  λ w,
    let s := engine w in
    (Ok tt,
     World (Engine (G s) (graph_crs s) (graph_init_crs s)
                   w_time w_noise prefer_parks avoid_junctions)
           (log w)).

Section methods.
Context `{Builtins}.

Definition _get_edge_cost (self : RoutingEngine) (u v : node) (edge_data_dict : attrs)
    : result float :=
  let! time_cost := as_float (get edge_data_dict "time_cost_norm" (VFloat 1)) in
  let! noise_cost := as_float (get edge_data_dict "noise_cost_norm" (VFloat 0)) in
  let base_cost :=
    if (w_noise self =? 1)%float then noise_cost
    else (w_time self * time_cost + w_noise self * noise_cost)%float in
  let base_cost :=
    if prefer_parks self && _is_truthy (get_none edge_data_dict "green_cover")
    then (base_cost * 0.7)%float else base_cost in
  let base_cost :=
    if avoid_junctions self && _is_truthy (get_none edge_data_dict "is_junction")
    then (base_cost * 2)%float else base_cost in
  if (base_cost =? 0)%float && ((0 <? time_cost)%float || (0 <? noise_cost)%float)
  then Ok 1e-9%float
  else Ok base_cost.

(** [not address] for an optional string. *)
Definition falsy (address : option string) : bool :=
  match address with
  | None => true
  | Some s => String.eqb s ""
  end.

(** The hour the policy looks at. *)
Definition resolve_hour (selected_hour : option Z) (now : Z) : Z :=
  match selected_hour with
  | Some h => h
  | None => now
  end.

Definition is_quiet_hours (current_hour : Z) : bool :=
  ((0 <=? current_hour) && (current_hour <=? 7))
  || ((10 <=? current_hour) && (current_hour <=? 11))
  || ((15 <=? current_hour) && (current_hour <=? 16))
  || ((22 <=? current_hour) && (current_hour <=? 23)).

(** Step 3 of [find_route]: the [weight] argument of the search. *)
Definition select_weight (self : RoutingEngine) (current_hour : Z) : weight_function :=
  if is_quiet_hours current_hour then attribute "time_cost"
  else if (0.70 <=? w_time self)%float then attribute "time_cost"
  else bound_get_edge_cost self.

(** [list(zip(path_nodes[:-1], path_nodes[1:]))]. *)
Definition path_edges (path_nodes : list node) : list (node * node) :=
  combine (removelast path_nodes) (tl path_nodes).

(** The four accumulators of the analysis loop. *)
Record totals := Totals {
  total_time_sec : float;
  total_noise_weighted : float;
  total_length_m : float;
  time_in_green : float
}.

(** One turn of the loop over [path_edges]. *)
Definition analyze_edge (G : MultiDiGraph) (analytics_noise_multiplier : float)
    (acc : totals) (uv : node * node) : result totals :=
  let '(u, v) := uv in
  let! edge_data := edge_data_at G u v 0 in
  let! current_time := as_float (get edge_data "time_cost" (VFloat 0)) in
  let! current_noise := as_float (get edge_data "noise_cost" (VFloat 0)) in
  let! current_length := as_float (get edge_data "length" (VFloat 0)) in
  Ok (Totals
        (total_time_sec acc + current_time)
        (total_noise_weighted acc + current_noise * analytics_noise_multiplier)
        (total_length_m acc + current_length)
        (if _is_truthy (get_none edge_data "green_cover")
         then time_in_green acc + current_time
         else time_in_green acc))%float.

Fixpoint analyze_loop (G : MultiDiGraph) (analytics_noise_multiplier : float)
    (edges : list (node * node)) (acc : totals) : result totals :=
  match edges with
  | [] => Ok acc
  | uv :: rest =>
      let! acc' := analyze_edge G analytics_noise_multiplier acc uv in
      analyze_loop G analytics_noise_multiplier rest acc'
  end.

Record Analytics := {
  time : float;
  distance : float;
  avg_noise : float;
  green_percent : float
}.

(** Step 5: the derived figures. *)
Definition format_analytics (t : totals) : result Analytics :=
  let! avg_noise :=
    if (0 <? total_length_m t)%float
    then truediv (total_noise_weighted t) (total_length_m t)
    else Ok 0%float in
  let! green_percent :=
    if (0 <? total_time_sec t)%float
    then let! q := truediv (time_in_green t) (total_time_sec t) in Ok (q * 100)%float
    else Ok 0%float in
  Ok {| time := total_time_sec t;
        distance := total_length_m t;
        avg_noise := avg_noise;
        green_percent := green_percent |}.

(** Steps 4 and 5 of [find_route]. *)
Definition analyze_path (G : MultiDiGraph) (is_quiet : bool) (path_nodes : list node)
    : result Analytics :=
  let analytics_noise_multiplier := if is_quiet then 0.7%float else 1%float in
  let! t := analyze_loop G analytics_noise_multiplier (path_edges path_nodes)
                         (Totals 0 0 0 0) in
  format_analytics t.

Record RouteResult := {
  analytics : Analytics;
  route_gdf : GeoDataFrame;
  start_location : float * float;
  map_bounds : float * float * float * float
}.

Context `{Collaborators}.
Local Open Scope method_scope.

Definition find_route (start_address end_address : option string) (selected_hour : option Z)
    : M RouteResult :=
  if falsy start_address || falsy end_address
  then raise (ValueError "Start and end addresses are required.")
  else
    do start_loc ← call (Geocode (default "" start_address))
                        (geocode (default "" start_address));
    do end_loc ← call (Geocode (default "" end_address))
                      (geocode (default "" end_address));
    match start_loc, end_loc with
    | Some start_loc, Some end_loc =>
        do this ← self;
        do start_point_proj ←
          call (Project (longitude start_loc) (latitude start_loc))
               (project_geometry (longitude start_loc) (latitude start_loc)
                                 (graph_init_crs this) (graph_crs this));
        do end_point_proj ←
          call (Project (longitude end_loc) (latitude end_loc))
               (project_geometry (longitude end_loc) (latitude end_loc)
                                 (graph_init_crs this) (graph_crs this));
        do start_node ←
          call (NearestNodes start_point_proj.1 start_point_proj.2)
               (nearest_nodes (G this) start_point_proj.1 start_point_proj.2);
        do end_node ←
          call (NearestNodes end_point_proj.1 end_point_proj.2)
               (nearest_nodes (G this) end_point_proj.1 end_point_proj.2);
        let current_hour := resolve_hour selected_hour now_hour in
        let weight_function := select_weight this current_hour in
        do path_nodes ←
          call (AStar start_node end_node weight_function)
               (astar_path (G this) start_node end_node weight_function);
        do analytics ←
          lift (analyze_path (G this) (is_quiet_hours current_hour) path_nodes);
        do route_gdf ←
          call (RouteToGdf path_nodes) (route_to_gdf (G this) path_nodes "length");
        do route_gdf_4326 ← lift (to_crs route_gdf (graph_init_crs this));
        ret {| analytics := analytics;
               route_gdf := route_gdf_4326;
               start_location := (latitude start_loc, longitude start_loc);
               map_bounds := total_bounds route_gdf_4326 |}
    | _, _ => raise (ValueError "Could not geocode one or both addresses.")
    end.

(** The events a call of [find_route] adds to the log. *)
Definition logged (start_address end_address : option string) (selected_hour : option Z)
    (w : world) (evs : list event) : Prop :=
  log (find_route start_address end_address selected_hour w).2 = log w ++ evs.

(** The caller, [main_window.run_route_search], catches every exception
    of [find_route] and goes on: a session is a sequence of queries on
    the same engine. *)
Record query := Query {
  query_start : option string;
  query_end : option string;
  query_hour : option Z
}.

Definition run_query (q : query) (w : world) : world :=
  (find_route (query_start q) (query_end q) (query_hour q) w).2.

Fixpoint run_queries (qs : list query) (w : world) : world :=
  match qs with
  | [] => w
  | q :: rest => run_queries rest (run_query q w)
  end.

End methods.

End routing_engine.
Import routing_engine.

(** ** main_window.py

    The slots that talk to the engine.  A window is the state of its
    controls; the widgets, the labels and the dialogs are Qt's. *)

Module main_window.

Record MainWindow := Window {
  start_input : string;
  end_input : string;
  profile_slider : Z;
  parks_checkbox : bool;
  junctions_checkbox : bool;
  selected_hour : option Z
}.

Section slots.
Context `{Builtins} `{Collaborators}.
Local Open Scope method_scope.

(** [update_preferences]: the weights come from the slider's position,
    the flags from the check boxes. *)
Definition update_preferences (win : MainWindow) : M unit :=
  do w_noise ← lift (let! value := float_of_int (profile_slider win) in truediv value 100);
  let w_time := (1 - w_noise)%float in
  set_preferences w_time w_noise (parks_checkbox win) (junctions_checkbox win).

(** [set_selected_hour]. *)
Definition set_selected_hour (win : MainWindow) (hour_value : Z) : MainWindow :=
  Window (start_input win) (end_input win) (profile_slider win)
         (parks_checkbox win) (junctions_checkbox win) (Some hour_value).

(** [run_route_search], as far as the engine is concerned: the query is
    made of the two text fields and the selected hour. *)
Definition route_query (win : MainWindow) : M RouteResult :=
  find_route (Some (start_input win)) (Some (end_input win)) (selected_hour win).

End slots.

End main_window.

(** ** The shape of a query's log *)

Module trace.

Inductive call_kind := geocoding | projecting | snapping | searching | drawing.

Definition kind_of (ev : event) : call_kind :=
  match ev with
  | Geocode _ => geocoding
  | Project _ _ => projecting
  | NearestNodes _ _ => snapping
  | AStar _ _ _ => searching
  | RouteToGdf _ => drawing
  end.

(** The calls of a query that returns. *)
Definition full : list call_kind :=
  [geocoding; geocoding; projecting; projecting; snapping; snapping; searching; drawing].

End trace.

(** ** networkx: the weight of a step of the search

    [nx.astar_path] turns its [weight] argument into a function of
    [(u, v, G[u][v])] (networkx's [_weight_function]).  On a multigraph
    an attribute name stands for the least value of that attribute over
    the parallel edges, a missing attribute counting 1; a callable is
    called as it is, with the keyed dictionary [G[u][v]] as its third
    argument. *)

Module networkx.

Section weights.
Context `{Builtins}.

(** The attribute values the search can add up. *)
Definition number (v : pyval) : result float :=
  match v with
  | VFloat f => Ok f
  | VInt z => float_of_int z
  | VBool b => Ok (if b then 1%float else 0%float)
  | _ => Raise TypeError
  end.

(** [min(attr.get(weight, 1) for attr in d.values())]. *)
Definition min_attribute (name : string) (d : keydict) : result float :=
  let! ws := for_each (λ ka : Z * attrs, number (get ka.2 name (VInt 1))) d in
  min_ ws.

(** The entries of [G[u][v]] that a lookup by attribute name can find:
    its keys are the edge keys, integers, so there are none. *)
Definition named_entries (d : keydict) : attrs := ∅.

Definition edge_weight (weight : weight_function) (u v : node) (d : keydict)
    : result float :=
  match weight with
  | attribute name => min_attribute name d
  | bound_get_edge_cost self => _get_edge_cost self u v (named_entries d)
  end.

End weights.

End networkx.

(** ** The cost model as the specification words it (§4.1)

    One definition per step of the specification's algorithm, to compare
    with [_get_edge_cost]. *)

Module spec.

Record preferences := {
  pref_w_time : float;
  pref_w_noise : float;
  pref_prefer_parks : bool;
  pref_avoid_junctions : bool
}.

Definition preferences_of (self : RoutingEngine) : preferences :=
  {| pref_w_time := w_time self;
     pref_w_noise := w_noise self;
     pref_prefer_parks := prefer_parks self;
     pref_avoid_junctions := avoid_junctions self |}.

(** Steps 2 and 3: pure peace bypasses the blend. *)
Definition blend (prefs : preferences) (t n : float) : float :=
  if (pref_w_noise prefs =? 1)%float then n
  else (pref_w_time prefs * t + pref_w_noise prefs * n)%float.

(** Step 4. *)
Definition park_discount (prefs : preferences) (edge_attrs : attrs) (base : float) : float :=
  if pref_prefer_parks prefs && _is_truthy (get_none edge_attrs "green_cover")
  then (base * 0.7)%float else base.

(** Step 5. *)
Definition junction_penalty (prefs : preferences) (edge_attrs : attrs) (base : float) : float :=
  if pref_avoid_junctions prefs && _is_truthy (get_none edge_attrs "is_junction")
  then (base * 2)%float else base.

(** Steps 6 and 7. *)
Definition epsilon_floor (t n base : float) : float :=
  if (base =? 0)%float && ((0 <? t)%float || (0 <? n)%float) then 1e-9%float else base.

(** The quiet hours as §4.2 lists them. *)
Definition quiet (h : Z) : Prop :=
  0 ≤ h ≤ 7 ∨ 10 ≤ h ≤ 11 ∨ 15 ≤ h ≤ 16 ∨ 22 ≤ h ≤ 23.

Section cost_model.
Context `{Builtins}.

(** Step 1, then the rest. *)
Definition edge_cost (u v : node) (edge_attrs : attrs) (prefs : preferences) : result float :=
  let! t := as_float (get edge_attrs "time_cost_norm" (VFloat 1)) in
  let! n := as_float (get edge_attrs "noise_cost_norm" (VFloat 0)) in
  Ok (epsilon_floor t n
        (junction_penalty prefs edge_attrs
           (park_discount prefs edge_attrs (blend prefs t n)))).

End cost_model.

(** §4.2, analytics aggregation: what is read off one edge of the path,
    and the sums over the path, taken from 0.0 in path order. *)
Record reading := Reading {
  raw_time : float;
  raw_noise : float;
  raw_length : float;
  near_park : bool
}.

Definition total (xs : list float) : float := fold_left PrimFloat.add xs 0%float.

(** The noise scale of a query: 0.7 in quiet hours, else 1.0. *)
Definition noise_scale (quiet_hours : bool) : float :=
  if quiet_hours then 0.7%float else 1%float.

Definition total_time (rs : list reading) : float := total (map raw_time rs).
Definition total_distance (rs : list reading) : float := total (map raw_length rs).
Definition total_noise_weighted (quiet_hours : bool) (rs : list reading) : float :=
  total (map (λ r, raw_noise r * noise_scale quiet_hours)%float rs).
Definition time_in_green (rs : list reading) : float :=
  total (map raw_time (List.filter near_park rs)).

Section readings.
Context `{Builtins}.

(** The step from [u] to [v] reads [r]: the edge taken for the pair has
    these raw values (absent ones count 0.0) and this green flag. *)
Definition reads (G : MultiDiGraph) (uv : node * node) (r : reading) : Prop :=
  ∃ edge_data,
    edge_data_at G uv.1 uv.2 0 = Ok edge_data
    ∧ as_float (get edge_data "time_cost" (VFloat 0)) = Ok (raw_time r)
    ∧ as_float (get edge_data "noise_cost" (VFloat 0)) = Ok (raw_noise r)
    ∧ as_float (get edge_data "length" (VFloat 0)) = Ok (raw_length r)
    ∧ _is_truthy (get_none edge_data "green_cover") = near_park r.

End readings.

(** §3, the edge attributes the graph provider computes.  The noise
    weight of a road class; an edge without a [highway] attribute counts
    as residential. *)
Definition road_class_weight (highway : option pyval) : float :=
  match highway with
  | None => 3
  | Some (VStr s) =>
      if str_in s ["motorway"; "primary"; "trunk"]%string then 10
      else if str_in s ["secondary"; "tertiary"]%string then 7
      else if str_in s ["residential"; "living_street"; "unclassified"]%string then 3
      else 5
  | Some _ => 5
  end%float.

(** Min-max rescaling with the zero-range fallback. *)
Definition rescale (lo hi x : float) : float :=
  ((x - lo) / (if (0 <? hi - lo) then hi - lo else 1))%float.

(** An infinite time is forced to 1.0. *)
Definition time_norm (lo hi t : float) : float :=
  if (t =? infinity)%float then 1%float else rescale lo hi t.

(** The values that are not [inf]. *)
Definition not_inf (xs : list float) : list float :=
  List.filter (λ x, negb (x =? infinity)%float) xs.

(** An edge with its two normalized costs set. *)
Definition with_norms (e : edge) (tn nn : float) : edge :=
  Edge (src e) (dst e) (key e)
    (<["noise_cost_norm" := VFloat nn]> (<["time_cost_norm" := VFloat tn]> (data e))).

Fixpoint with_norms_all (es : list edge) (tns nns : list float) : list edge :=
  match es, tns, nns with
  | e :: es', tn :: tns', nn :: nns' => with_norms e tn nn :: with_norms_all es' tns' nns'
  | _, _, _ => []
  end.

(** The attribute [k] of every edge, those without it left out. *)
Definition column (k : string) (es : list edge) : list pyval :=
  omap (λ e, data e !! k) es.

End spec.

(** ** Sample data for the concrete checks *)

Module samples.

(** A [float(s)] that knows a few literals and rejects the rest. *)
Definition literal (s : string) : option float :=
  if String.eqb s "0.0" then Some 0%float
  else if String.eqb s "0.5" then Some 0.5%float
  else if String.eqb s "1.0" then Some 1%float
  else if String.eqb s "inf" then Some infinity
  else None.

#[export] Instance builtins : Builtins := {| float_of_str := literal |}.

Definition no_attrs : gmap string string := {[ "crs"%string := "EPSG:32618"%string ]}.

(** An engine over the graph [g] with the given preferences. *)
Definition engine_with (g : MultiDiGraph) (wt wn : float) (parks junctions : bool)
    : RoutingEngine :=
  Engine g "EPSG:32618" "EPSG:4326" wt wn parks junctions.

Definition empty_graph : MultiDiGraph := Graph no_attrs [].

(** Edge attributes with the two normalized costs and the two flags. *)
Definition edge_attrs (t n : float) (green junction : pyval) : attrs :=
  <["time_cost_norm" := VFloat t]>
    (<["noise_cost_norm" := VFloat n]>
       (<["green_cover" := green]> (<["is_junction" := junction]> ∅))).

(** Raw attributes of a processed edge. *)
Definition raw_attrs (t n l : float) (green : pyval) : attrs :=
  <["time_cost" := VFloat t]>
    (<["noise_cost" := VFloat n]>
       (<["length" := VFloat l]> (<["green_cover" := green]> ∅))).

(** Three corners in a row: 1 to 2 along a park, 2 to 3 along a main
    road. *)
Definition row_graph : MultiDiGraph :=
  Graph no_attrs
    [ Edge 1 2 0 (raw_attrs 60 300 100 (VBool true));
      Edge 2 3 0 (raw_attrs 30 500 100 (VBool false)) ].

(** Two parallel streets from 1 to 2: key 0 is the long one, key 1 the
    short one. *)
Definition parallel_graph : MultiDiGraph :=
  Graph no_attrs
    [ Edge 1 2 0 (raw_attrs 100 3000 1000 (VBool false));
      Edge 1 2 1 (raw_attrs 10 300 100 (VBool true)) ].

(** A street along a park whose speed is zero: its [time_cost] is
    infinite. *)
Definition closed_street_graph : MultiDiGraph :=
  Graph no_attrs [ Edge 1 2 0 (raw_attrs infinity 300 100 (VBool true)) ].

(** A geocoder that knows three corners, answers [None] for one address
    and times out on everything else. *)
Definition sample_geocode (address : string) : result (option Location) :=
  if String.eqb address "Times Square"
  then Ok (Some {| latitude := 40.758; longitude := -73.985 |})
  else if String.eqb address "Bryant Park"
  then Ok (Some {| latitude := 40.754; longitude := -73.984 |})
  else if String.eqb address "Grand Central"
  then Ok (Some {| latitude := 40.753; longitude := -73.977 |})
  else if String.eqb address "Atlantis" then Ok None
  else Raise (LibraryError "GeocoderTimedOut").

Definition sample_nearest (g : MultiDiGraph) (x y : float) : result node :=
  if (x =? -73.985)%float then Ok 1
  else if (x =? -73.984)%float then Ok 2
  else Ok 3.

(** A search that knows the routes of the sample graphs. *)
Definition sample_astar (g : MultiDiGraph) (s t : node) (w : weight_function)
    : result (list node) :=
  if (s =? 1) && (t =? 2) then Ok [1; 2]
  else if (s =? 1) && (t =? 3) then Ok [1; 2; 3]
  else if (s =? 2) && (t =? 3) then Ok [2; 3]
  else Raise (LibraryError "NetworkXNoPath").

Definition collaborators : Collaborators :=
  {| geocode := sample_geocode;
     now_hour := 13;
     project_geometry := λ lon lat _ _, Ok (lon, lat);
     nearest_nodes := sample_nearest;
     astar_path := sample_astar;
     route_to_gdf := λ g path _, Ok {| rows := []; frame_crs := "EPSG:32618" |};
     to_crs := λ gdf crs, Ok {| rows := rows gdf; frame_crs := crs |};
     total_bounds := λ _, (0, 0, 0, 0)%float |}.

(** A fresh world around an engine. *)
Definition world_of (e : RoutingEngine) : world := World e [].

(** Edges for the graph passes: a raw edge of a given length and road
    class, and a processed edge with its two raw costs. *)
Definition raw_edge (k : Z) (length : float) (highway : option string) : edge :=
  Edge 1 2 k
    (match highway with
     | Some h => <["highway" := VStr h]> (<["length" := VFloat length]> ∅)
     | None => <["length" := VFloat length]> ∅
     end).

Definition costed_edge (k : Z) (t n : float) : edge :=
  Edge 1 2 k (<["time_cost" := VFloat t]> (<["noise_cost" := VFloat n]> ∅)).

(** Two streets of 5 s and one closed street. *)
Definition equal_times : list edge :=
  [ costed_edge 0 5 300; costed_edge 1 5 300; costed_edge 2 infinity 700 ].

End samples.

(** The concrete checks below run with the sample builtins; every
    section that states a general fact brings its own. *)
#[local] Existing Instance samples.builtins.
#[local] Existing Instance samples.collaborators.

(** ** Binary64 roundings, for the proofs

    What the facts about rounding are stated with: a mantissa with its
    round and sticky bits read as one integer, [4 * m + 2 * r + s]; the
    two stages of [binary_round_aux] on that integer; the scaled value of
    a non-negative float; and the classes of non-negative floats. *)

Module binary64.

(** The exponent of the format for a number of a given magnitude, the
    least exponent, and validity, at 53 bits of precision. *)
Abbreviation fexp64 := (fexp prec emax).
Abbreviation E64 := (-1074).
Abbreviation valid64 := (SpecFloat.valid_binary prec emax).

(** A shift record as one integer: the mantissa, then the round bit,
    then the sticky bit. *)
Definition rec_w (r : shr_record) : Z :=
  4 * shr_m r + 2 * Z.b2z (shr_r r) + Z.b2z (shr_s r).

(** What [shr_1] does to that integer: one bit less, the lost bit kept in
    the sticky bit. *)
Definition ss (w : Z) : Z := 2 * (w / 4) + (if w mod 4 =? 0 then 0 else 1).

(** [n] times [shr_1], none for [n <= 0]. *)
Definition shifts (n : Z) (r : shr_record) : shr_record :=
  match n with Z.pos p => Pos.iter shr_1 r p | _ => r end.

(** A location as the two low bits. *)
Definition code (l : location) : Z :=
  match l with
  | loc_Exact => 0
  | loc_Inexact Lt => 1
  | loc_Inexact Eq => 2
  | loc_Inexact Gt => 3
  end.

(** Round to nearest, ties to even, on the integer of a record. *)
Definition rne_w (w : Z) : Z :=
  let m := w / 4 in
  let c := w mod 4 in
  if c <? 2 then m
  else if c =? 2 then (if Z.even m then m else m + 1)
  else m + 1.

(** The float of a mantissa and an exponent: zero, a number, or infinity
    past the largest exponent. *)
Definition mk (sx : bool) (me : Z * Z) : spec_float :=
  match me.1 with
  | 0 => S754_zero sx
  | Z.pos m => if me.2 <=? emax - prec then S754_finite sx m me.2 else S754_infinity sx
  | Z.neg _ => S754_nan
  end.

(** The first stage of [binary_round_aux]: shift to the format's
    exponent and round. *)
Definition st1 (m : Z) (l : location) (e : Z) : Z * Z :=
  (rne_w (rec_w (shifts (fexp64 (Zdigits2 m + e) - e) (shr_record_of_loc m l))),
   Z.max e (fexp64 (Zdigits2 m + e))).

(** The second stage: a mantissa that the rounding carried to [2^53]
    moves up one exponent. *)
Definition stage2 (me : Z * Z) : Z * Z :=
  if me.1 =? 2 ^ 53 then (2 ^ 52, me.2 + 1) else me.

(** The order of two results, read off mantissa and exponent. *)
Definition pair_le (a b : Z * Z) : Prop :=
  a.1 = 0 ∨ (a.2 < b.2 ∧ 0 < b.1) ∨ (a.2 = b.2 ∧ a.1 ≤ b.1).

(** The rounding of the exact number [N * 2^E]. *)
Definition R_at (E N : Z) : spec_float := mk false (stage2 (st1 N loc_Exact E)).

(** The value of a non-negative float in units of [2^-1074]. *)
Definition V (x : spec_float) : Z :=
  match x with
  | S754_finite false m e => Z.pos m * 2 ^ (e + 1074)
  | _ => 0
  end.

(** The valid floats that are [+0] or positive and finite; those and
    [+infinity]; and what may be added to them: those, [-0], and
    [+infinity]. *)
Inductive posfin : spec_float → Prop :=
| posfin_zero : posfin (S754_zero false)
| posfin_num m e : bounded prec emax m e = true → posfin (S754_finite false m e).

Definition posext (x : spec_float) : Prop := posfin x ∨ x = S754_infinity false.
Definition finadd (c : spec_float) : Prop := posfin c ∨ c = S754_zero true.
Definition addend (c : spec_float) : Prop := finadd c ∨ c = S754_infinity false.

(** 1.0 and 100.0. *)
Definition one64 : spec_float := S754_finite false 4503599627370496 (-52).
Definition hundred64 : spec_float := S754_finite false 7036874417766400 (-46).

(** On primitive floats: not negative (and not NaN), and the values a
    running sum of such numbers takes from 0.0. *)
Definition nonneg (x : float) : Prop := (0 <=? x)%float = true.
Definition acc (x : float) : Prop := posext (Prim2SF x).

(** The two shapes of a finite float. *)
Inductive finite_view : spec_float → Prop :=
| finite_view_zero s : finite_view (S754_zero s)
| finite_view_number s m e : finite_view (S754_finite s m e).

End binary64.
Import binary64.

(** * Facts about binary64 arithmetic *)

Section float_facts.

Lemma is_finite_view x : is_finite x = true → finite_view (Prim2SF x).
Proof.
  unfold is_finite, is_nan, is_infinity.
  rewrite !FloatAxioms.eqb_spec, abs_spec.
  destruct (Prim2SF x) as [s|s| |s m e]; try constructor.
  - destruct s; vm_compute; discriminate.
  - vm_compute; discriminate.
Qed.

Lemma float_sub_diag x : is_finite x = true → (x - x)%float = 0%float.
Proof.
  intros Hx. apply is_finite_view in Hx.
  apply Prim2SF_inj. rewrite sub_spec.
  change (Prim2SF 0) with (S754_zero false).
  destruct Hx as [s|s m e]; unfold SF64sub, SFsub.
  - now destruct s.
  - rewrite Z.min_id.
    replace (cond_Zopp s (Z.pos (shl_align m e e).1)
             - cond_Zopp s (Z.pos (shl_align m e e).1)) with 0 by lia.
    reflexivity.
Qed.

Lemma float_mul_comm x y : (x * y)%float = (y * x)%float.
Proof.
  apply Prim2SF_inj. rewrite !mul_spec. unfold SF64mul, SFmul.
  destruct (Prim2SF x) as [sx|sx| |sx mx ex], (Prim2SF y) as [sy|sy| |sy my ey];
    try reflexivity; rewrite ?(xorb_comm sx sy); try reflexivity.
  now rewrite (Pos.mul_comm mx my), (Z.add_comm ex ey).
Qed.

Lemma float_pos_nonzero x : (0 <? x)%float = true → (x =? 0)%float = false.
Proof.
  rewrite ltb_spec, FloatAxioms.eqb_spec. change (Prim2SF 0) with (S754_zero false).
  unfold SFltb, SFeqb.
  destruct (Prim2SF x) as [s|s| |s m e]; simpl; try destruct s; congruence.
Qed.

Lemma float_zero_not_pos x : (x =? 0)%float = true → (0 <? x)%float = false.
Proof.
  intros E. destruct (0 <? x)%float eqn:L; [|reflexivity].
  apply float_pos_nonzero in L. congruence.
Qed.

Lemma SFcompare_swap x y : SFcompare y x = CompOpp <$> SFcompare x y.
Proof.
  destruct x as [sx|sx| |sx mx ex], y as [sy|sy| |sy my ey]; cbn;
    try destruct sx; try destruct sy; cbn; try reflexivity.
  - rewrite (Z.compare_antisym ey ex). destruct (ey ?= ex) eqn:E; cbn; try reflexivity.
    f_equal. rewrite CompOpp_involutive.
    change (Pos.compare_cont Eq my mx) with (Pos.compare_cont (CompOpp Eq) my mx).
    now rewrite <- Pos.compare_cont_antisym, CompOpp_involutive.
  - rewrite (Z.compare_antisym ey ex). destruct (ey ?= ex) eqn:E; cbn; try reflexivity.
    f_equal.
    change (Pos.compare_cont Eq my mx) with (Pos.compare_cont (CompOpp Eq) my mx).
    now rewrite <- Pos.compare_cont_antisym.
Qed.

Lemma SFcompare_total x y : x ≠ S754_nan → y ≠ S754_nan → is_Some (SFcompare x y).
Proof.
  destruct x as [sx|sx| |sx mx ex], y as [sy|sy| |sy my ey]; cbn; try congruence; eauto.
Qed.

Lemma is_nan_view x : is_nan x = false → Prim2SF x ≠ S754_nan.
Proof.
  unfold is_nan. rewrite FloatAxioms.eqb_spec. intros E N. rewrite N in E. discriminate.
Qed.

Lemma float_ltb_not_leb x y : (x <? y)%float = true → (y <=? x)%float = false.
Proof.
  rewrite ltb_spec, leb_spec. unfold SFltb, SFleb.
  rewrite (SFcompare_swap (Prim2SF x) (Prim2SF y)).
  destruct (SFcompare (Prim2SF x) (Prim2SF y)) as [[| |]|]; cbn; congruence.
Qed.

Lemma float_not_leb_ltb x y :
  is_nan x = false → is_nan y = false → (y <=? x)%float = false → (x <? y)%float = true.
Proof.
  intros Hx%is_nan_view Hy%is_nan_view. rewrite ltb_spec, leb_spec. unfold SFltb, SFleb.
  rewrite (SFcompare_swap (Prim2SF x) (Prim2SF y)).
  destruct (SFcompare_total _ _ Hx Hy) as [c ->]. destruct c; cbn; congruence.
Qed.

End float_facts.

(** * Rounding in binary64 is monotone

    The library specifies the primitive operations by [SpecFloat]'s
    functions on sign, mantissa and exponent.  This part shows, for
    non-negative operands, that the rounded sum is monotone, that the
    rounded quotient of [a] by [b] is at most 1 when [a <= b], and that
    the rounded product of a number at most 1 by 100 is at most 100.
    Every step of the rounding is monotone on the integer
    [4 * m + 2 * r + s]. *)

Section binary64_rounding.

Lemma fexp_eq x : fexp64 x = Z.max (x - 53) (-1074).
Proof. reflexivity. Qed.

Lemma fexp_mono x y : x ≤ y → fexp64 x ≤ fexp64 y.
Proof. rewrite !fexp_eq. lia. Qed.

(** ** Binary digits *)
Lemma digits2_pos_log2 p : Z.pos (digits2_pos p) = Z.log2 (Z.pos p) + 1.
Proof.
  induction p as [p IH|p IH|]; cbn [digits2_pos]; try reflexivity.
  - rewrite Pos2Z.inj_succ, IH. cbn [Z.log2]. destruct p; cbn; lia.
  - rewrite Pos2Z.inj_succ, IH. cbn [Z.log2]. destruct p; cbn; lia.
Qed.

Lemma Zdigits2_log2 m : 0 < m → Zdigits2 m = Z.log2 m + 1.
Proof. destruct m; try lia. intros _. apply digits2_pos_log2. Qed.

Lemma Zdigits2_0 : Zdigits2 0 = 0.
Proof. reflexivity. Qed.

Lemma Zdigits2_nonneg m : 0 ≤ m → 0 ≤ Zdigits2 m.
Proof. destruct m; cbn; lia. Qed.

Lemma Zdigits2_mono a b : 0 ≤ a ≤ b → Zdigits2 a ≤ Zdigits2 b.
Proof.
  intros [Ha Hab]. destruct (Z.eq_dec a 0) as [->|Hne].
  - now apply Zdigits2_nonneg.
  - rewrite !Zdigits2_log2 by lia. pose proof (Z.log2_le_mono a b Hab). lia.
Qed.

(** A number of [d] digits lies between [2^(d-1)] and [2^d]. *)
Lemma Zdigits2_bounds m : 0 < m → 2 ^ (Zdigits2 m - 1) ≤ m < 2 ^ Zdigits2 m.
Proof.
  intros Hm. rewrite Zdigits2_log2 by lia.
  replace (Z.log2 m + 1 - 1) with (Z.log2 m) by lia.
  replace (Z.log2 m + 1) with (Z.succ (Z.log2 m)) by lia.
  now apply Z.log2_spec.
Qed.

Lemma Zdigits2_lt_pow m d : 0 ≤ d → 0 ≤ m < 2 ^ d → Zdigits2 m ≤ d.
Proof.
  intros Hd [Hm Hlt]. destruct (Z.eq_dec m 0) as [->|Hne]; [cbn; lia|].
  rewrite Zdigits2_log2 by lia.
  assert (Z.log2 m < d) by (apply Z.log2_lt_pow2; lia). lia.
Qed.

Lemma Zdigits2_ge_pow m d : 0 ≤ d → 2 ^ d ≤ m → d + 1 ≤ Zdigits2 m.
Proof.
  intros Hd Hle. assert (0 < m) by (pose proof (Z.pow_pos_nonneg 2 d); lia).
  rewrite Zdigits2_log2 by lia.
  assert (d ≤ Z.log2 m) by (apply Z.log2_le_pow2; lia). lia.
Qed.

(** ** Shifting records *)

Lemma ss_mono w1 w2 : w1 ≤ w2 → ss w1 ≤ ss w2.
Proof.
  intros H. unfold ss.
  destruct (Z.eqb_spec (w1 mod 4) 0), (Z.eqb_spec (w2 mod 4) 0);
    Z.div_mod_to_equations; lia.
Qed.

Lemma shr_1_w r : 0 ≤ shr_m r → rec_w (shr_1 r) = ss (rec_w r).
Proof.
  destruct r as [m r s]. unfold rec_w, ss; cbn [shr_m shr_r shr_s shr_1].
  intros Hm.
  destruct m as [|p|p]; [| |lia].
  - destruct r, s; reflexivity.
  - destruct p as [p|p|]; destruct r, s; cbn [shr_m shr_r shr_s orb Z.b2z];
      match goal with |- context [?w mod 4 =? 0] =>
        destruct (Z.eqb_spec (w mod 4) 0) end;
      Z.div_mod_to_equations; lia.
Qed.

Lemma shr_1_m r : 0 ≤ shr_m r → shr_m (shr_1 r) = shr_m r / 2.
Proof.
  destruct r as [m r s]. cbn [shr_m shr_1]. intros Hm.
  destruct m as [|p|p]; [reflexivity| |lia].
  destruct p as [p|p|]; cbn [shr_m]; Z.div_mod_to_equations; lia.
Qed.

Lemma shr_1_nonneg r : 0 ≤ shr_m r → 0 ≤ shr_m (shr_1 r).
Proof. intros H. rewrite shr_1_m by assumption. Z.div_mod_to_equations; lia. Qed.

Lemma shr_1_exact m : 0 ≤ m →
  shr_1 (Build_shr_record (2 * m) false false) = Build_shr_record m false false.
Proof. intros Hm. destruct m as [|p|p]; [reflexivity|reflexivity|lia]. Qed.

(** The library iterates as [Pos.iter] does. *)
Lemma iter_pos_iter {A} (f : A → A) p x : SpecFloat.iter_pos f p x = Pos.iter f x p.
Proof.
  revert x. induction p as [p IH|p IH|]; intros x; cbn [SpecFloat.iter_pos Pos.iter].
  - rewrite !IH. now rewrite !Pos.iter_swap.
  - now rewrite !IH.
  - reflexivity.
Qed.

Lemma shr_shifts r e n : shr r e n = (shifts n r, e + Z.max n 0).
Proof.
  unfold shr, shifts. destruct n; rewrite ?iter_pos_iter; f_equal; lia.
Qed.

Lemma shifts_succ n r : 0 ≤ n → shifts (Z.succ n) r = shr_1 (shifts n r).
Proof.
  intros Hn. destruct n as [|p|p]; [reflexivity| |lia].
  unfold shifts. replace (Z.succ (Z.pos p)) with (Z.pos (Pos.succ p)) by lia.
  now rewrite Pos.iter_succ.
Qed.

Lemma shifts_nonpos n r : n ≤ 0 → shifts n r = r.
Proof. destruct n; try reflexivity. lia. Qed.

Lemma shifts_ind (P : Z → shr_record → Prop) r :
  P 0 r → (∀ n, 0 ≤ n → P n (shifts n r) → P (Z.succ n) (shr_1 (shifts n r))) →
  ∀ n, 0 ≤ n → P n (shifts n r).
Proof.
  intros H0 HS n Hn. pattern n. apply natlike_ind; [exact H0| |exact Hn].
  intros k Hk IH. rewrite shifts_succ by assumption. now apply HS.
Qed.

Lemma shifts_m n r : 0 ≤ shr_m r → 0 ≤ n → shr_m (shifts n r) = shr_m r / 2 ^ n.
Proof.
  intros Hm Hn. 
  enough (0 ≤ shr_m (shifts n r) ∧ shr_m (shifts n r) = shr_m r / 2 ^ n) by tauto.
  pattern n, (shifts n r). apply shifts_ind; [| |assumption].
  - rewrite Z.pow_0_r, Z.div_1_r. auto.
  - intros k Hk [IH1 IH2]. split; [now apply shr_1_nonneg|].
    rewrite shr_1_m by assumption. rewrite IH2, Z.pow_succ_r by assumption.
    rewrite Z.div_div by lia. f_equal. lia.
Qed.

Lemma shifts_nonneg n r : 0 ≤ shr_m r → 0 ≤ shr_m (shifts n r).
Proof.
  intros Hm. destruct (Z.le_gt_cases 0 n).
  - rewrite shifts_m by assumption. apply Z.div_pos; [assumption|]. apply Z.pow_pos_nonneg; lia.
  - rewrite shifts_nonpos by lia. assumption.
Qed.

Lemma shifts_mono n r1 r2 :
  0 ≤ shr_m r1 → 0 ≤ shr_m r2 → rec_w r1 ≤ rec_w r2 →
  rec_w (shifts n r1) ≤ rec_w (shifts n r2).
Proof.
  intros H1 H2 Hw. destruct (Z.le_gt_cases 0 n) as [Hn|Hn];
    [|now rewrite !shifts_nonpos by lia].
  pattern n. apply natlike_ind; [assumption| |assumption].
  intros k Hk IH. rewrite !shifts_succ by assumption.
  rewrite !shr_1_w by now apply shifts_nonneg. now apply ss_mono.
Qed.

Lemma shifts_exact n m : 0 ≤ m → 0 ≤ n →
  shifts n (Build_shr_record (m * 2 ^ n) false false) = Build_shr_record m false false.
Proof.
  intros Hm Hn. revert m Hm. pattern n. apply natlike_ind; [| |assumption].
  - intros m Hm. cbn. f_equal. lia.
  - intros k Hk IH m Hm. rewrite shifts_succ by assumption.
    rewrite Z.pow_succ_r by assumption.
    replace (m * (2 * 2 ^ k)) with ((2 * m) * 2 ^ k) by lia.
    rewrite IH by lia. now apply shr_1_exact.
Qed.

Lemma shifts_add a b r : 0 ≤ a → 0 ≤ b → shifts (a + b) r = shifts a (shifts b r).
Proof.
  intros Ha Hb. pattern a. apply natlike_ind; [| |assumption].
  - reflexivity.
  - intros k Hk IH. replace (Z.succ k + b) with (Z.succ (k + b)) by lia.
    rewrite !shifts_succ by lia. now rewrite IH.
Qed.

(** ** Rounding a located mantissa *)

Lemma code_range l : 0 ≤ code l ≤ 3.
Proof. destruct l as [|[]]; cbn; lia. Qed.

Lemma rec_w_of_loc m l : rec_w (shr_record_of_loc m l) = 4 * m + code l.
Proof. destruct l as [|[]]; unfold rec_w; cbn; lia. Qed.

Lemma shr_m_of_loc m l : shr_m (shr_record_of_loc m l) = m.
Proof. now destruct l as [|[]]. Qed.

Lemma rec_w_split r : 0 ≤ shr_m r →
  rec_w r / 4 = shr_m r ∧ rec_w r mod 4 = 2 * Z.b2z (shr_r r) + Z.b2z (shr_s r).
Proof.
  intros _. unfold rec_w. destruct (shr_r r), (shr_s r); cbn [Z.b2z];
    Z.div_mod_to_equations; lia.
Qed.

Lemma rne_rec r : 0 ≤ shr_m r →
  round_nearest_even (shr_m r) (loc_of_shr_record r) = rne_w (rec_w r).
Proof.
  intros Hm. unfold rne_w. destruct (rec_w_split r Hm) as [-> ->].
  destruct r as [m [] []]; cbn; try reflexivity.
Qed.

Lemma rne_w_bounds w : w / 4 ≤ rne_w w ≤ w / 4 + 1.
Proof.
  unfold rne_w. destruct (_ <? _); [lia|]. destruct (_ =? _); [|lia].
  destruct (Z.even _); lia.
Qed.

Lemma rne_w_exact m : rne_w (4 * m) = m.
Proof.
  unfold rne_w. replace (4 * m mod 4) with 0 by (Z.div_mod_to_equations; lia).
  cbn. Z.div_mod_to_equations; lia.
Qed.

Lemma rne_w_mono w1 w2 : w1 ≤ w2 → rne_w w1 ≤ rne_w w2.
Proof.
  intros H. unfold rne_w.
  destruct (Z.ltb_spec (w1 mod 4) 2), (Z.ltb_spec (w2 mod 4) 2);
    destruct (Z.eqb_spec (w1 mod 4) 2), (Z.eqb_spec (w2 mod 4) 2);
    try destruct (Z.even (w1 / 4)) eqn:E1; try destruct (Z.even (w2 / 4)) eqn:E2;
    try (Z.div_mod_to_equations; lia).
  all: assert (w1 / 4 = w2 / 4 ∨ w1 / 4 < w2 / 4) as [Heq|Hlt]
         by (Z.div_mod_to_equations; lia);
       [rewrite Heq in *; congruence || (Z.div_mod_to_equations; lia)|lia].
Qed.

(** The mantissa after the first shift is below [2^53]. *)
Lemma shifted_lt m e : 0 ≤ m →
  m / 2 ^ Z.max (fexp64 (Zdigits2 m + e) - e) 0 < 2 ^ 53.
Proof.
  intros Hm. destruct (Z.eq_dec m 0) as [->|Hne].
  { rewrite Z.div_0_l; [lia|]. apply Z.pow_nonzero; lia. }
  pose proof (Zdigits2_bounds m ltac:(lia)) as [_ Hhi].
  pose proof (Zdigits2_nonneg m Hm) as Hd.
  set (d := Zdigits2 m) in *.
  set (n := Z.max (fexp64 (d + e) - e) 0).
  assert (Hn : d - 53 ≤ n ∧ 0 ≤ n) by (unfold n; rewrite fexp_eq; lia).
  apply Z.div_lt_upper_bound; [apply Z.pow_pos_nonneg; lia|].
  rewrite <- Z.pow_add_r by lia.
  eapply Z.lt_le_trans; [exact Hhi|]. apply Z.pow_le_mono_r; lia.
Qed.

Lemma st1_bounds m l e : 0 ≤ m → 0 ≤ (st1 m l e).1 ≤ 2 ^ 53 ∧ -1074 ≤ (st1 m l e).2.
Proof.
  intros Hm. unfold st1; cbn [fst snd]. split; [|rewrite fexp_eq; lia].
  set (r := shifts _ _).
  assert (Hr : 0 ≤ shr_m r) by (apply shifts_nonneg; now rewrite shr_m_of_loc).
  pose proof (rne_w_bounds (rec_w r)) as Hb.
  destruct (rec_w_split r Hr) as [Hq _]. rewrite Hq in Hb.
  assert (shr_m r < 2 ^ 53).
  { unfold r. destruct (Z.le_gt_cases 0 (fexp64 (Zdigits2 m + e) - e)) as [Hn|Hn].
    - rewrite shifts_m, shr_m_of_loc by (rewrite ?shr_m_of_loc; lia).
      pose proof (shifted_lt m e Hm) as Hlt. now rewrite Z.max_l in Hlt by lia.
    - rewrite shifts_nonpos, shr_m_of_loc by lia.
      pose proof (shifted_lt m e Hm) as Hlt. rewrite Z.max_r in Hlt by lia.
      now rewrite Z.pow_0_r, Z.div_1_r in Hlt. }
  lia.
Qed.

Lemma binary_round_aux_eq sx m e l : 0 ≤ m →
  binary_round_aux prec emax sx m e l = mk sx (stage2 (st1 m l e)).
Proof.
  intros Hm. unfold binary_round_aux, shr_fexp.
  rewrite shr_shifts.
  set (r := shifts _ _).
  assert (Hr : 0 ≤ shr_m r) by (apply shifts_nonneg; now rewrite shr_m_of_loc).
  rewrite (rne_rec r Hr).
  pose proof (st1_bounds m l e Hm) as [Hb He]. unfold st1 in Hb, He; cbn [fst snd] in Hb, He.
  fold r in Hb.
  set (m1 := rne_w (rec_w r)) in *.
  replace (e + Z.max (fexp64 (Zdigits2 m + e) - e) 0)
    with (Z.max e (fexp64 (Zdigits2 m + e))) by lia.
  set (e1 := Z.max e (fexp64 (Zdigits2 m + e))) in *.
  rewrite shr_shifts. unfold st1, stage2; cbn [fst snd]. fold r m1 e1.
  cbn [shr_record_of_loc].
  destruct (Z.eqb_spec m1 (2 ^ 53)) as [Heq|Hne].
  - rewrite Heq. change (Zdigits2 (2 ^ 53)) with 54.
    replace (fexp64 (54 + e1) - e1) with 1 by (rewrite fexp_eq; lia).
    cbn [shifts Pos.iter shr_1]. unfold mk; cbn [fst snd].
    change (shr_m _) with (2 ^ 52). replace (e1 + Z.max 1 0) with (e1 + 1) by lia.
    reflexivity.
  - assert (Hd : Zdigits2 m1 ≤ 53) by (apply Zdigits2_lt_pow; lia).
    rewrite shifts_nonpos by (rewrite fexp_eq; lia).
    replace (e1 + Z.max (fexp64 (Zdigits2 m1 + e1) - e1) 0) with e1
      by (rewrite fexp_eq; lia).
    reflexivity.
Qed.

(** ** Order of rounded results *)

Lemma mk_le a b : 0 ≤ a.1 → 0 ≤ b.1 → pair_le a b →
  SFleb (mk false a) (mk false b) = true.
Proof.
  destruct a as [ma ea], b as [mb eb]. unfold pair_le, mk; cbn [fst snd].
  intros Ha Hb Hle.
  destruct ma as [|pa|pa]; [|clear Ha|lia]; (destruct mb as [|pb|pb]; [|clear Hb|lia]).
  - reflexivity.
  - now destruct (eb <=? _).
  - lia.
  - destruct Hle as [Hle|[[Hlt _]|[-> Hle]]]; [lia| |].
    + destruct (Z.leb_spec ea (emax - prec)), (Z.leb_spec eb (emax - prec));
        try reflexivity; try lia.
      unfold SFleb, SFcompare. rewrite (proj2 (Z.compare_lt_iff ea eb) Hlt). reflexivity.
    + destruct (eb <=? _); [|reflexivity].
      unfold SFleb, SFcompare. rewrite Z.compare_refl.
      change (PosDef.Pos.compare_cont Eq pa pb) with (Pos.compare pa pb).
      destruct (Pos.compare_spec pa pb); try reflexivity. lia.
Qed.

Lemma stage1_m_ge m l e :
  0 < m → e < fexp64 (Zdigits2 m + e) → -1074 < fexp64 (Zdigits2 m + e) →
  2 ^ 52 ≤ (st1 m l e).1.
Proof.
  intros Hm Hsh Hnorm. unfold st1; cbn [fst].
  set (d := Zdigits2 m) in *.
  assert (Ht : fexp64 (d + e) = d + e - 53) by (rewrite fexp_eq in *; lia).
  rewrite Ht in *.
  set (r := shifts _ _).
  assert (Hr : 0 ≤ shr_m r) by (apply shifts_nonneg; rewrite shr_m_of_loc; lia).
  pose proof (rne_w_bounds (rec_w r)) as Hb.
  destruct (rec_w_split r Hr) as [Hq _]. rewrite Hq in Hb.
  enough (2 ^ 52 ≤ shr_m r) by lia.
  unfold r. rewrite shifts_m, shr_m_of_loc by (rewrite ?shr_m_of_loc; lia).
  replace (d + e - 53 - e) with (d - 53) by lia.
  pose proof (Zdigits2_bounds m Hm) as [Hlo _]. fold d in Hlo.
  apply Z.div_le_lower_bound; [apply Z.pow_pos_nonneg; lia|].
  rewrite <- Z.pow_add_r by lia. replace (d - 53 + 52) with (d - 1) by lia. exact Hlo.
Qed.

Lemma stage2_same_e ma mb e1 :
  0 ≤ ma ≤ mb → mb ≤ 2 ^ 53 → pair_le (stage2 (ma, e1)) (stage2 (mb, e1)).
Proof.
  intros [Ha Hab] Hb. unfold stage2, pair_le; cbn [fst snd].
  destruct (Z.eqb_spec ma (2 ^ 53)), (Z.eqb_spec mb (2 ^ 53)); cbn [fst snd]; lia.
Qed.

Lemma stage2_lt_e ma mb ea eb :
  0 ≤ ma ≤ 2 ^ 53 → 2 ^ 52 ≤ mb ≤ 2 ^ 53 → ea < eb →
  pair_le (stage2 (ma, ea)) (stage2 (mb, eb)).
Proof.
  intros Ha Hb He. unfold stage2, pair_le; cbn [fst snd].
  destruct (Z.eqb_spec ma (2 ^ 53)), (Z.eqb_spec mb (2 ^ 53)); cbn [fst snd]; lia.
Qed.

Lemma round_mono ma la mb lb e :
  0 ≤ ma → 0 ≤ mb → 4 * ma + code la ≤ 4 * mb + code lb →
  pair_le (stage2 (st1 ma la e)) (stage2 (st1 mb lb e)).
Proof.
  intros Ha Hb Hw.
  pose proof (code_range la). pose proof (code_range lb).
  assert (Hab : ma ≤ mb) by lia.
  pose proof (Zdigits2_mono ma mb ltac:(lia)) as Hd.
  pose proof (fexp_mono (Zdigits2 ma + e) (Zdigits2 mb + e) ltac:(lia)) as Ht.
  pose proof (st1_bounds ma la e Ha) as [Hba _].
  pose proof (st1_bounds mb lb e Hb) as [Hbb _].
  destruct (Z.eq_dec (fexp64 (Zdigits2 ma + e)) (fexp64 (Zdigits2 mb + e))) as [Heq|Hne].
  - (* same shift *)
    assert (Hm : (st1 ma la e).1 ≤ (st1 mb lb e).1).
    { unfold st1; cbn [fst]. apply rne_w_mono. rewrite Heq.
      apply shifts_mono; rewrite ?shr_m_of_loc, ?rec_w_of_loc; lia. }
    assert (He : (st1 ma la e).2 = (st1 mb lb e).2) by (unfold st1; cbn [snd]; lia).
    destruct (st1 ma la e) as [m1a e1a], (st1 mb lb e) as [m1b e1b]; cbn [fst snd] in *.
    subst e1b. apply stage2_same_e; lia.
  - destruct (Z.le_gt_cases (fexp64 (Zdigits2 mb + e)) e) as [Hnos|Hsh].
    + (* no shift on either side *)
      assert (Hm : (st1 ma la e).1 ≤ (st1 mb lb e).1).
      { unfold st1; cbn [fst]. apply rne_w_mono.
        rewrite !shifts_nonpos by lia. rewrite !rec_w_of_loc. lia. }
      assert (He : (st1 ma la e).2 = (st1 mb lb e).2) by (unfold st1; cbn [snd]; lia).
      destruct (st1 ma la e) as [m1a e1a], (st1 mb lb e) as [m1b e1b]; cbn [fst snd] in *.
      subst e1b. apply stage2_same_e; lia.
    + (* the larger one is shifted more *)
      assert (Hmb : 0 < mb).
      { destruct (Z.eq_dec mb 0) as [->|]; [|lia].
        assert (ma = 0) as -> by lia. congruence. }
      pose proof (stage1_m_ge mb lb e Hmb Hsh) as Hge.
      assert (Hnorm : -1074 < fexp64 (Zdigits2 mb + e)).
      { pose proof (fexp_eq (Zdigits2 ma + e)). pose proof (fexp_eq (Zdigits2 mb + e)). lia. }
      specialize (Hge Hnorm).
      assert (He : (st1 ma la e).2 < (st1 mb lb e).2) by (unfold st1; cbn [snd]; lia).
      destruct (st1 ma la e) as [m1a e1a], (st1 mb lb e) as [m1b e1b]; cbn [fst snd] in *.
      apply stage2_lt_e; lia.
Qed.

Lemma stage2_nonneg me : 0 ≤ me.1 → 0 ≤ (stage2 me).1.
Proof. unfold stage2. destruct (_ =? _); cbn; lia. Qed.

(** Rounding is monotone in the located mantissa at a fixed exponent. *)
Lemma binary_round_aux_mono ma la mb lb e :
  0 ≤ ma → 0 ≤ mb → 4 * ma + code la ≤ 4 * mb + code lb →
  SFleb (binary_round_aux prec emax false ma e la)
        (binary_round_aux prec emax false mb e lb) = true.
Proof.
  intros Ha Hb Hw. rewrite !binary_round_aux_eq by assumption.
  apply mk_le.
  - apply stage2_nonneg, st1_bounds, Ha.
  - apply stage2_nonneg, st1_bounds, Hb.
  - now apply round_mono.
Qed.

(** ** Re-expressing a rounding at a lower exponent *)

Lemma Zdigits2_mul_pow m k : 0 < m → 0 ≤ k → Zdigits2 (m * 2 ^ k) = Zdigits2 m + k.
Proof.
  intros Hm Hk.
  assert (0 < m * 2 ^ k) by (apply Z.mul_pos_pos; [lia|apply Z.pow_pos_nonneg; lia]).
  rewrite !Zdigits2_log2 by lia. rewrite Z.log2_mul_pow2 by lia. lia.
Qed.

Lemma st1_shift m e k : 0 < m → 0 ≤ k → e ≤ fexp64 (Zdigits2 m + e) →
  st1 (m * 2 ^ k) loc_Exact (e - k) = st1 m loc_Exact e.
Proof.
  intros Hm Hk Hn. unfold st1. rewrite Zdigits2_mul_pow by assumption.
  replace (Zdigits2 m + k + (e - k)) with (Zdigits2 m + e) by lia.
  set (t := fexp64 (Zdigits2 m + e)) in *.
  f_equal; [|lia]. f_equal. f_equal.
  replace (t - (e - k)) with ((t - e) + k) by lia.
  rewrite shifts_add by lia. cbn [shr_record_of_loc].
  now rewrite shifts_exact by lia.
Qed.

Lemma iter_xO m d : Z.pos (Pos.iter xO m d) = Z.pos m * 2 ^ Z.pos d.
Proof.
  induction d as [|d IH] using Pos.peano_ind.
  - cbn. lia.
  - rewrite Pos.iter_succ, Pos2Z.inj_xO, IH, Pos2Z.inj_succ, Z.pow_succ_r by lia. lia.
Qed.

Lemma shl_align_value m e e' : e' ≤ e →
  Z.pos (shl_align m e e').1 = Z.pos m * 2 ^ (e - e') ∧ (shl_align m e e').2 = e'.
Proof.
  intros He. unfold shl_align. destruct (e' - e) as [|p|p] eqn:Hd; cbn [fst snd]; [| lia |].
  - assert (e' = e) as -> by lia. rewrite Z.sub_diag, Z.pow_0_r. lia.
  - rewrite iter_xO. split; [|reflexivity]. f_equal. f_equal. lia.
Qed.

Lemma shl_align_noop m e e' : e ≤ e' → shl_align m e e' = (m, e).
Proof.
  intros He. unfold shl_align. destruct (e' - e) as [|p|p] eqn:Hd; try reflexivity. lia.
Qed.

Lemma binary_round_at E m e :
  E ≤ e → E ≤ -1074 →
  binary_round prec emax false m e = R_at E (Z.pos m * 2 ^ (e - E)).
Proof.
  intros HEe HE. unfold binary_round, R_at.
  set (t := fexp64 (Z.pos (digits2_pos m) + e)).
  assert (Ht : -1074 ≤ t) by (unfold t; rewrite fexp_eq; lia).
  destruct (Z.le_gt_cases e t) as [Hle|Hgt].
  - rewrite shl_align_noop by assumption.
    rewrite binary_round_aux_eq by lia. f_equal. f_equal.
    rewrite <- (st1_shift (Z.pos m) e (e - E)); [|lia|lia|exact Hle].
    f_equal. lia.
  - destruct (shl_align_value m e t ltac:(lia)) as [Hv He].
    destruct (shl_align m e t) as [mz ez]; cbn [fst snd] in *. subst ez.
    rewrite binary_round_aux_eq by lia. f_equal. f_equal.
    rewrite <- (st1_shift (Z.pos mz) t (t - E)); [|lia|lia|].
    + f_equal; [|lia]. rewrite Hv, <- Z.mul_assoc, <- Z.pow_add_r by lia. f_equal. f_equal. lia.
    + rewrite Hv, Zdigits2_mul_pow by lia.
      replace (Zdigits2 (Z.pos m) + (e - t) + t) with (Z.pos (digits2_pos m) + e)
        by (cbn [Zdigits2]; lia).
      fold t. lia.
Qed.

(** ** Valid non-negative floats and their scaled value *)

Lemma bounded_facts m e : bounded prec emax m e = true →
  -1074 ≤ e ≤ 971 ∧ Zdigits2 (Z.pos m) ≤ 53 ∧ fexp64 (Zdigits2 (Z.pos m) + e) = e
  ∧ (-1074 < e → Zdigits2 (Z.pos m) = 53).
Proof.
  unfold bounded, canonical_mantissa. intros [Hc He]%andb_true_iff.
  apply Z.eqb_eq in Hc. apply Z.leb_le in He. cbn [Zdigits2].
  rewrite fexp_eq in *. change (emax - prec) with 971 in He. lia.
Qed.

Lemma R_at_zero : R_at (-1074) 0 = S754_zero false.
Proof. reflexivity. Qed.

Lemma binary_round_id m e : bounded prec emax m e = true →
  binary_round prec emax false m e = S754_finite false m e.
Proof.
  intros Hb. destruct (bounded_facts m e Hb) as (He & Hd & Ht & _).
  unfold binary_round. cbn [Zdigits2] in Ht. rewrite Ht.
  rewrite shl_align_noop by lia.
  rewrite binary_round_aux_eq by lia.
  unfold st1. cbn [Zdigits2]. rewrite Ht, Z.sub_diag. cbn [shifts shr_record_of_loc].
  unfold rec_w; cbn [shr_m shr_r shr_s Z.b2z].
  replace (4 * Z.pos m + 2 * 0 + 0) with (4 * Z.pos m) by lia.
  rewrite rne_w_exact. rewrite Z.max_id.
  unfold stage2; cbn [fst snd].
  pose proof (Zdigits2_bounds (Z.pos m) ltac:(lia)) as [_ Hlt].
  assert (Z.pos m < 2 ^ 53).
  { eapply Z.lt_le_trans; [exact Hlt|]. apply Z.pow_le_mono_r; lia. }
  destruct (Z.eqb_spec (Z.pos m) (2 ^ 53)); [lia|].
  unfold mk; cbn [fst snd].
  destruct (Z.leb_spec e (emax - prec)); [reflexivity|]. change (emax - prec) with 971 in *. lia.
Qed.

Lemma finite_is_R m e : bounded prec emax m e = true →
  S754_finite false m e = R_at (-1074) (V (S754_finite false m e)).
Proof.
  intros Hb. destruct (bounded_facts m e Hb) as (He & _).
  cbn [V]. rewrite <- (binary_round_id m e Hb).
  rewrite (binary_round_at (-1074)) by lia.
  now replace (e - -1074) with (e + 1074) by lia.
Qed.

(** ** Non-negative floats *)

Lemma V_nonneg x : 0 ≤ V x.
Proof.
  destruct x as [| | |s m e]; try (cbn; lia).
  destruct s; cbn [V]; [lia|].
  pose proof (Z.pow_nonneg 2 (e + 1074)). lia.
Qed.

Lemma posfin_R x : posfin x → x = R_at E64 (V x).
Proof. intros [|m e Hb]; [reflexivity|now apply finite_is_R]. Qed.

Lemma finadd_V_zero : V (S754_zero true) = 0.
Proof. reflexivity. Qed.

Lemma SFadd_R x c : posfin x → finadd c →
  SFadd prec emax x c = R_at E64 (V x + V c).
Proof.
  intros Hx [Hc| ->].
  - destruct Hx as [|mx ex Hbx], Hc as [|mc ec Hbc].
    + reflexivity.
    + cbn [SFadd V]. rewrite Z.add_0_l. now apply finite_is_R.
    + cbn [SFadd V]. rewrite Z.add_0_r. now apply finite_is_R.
    + cbn [SFadd cond_Zopp].
      destruct (bounded_facts mx ex Hbx) as (Hex & _).
      destruct (bounded_facts mc ec Hbc) as (Hec & _).
      set (ez := Z.min ex ec).
      destruct (shl_align_value mx ex ez ltac:(lia)) as [Hvx _].
      destruct (shl_align_value mc ec ez ltac:(lia)) as [Hvc _].
      change (Z.pos (shl_align mx ex ez).1 + Z.pos (shl_align mc ec ez).1)
        with (Z.pos ((shl_align mx ex ez).1 + (shl_align mc ec ez).1)).
      cbn [binary_normalize].
      rewrite (binary_round_at E64) by lia. f_equal.
      rewrite Pos2Z.inj_add, Hvx, Hvc. cbn [V].
      rewrite Z.mul_add_distr_r, <- !Z.mul_assoc, <- !Z.pow_add_r by lia.
      f_equal; f_equal; f_equal; lia.
  - destruct Hx as [|mx ex Hbx].
    + reflexivity.
    + cbn [SFadd V]. rewrite Z.add_0_r. now apply finite_is_R.
Qed.

Lemma leb_V x y : posfin x → posfin y → SFleb x y = true → V x ≤ V y.
Proof.
  intros [|mx ex Hbx] [|my ey Hby]; cbn [V].
  - lia.
  - intros _. pose proof (Z.pow_nonneg 2 (ey + 1074)). lia.
  - discriminate.
  - unfold SFleb, SFcompare.
    destruct (bounded_facts mx ex Hbx) as (Hex & Hdx & _ & _).
    destruct (bounded_facts my ey Hby) as (Hey & Hdy & _ & Hny).
    destruct (Z.compare_spec ex ey) as [->|Hlt|Hgt]; [| |discriminate].
    + change (PosDef.Pos.compare_cont Eq mx my) with (Pos.compare mx my).
      destruct (Pos.compare_spec mx my); try discriminate; intros _.
      * subst. lia.
      * apply Z.mul_le_mono_nonneg_r; [apply Z.pow_nonneg; lia|lia].
    + intros _.
      pose proof (Zdigits2_bounds (Z.pos mx) ltac:(lia)) as [_ Hhi].
      pose proof (Zdigits2_bounds (Z.pos my) ltac:(lia)) as [Hlo _].
      rewrite (Hny ltac:(lia)) in Hlo. change (53 - 1) with 52 in Hlo.
      assert (Hx : Z.pos mx < 2 ^ 53).
      { eapply Z.lt_le_trans; [exact Hhi|]. apply Z.pow_le_mono_r; lia. }
      transitivity (2 ^ 53 * 2 ^ (ex + 1074)).
      { apply Z.mul_le_mono_nonneg_r; [apply Z.pow_nonneg; lia|lia]. }
      transitivity (2 ^ 52 * 2 ^ (ey + 1074)).
      { rewrite <- !Z.pow_add_r by lia. apply Z.pow_le_mono_r; lia. }
      apply Z.mul_le_mono_nonneg_r; [apply Z.pow_nonneg; lia|lia].
Qed.

Lemma st12_nonneg N l E : 0 ≤ N → 0 ≤ (stage2 (st1 N l E)).1.
Proof. intros. apply stage2_nonneg, st1_bounds. assumption. Qed.

Lemma R_mono E N1 N2 : 0 ≤ N1 ≤ N2 → SFleb (R_at E N1) (R_at E N2) = true.
Proof.
  intros [H1 H12]. unfold R_at. apply mk_le; try (apply st12_nonneg; lia).
  apply round_mono; cbn [code]; lia.
Qed.

Lemma mk_cases p : 0 ≤ p.1 →
  mk false p = S754_zero false
  ∨ (∃ m e, mk false p = S754_finite false m e)
  ∨ mk false p = S754_infinity false.
Proof.
  destruct p as [[|m|m] e]; unfold mk; cbn [fst snd]; [auto| |lia].
  intros _. destruct (e <=? _); eauto.
Qed.

Lemma mk_le_inf p : 0 ≤ p.1 → SFleb (mk false p) (S754_infinity false) = true.
Proof. intros Hp. destruct (mk_cases p Hp) as [->|[(m & e & ->)| ->]]; reflexivity. Qed.

Lemma zero_le_mk s p : 0 ≤ p.1 → SFleb (S754_zero s) (mk false p) = true.
Proof. intros Hp. destruct (mk_cases p Hp) as [->|[(m & e & ->)| ->]]; reflexivity. Qed.

Lemma mk_posext p : 0 ≤ p.1 → valid64 (mk false p) = true → posext (mk false p).
Proof.
  intros Hp Hv. destruct (mk_cases p Hp) as [->|[(m & e & Heq)| ->]].
  - left; constructor.
  - rewrite Heq in *. left; now constructor.
  - now right.
Qed.

Lemma R_le_inf E N : 0 ≤ N → SFleb (R_at E N) (S754_infinity false) = true.
Proof. intros. apply mk_le_inf, st12_nonneg. assumption. Qed.

Lemma zero_le_R s E N : 0 ≤ N → SFleb (S754_zero s) (R_at E N) = true.
Proof. intros. apply zero_le_mk, st12_nonneg. assumption. Qed.

Lemma R_posext E N : 0 ≤ N → valid64 (R_at E N) = true → posext (R_at E N).
Proof. intros. apply mk_posext; [apply st12_nonneg|]; assumption. Qed.

(** ** Addition *)

Lemma SFadd_inf_l c : addend c → SFadd prec emax (S754_infinity false) c = S754_infinity false.
Proof. intros [[[]| ->]| ->]; reflexivity. Qed.

Lemma SFadd_inf_r x : posext x → SFadd prec emax x (S754_infinity false) = S754_infinity false.
Proof. intros [[]| ->]; reflexivity. Qed.

Lemma posext_le_inf x : posext x → SFleb x (S754_infinity false) = true.
Proof. intros [[]| ->]; reflexivity. Qed.

Lemma inf_le_posext x : posext x → SFleb (S754_infinity false) x = true → x = S754_infinity false.
Proof. intros [[]| ->]; cbn; try discriminate; reflexivity. Qed.

Lemma SFadd_mono a b c : posext a → posext b → addend c →
  SFleb a b = true → SFleb (SFadd prec emax a c) (SFadd prec emax b c) = true.
Proof.
  intros Ha Hb [Hc| ->] Hab.
  - destruct Ha as [Ha| ->].
    + destruct Hb as [Hb| ->].
      * rewrite !SFadd_R by assumption. apply R_mono.
        pose proof (V_nonneg a). pose proof (V_nonneg c).
        pose proof (leb_V a b Ha Hb Hab). lia.
      * rewrite SFadd_R by assumption. rewrite SFadd_inf_l by now left.
        apply R_le_inf. pose proof (V_nonneg a). pose proof (V_nonneg c). lia.
    + rewrite (inf_le_posext b Hb Hab). rewrite !SFadd_inf_l by now left. reflexivity.
  - rewrite !SFadd_inf_r by assumption. reflexivity.
Qed.

Lemma SFadd_ge a b c : posext a → posext b → addend c →
  SFleb a b = true → SFleb a (SFadd prec emax b c) = true.
Proof.
  intros Ha Hb [Hc| ->] Hab.
  - destruct Ha as [Ha| ->].
    + destruct Hb as [Hb| ->].
      * rewrite SFadd_R by assumption. rewrite (posfin_R a Ha) at 1. apply R_mono.
        pose proof (V_nonneg a). pose proof (V_nonneg c).
        pose proof (leb_V a b Ha Hb Hab). lia.
      * rewrite SFadd_inf_l by now left. apply posext_le_inf. now left.
    + rewrite (inf_le_posext b Hb Hab). rewrite SFadd_inf_l by now left. reflexivity.
  - rewrite SFadd_inf_r by assumption. now apply posext_le_inf.
Qed.

Lemma SFadd_posext a c : posext a → addend c →
  valid64 (SFadd prec emax a c) = true → posext (SFadd prec emax a c).
Proof.
  intros [Ha| ->] [Hc| ->] Hv.
  - rewrite SFadd_R in * by assumption. apply R_posext; [|assumption].
    pose proof (V_nonneg a). pose proof (V_nonneg c). lia.
  - rewrite SFadd_inf_r by now left. now right.
  - rewrite SFadd_inf_l by now left. now right.
  - now right.
Qed.

(** ** Comparing valid finite floats *)

Lemma leb_finite_facts ma ea mb eb :
  bounded prec emax ma ea = true → bounded prec emax mb eb = true →
  SFleb (S754_finite false ma ea) (S754_finite false mb eb) = true →
  ea ≤ eb
  ∧ Z.pos ma ≤ Z.pos mb * 2 ^ (eb - ea)
  ∧ Zdigits2 (Z.pos ma) + ea ≤ Zdigits2 (Z.pos mb) + eb.
Proof.
  intros Hba Hbb Hle.
  pose proof (leb_V _ _ (posfin_num _ _ Hba) (posfin_num _ _ Hbb) Hle) as HV. cbn [V] in HV.
  destruct (bounded_facts ma ea Hba) as (Hea & Hda & _ & _).
  destruct (bounded_facts mb eb Hbb) as (Heb & Hdb & _ & Hnb).
  assert (He : ea ≤ eb).
  { unfold SFleb, SFcompare in Hle.
    destruct (Z.compare_spec ea eb); [lia|lia|discriminate]. }
  split; [exact He|]. split.
  - replace (eb + 1074) with ((eb - ea) + (ea + 1074)) in HV by lia.
    rewrite (Z.pow_add_r 2 (eb - ea) (ea + 1074)), Z.mul_assoc in HV by lia.
    apply Z.mul_le_mono_pos_r in HV; [exact HV|]. apply Z.pow_pos_nonneg; lia.
  - destruct (Z.eq_dec ea eb) as [Heq|Hne].
    + assert (Z.pos ma ≤ Z.pos mb).
      { rewrite Heq in HV.
        apply Z.mul_le_mono_pos_r in HV; [lia|apply Z.pow_pos_nonneg; lia]. }
      pose proof (Zdigits2_mono (Z.pos ma) (Z.pos mb) ltac:(lia)). lia.
    + rewrite (Hnb ltac:(lia)). lia.
Qed.

Lemma one_at e' : e' ≤ -52 →
  binary_round_aux prec emax false (2 ^ (- e')) e' loc_Exact = one64.
Proof.
  intros He. rewrite binary_round_aux_eq by (apply Z.pow_nonneg; lia).
  replace (2 ^ (- e')) with (2 ^ 52 * 2 ^ (-52 - e'))
    by (rewrite <- Z.pow_add_r by lia; f_equal; lia).
  replace e' with (-52 - (-52 - e')) at 2 by lia.
  rewrite st1_shift; [reflexivity|lia|lia|reflexivity].
Qed.

(** ** Division *)

Lemma new_location_zero n : new_location n 0 = loc_Exact.
Proof. unfold new_location. destruct (Z.even n); reflexivity. Qed.

Lemma SFdiv_le_one ma ea mb eb :
  bounded prec emax ma ea = true → bounded prec emax mb eb = true →
  SFleb (S754_finite false ma ea) (S754_finite false mb eb) = true →
  let q := SFdiv prec emax (S754_finite false ma ea) (S754_finite false mb eb) in
  SFleb (S754_zero false) q = true ∧ SFleb q one64 = true.
Proof.
  intros Hba Hbb Hle.
  destruct (leb_finite_facts _ _ _ _ Hba Hbb Hle) as (He & Hm & Hd).
  cbn [SFdiv xorb]. unfold SFdiv_core_binary.
  set (e' := Z.min (fexp64 (Zdigits2 (Z.pos ma) + ea - (Zdigits2 (Z.pos mb) + eb))) (ea - eb)).
  assert (He' : e' ≤ -53) by (unfold e'; rewrite fexp_eq; lia).
  set (s := ea - eb - e').
  assert (Hs : 0 ≤ s) by (unfold s, e'; lia).
  set (m' := match s with Z.pos _ => Z.shiftl (Z.pos ma) s | 0 => Z.pos ma | Z.neg _ => 0 end).
  assert (Hm' : m' = Z.pos ma * 2 ^ s).
  { unfold m'. destruct s as [|p|p] eqn:Es; [rewrite Z.pow_0_r; lia| |lia].
    now rewrite Z.shiftl_mul_pow2 by lia. }
  assert (Hm'pos : 0 ≤ m') by (rewrite Hm'; apply Z.mul_nonneg_nonneg; [lia|apply Z.pow_nonneg; lia]).
  pose proof (Z_div_mod m' (Z.pos mb) ltac:(lia)) as Hdm.
  destruct (Z.div_eucl m' (Z.pos mb)) as [q r]. destruct Hdm as [Hqr Hr].
  assert (Hq : 0 ≤ q) by nia.
  assert (Hbound : m' ≤ Z.pos mb * 2 ^ (- e')).
  { rewrite Hm'. replace (- e') with ((eb - ea) + s) by (unfold s; lia).
    rewrite Z.pow_add_r, Z.mul_assoc by lia.
    apply Z.mul_le_mono_nonneg_r; [apply Z.pow_nonneg; lia|exact Hm]. }
  set (K := 2 ^ (- e')) in *.
  assert (HK : 0 < K) by (apply Z.pow_pos_nonneg; lia).
  assert (Hw : 4 * q + code (new_location (Z.pos mb) r) ≤ 4 * K + code loc_Exact).
  { pose proof (code_range (new_location (Z.pos mb) r)). cbn [code].
    destruct (Z.eq_dec r 0) as [->|Hr0].
    - rewrite new_location_zero. cbn [code]. nia.
    - assert (q < K) by nia. lia. }
  split.
  - rewrite binary_round_aux_eq by assumption. apply zero_le_mk, st12_nonneg, Hq.
  - rewrite <- (one_at e') by lia. fold K.
    apply binary_round_aux_mono; [assumption|lia|exact Hw].
Qed.

(** ** Multiplication by 100 *)

Lemma SFmul_hundred_le mq eq :
  bounded prec emax mq eq = true →
  SFleb (S754_finite false mq eq) one64 = true →
  let p := SFmul prec emax (S754_finite false mq eq) hundred64 in
  SFleb (S754_zero false) p = true ∧ SFleb p hundred64 = true.
Proof.
  intros Hb Hle.
  assert (Hb1 : bounded prec emax 4503599627370496 (-52) = true) by reflexivity.
  destruct (leb_finite_facts _ _ _ _ Hb Hb1 Hle) as (He & Hm & _).
  change (SFmul prec emax (S754_finite false mq eq) hundred64)
    with (binary_round_aux prec emax false (Z.pos (mq * 7036874417766400)) (eq + -46)
            loc_Exact).
  cbv zeta. split.
  - rewrite binary_round_aux_eq by lia. apply zero_le_mk, st12_nonneg. lia.
  - assert (H100 : hundred64
                   = mk false (stage2 (st1 (4503599627370496 * 7036874417766400
                                            * 2 ^ (-52 - eq)) loc_Exact (eq + -46)))).
    { replace (eq + -46) with ((-52 + -46) - (-52 - eq)) by lia.
      rewrite st1_shift; [reflexivity|lia|lia|vm_compute; discriminate]. }
    rewrite H100. rewrite binary_round_aux_eq by lia.
    assert (Hpos : 0 ≤ 4503599627370496 * 7036874417766400 * 2 ^ (-52 - eq))
      by (apply Z.mul_nonneg_nonneg; [lia|apply Z.pow_nonneg; lia]).
    apply mk_le.
    + apply st12_nonneg; lia.
    + apply st12_nonneg; exact Hpos.
    + apply round_mono; [lia|exact Hpos|].
      cbn [code]. rewrite Pos2Z.inj_mul. nia.
Qed.

(** ** Primitive floats *)

Lemma nonneg_addend x : nonneg x → addend (Prim2SF x).
Proof.
  unfold nonneg. rewrite leb_spec. change (Prim2SF 0) with (S754_zero false).
  pose proof (Prim2SF_valid x) as Hv.
  destruct (Prim2SF x) as [[]|[]| |[] m e]; cbn; try discriminate; intros _.
  - left; now right.
  - left; left; constructor.
  - now right.
  - left; left; now constructor.
Qed.

Lemma acc_zero : acc 0%float.
Proof. left. constructor. Qed.

Lemma acc_add a c : acc a → nonneg c → acc (a + c)%float.
Proof.
  intros Ha Hc%nonneg_addend. unfold acc.
  pose proof (Prim2SF_valid (a + c)) as Hv. rewrite add_spec in *.
  now apply SFadd_posext.
Qed.

Lemma float_add_mono a b c : acc a → acc b → nonneg c →
  (a <=? b)%float = true → (a + c <=? b + c)%float = true.
Proof.
  intros Ha Hb Hc%nonneg_addend. rewrite !leb_spec, !add_spec. now apply SFadd_mono.
Qed.

Lemma float_add_ge a b c : acc a → acc b → nonneg c →
  (a <=? b)%float = true → (a <=? b + c)%float = true.
Proof.
  intros Ha Hb Hc%nonneg_addend. rewrite !leb_spec, !add_spec. now apply SFadd_ge.
Qed.

Lemma float_leb_refl_acc a : acc a → (a <=? a)%float = true.
Proof. rewrite leb_spec. intros [[|m e Hb]| ->]; try reflexivity.
  unfold SFleb, SFcompare. rewrite Z.compare_refl.
  change (PosDef.Pos.compare_cont Eq m m) with (Pos.compare m m).
  now rewrite Pos.compare_refl.
Qed.

Lemma percent_bounds tg tt :
  acc tg → acc tt → (tg <=? tt)%float = true →
  is_finite tt = true → (0 <? tt)%float = true →
  (0 <=? tg / tt * 100)%float = true ∧ (tg / tt * 100 <=? 100)%float = true.
Proof.
  intros Hg Ht Hle Hfin Hpos.
  rewrite !leb_spec, !mul_spec, !div_spec.
  change (Prim2SF 0) with (S754_zero false). change (Prim2SF 100) with hundred64.
  rewrite leb_spec in Hle. rewrite ltb_spec in Hpos.
  change (Prim2SF 0) with (S754_zero false) in Hpos.
  pose proof (Prim2SF_valid (tg / tt)) as Hvq. rewrite div_spec in Hvq.
  unfold acc in *.
  unfold is_finite, is_nan, is_infinity in Hfin.
  rewrite !FloatAxioms.eqb_spec, abs_spec in Hfin.
  destruct Ht as [Ht|Ht]; [|rewrite Ht in Hfin; discriminate].
  destruct Ht as [|mt et Hbt]; [discriminate|].
  destruct Hg as [Hg|Hg]; [|rewrite Hg in Hle; discriminate].
  destruct Hg as [|mg eg Hbg].
  - split; reflexivity.
  - destruct (SFdiv_le_one mg eg mt et Hbg Hbt Hle) as [Hq0 Hq1].
    unfold SF64mul, SF64div in *.
    destruct (SFdiv prec emax (S754_finite false mg eg) (S754_finite false mt et))
      as [[]|[]| |[] mq eq]; try discriminate; try (split; reflexivity).
    now apply SFmul_hundred_le.
Qed.

End binary64_rounding.

(** * The cost model *)

Section cost_model_facts.
Context `{Builtins}.

(** C1.  For every edge attribute map and every preference vector,
    [_get_edge_cost] returns exactly what the specification's algorithm
    returns: [t] and [n] read with defaults 1.0 and 0.0, the base cost [n]
    when [w_noise == 1.0] and the blend otherwise, times 0.7 on a green
    edge under [prefer_parks], then times 2.0 on a junction edge under
    [avoid_junctions], and 1e-9 in place of a zero result when [t > 0] or
    [n > 0]; a value that [float()] rejects raises the same error in
    both. *)
Theorem get_edge_cost_is_spec_edge_cost (self : RoutingEngine) (u v : node) (d : attrs) :
  _get_edge_cost self u v d = spec.edge_cost u v d (spec.preferences_of self).
Proof.
  unfold _get_edge_cost, spec.edge_cost.
  destruct (as_float (get d "time_cost_norm" (VFloat 1))) as [t|e]; [|reflexivity].
  destruct (as_float (get d "noise_cost_norm" (VFloat 0))) as [n|e]; [|reflexivity].
  cbn [rbind].
  unfold spec.epsilon_floor, spec.junction_penalty, spec.park_discount, spec.blend,
    spec.preferences_of; cbn.
  now destruct (_ && _ : bool).
Qed.

(** X1.  The epsilon floor: whatever the preferences are, the cost of an
    edge is never zero when one of its normalized costs is positive. *)
Lemma edge_cost_nonzero (self : RoutingEngine) (u v : node) (d : attrs) (t n c : float) :
  as_float (get d "time_cost_norm" (VFloat 1)) = Ok t →
  as_float (get d "noise_cost_norm" (VFloat 0)) = Ok n →
  (0 <? t)%float || (0 <? n)%float = true →
  _get_edge_cost self u v d = Ok c →
  (c =? 0)%float = false.
Proof.
  intros Ht Hn Hpos. unfold _get_edge_cost. rewrite Ht, Hn; cbn [rbind]. cbv zeta.
  rewrite Hpos, andb_true_r.
  match goal with |- context [if (?b =? 0)%float then _ else _] =>
    destruct (b =? 0)%float eqn:Hb end.
  - now intros [= <-].
  - now intros [= <-].
Qed.

End cost_model_facts.

(** Called by the search on a multigraph, the cost method is handed the
    keyed dictionary of the step, finds none of the attributes it looks
    up and falls back on its defaults: here 0.3 * 1.0 + 0.7 * 0.0,
    whatever the parallel edges carry. *)
Example blended_weight_on_a_multigraph :
  networkx.edge_weight
    (bound_get_edge_cost (samples.engine_with samples.empty_graph 0.3 0.7 true true)) 1 2
    [ (0, samples.edge_attrs 0.9 0.1 (VBool true) (VBool true));
      (1, samples.edge_attrs 0.2 0.8 (VBool false) (VBool false)) ]
  = Ok (0.3 * 1 + 0.7 * 0)%float.
Proof. reflexivity. Qed.

(** The truthiness table of the specification's test list. *)
Example is_truthy_table :
  map _is_truthy [VBool true; VInt 1; VFloat 1; VStr "true"; VStr "Yes"; VStr "T"]
    = [true; true; true; true; true; true]
  ∧ map _is_truthy [VBool false; VInt 0; VStr "false"; VStr ""; VNone; VStr "maybe"]
    = [false; false; false; false; false; false].
Proof. split; reflexivity. Qed.

(** Speed only, on a plain edge: the cost is [time_cost_norm]. *)
Example speed_only_cost :
  _get_edge_cost (samples.engine_with samples.empty_graph 1 0 false false) 1 2
    (samples.edge_attrs 0.25 0.75 (VBool false) (VBool false)) = Ok 0.25%float.
Proof. reflexivity. Qed.

(** Attributes read back from GraphML as strings are converted on read. *)
Example cost_of_string_attributes :
  _get_edge_cost (samples.engine_with samples.empty_graph 0.5 0.5 true false) 1 2
    (<["time_cost_norm" := VStr "0.5"]> (<["noise_cost_norm" := VStr "1.0"]>
       (<["green_cover" := VStr "True"]> ∅))) = Ok (0.75 * 0.7)%float.
Proof. reflexivity. Qed.

(** The counterexample to C5 as stated: in pure peace the cost is not
    always [noise_cost_norm].  An edge with [noise_cost_norm = 0] and
    [time_cost_norm = 0.5] costs 1e-9, a green edge with
    [noise_cost_norm = 0.5] costs 0.35 under [prefer_parks], and a
    junction edge with [noise_cost_norm = 0.5] costs 1.0 under
    [avoid_junctions]. *)
Lemma peace_cost_differs_from_noise :
  w_noise (samples.engine_with samples.empty_graph 0 1 false false) = 1%float
  ∧ _get_edge_cost (samples.engine_with samples.empty_graph 0 1 false false) 1 2
      (samples.edge_attrs 0.5 0 (VBool false) (VBool false)) = Ok 1e-9%float
  ∧ (1e-9 =? 0)%float = false
  ∧ _get_edge_cost (samples.engine_with samples.empty_graph 0 1 true false) 1 2
      (samples.edge_attrs 0.5 0.5 (VBool true) (VBool false)) = Ok 0.35%float
  ∧ (0.35 =? 0.5)%float = false
  ∧ _get_edge_cost (samples.engine_with samples.empty_graph 0 1 false true) 1 2
      (samples.edge_attrs 0.5 0.5 (VBool false) (VBool true)) = Ok 1%float
  ∧ (1 =? 0.5)%float = false.
Proof. repeat split; reflexivity. Qed.

Section peace_mode.
Context `{Builtins}.

(** C5, amended.  For every edge and every preference vector with
    [w_noise = 1.0] exactly, the cost does not depend on [w_time]: it is
    [noise_cost_norm], times 0.7 on a green edge under [prefer_parks],
    times 2.0 on a junction edge under [avoid_junctions], and 1e-9 when
    that product is zero while [time_cost_norm > 0] or
    [noise_cost_norm > 0].  It is exactly [noise_cost_norm] when neither
    modifier applies and not ([noise_cost_norm == 0] and
    [time_cost_norm > 0]). *)
Theorem peace_mode_cost (self : RoutingEngine) (u v : node) (d : attrs) (t n : float) :
  w_noise self = 1%float →
  as_float (get d "time_cost_norm" (VFloat 1)) = Ok t →
  as_float (get d "noise_cost_norm" (VFloat 0)) = Ok n →
  _get_edge_cost self u v d
    = Ok (spec.epsilon_floor t n
            (spec.junction_penalty (spec.preferences_of self) d
               (spec.park_discount (spec.preferences_of self) d n)))
  ∧ (∀ w : float,
       _get_edge_cost (Engine (G self) (graph_crs self) (graph_init_crs self) w
                              (w_noise self) (prefer_parks self) (avoid_junctions self))
                      u v d
       = _get_edge_cost self u v d)
  ∧ (prefer_parks self && _is_truthy (get_none d "green_cover") = false →
     avoid_junctions self && _is_truthy (get_none d "is_junction") = false →
     (n =? 0)%float && (0 <? t)%float = false →
     _get_edge_cost self u v d = Ok n).
Proof.
  intros Hw Ht Hn.
  assert (Hcost : ∀ s, w_noise s = 1%float → prefer_parks s = prefer_parks self →
            avoid_junctions s = avoid_junctions self →
            _get_edge_cost s u v d
            = Ok (spec.epsilon_floor t n
                    (spec.junction_penalty (spec.preferences_of self) d
                       (spec.park_discount (spec.preferences_of self) d n)))).
  { intros s Hs Hp Hj. unfold _get_edge_cost. rewrite Ht, Hn. cbn [rbind].
    rewrite Hs, Hp, Hj.
    unfold spec.epsilon_floor, spec.junction_penalty, spec.park_discount; cbn.
    now destruct (_ && _ : bool). }
  split; [now apply Hcost|]. split.
  - intros w. rewrite (Hcost self) by done. now apply Hcost.
  - intros Hp Hj Hfloor. rewrite (Hcost self) by done.
    unfold spec.epsilon_floor, spec.junction_penalty, spec.park_discount; cbn.
    rewrite Hp, Hj.
    destruct (n =? 0)%float eqn:En; [|reflexivity].
    rewrite (float_zero_not_pos n En). cbn in Hfloor |- *.
    now rewrite Hfloor.
Qed.

End peace_mode.

(** [peace_mode_cost] at a plain edge with [noise_cost_norm = 0.25]
    and at a green junction edge. *)
Lemma peace_mode_cost_witness :
  _get_edge_cost (samples.engine_with samples.empty_graph 0.3 1 true true) 1 2
    (samples.edge_attrs 0.5 0.25 (VBool false) (VInt 0)) = Ok 0.25%float.
Proof.
  apply (peace_mode_cost (samples.engine_with samples.empty_graph 0.3 1 true true) 1 2
           (samples.edge_attrs 0.5 0.25 (VBool false) (VInt 0)) 0.5 0.25);
    reflexivity.
Defined.

(** * The planner *)

(** Splits on the outcome of the next external call of a method body. *)
Ltac next_call :=
  match goal with
  | |- context [match ?r with Ok _ => _ | Raise _ => _ end] =>
      let E := fresh "Hcall" in destruct r eqn:E; cbn
  | |- context [match ?o with Some _ => _ | None => _ end] =>
      let E := fresh "Hloc" in destruct o eqn:E; cbn
  end.

Ltac run_method :=
  unfold bind, call, lift, self, ret, raise; cbn; repeat next_call.

Section planner_facts.
Context `{Builtins} `{Collaborators}.

(** [find_route] assigns to no field of the engine, only appends to the
    log, and searches with the weight the policy selects for the
    resolved hour. *)
Lemma find_route_frame start_address end_address selected_hour (w : world) :
  engine (find_route start_address end_address selected_hour w).2 = engine w
  ∧ ∃ evs, logged start_address end_address selected_hour w evs
      ∧ ∀ s t wf, In (AStar s t wf) evs →
          wf = select_weight (engine w) (resolve_hour selected_hour now_hour).
Proof.
  unfold logged, find_route.
  destruct (falsy start_address || falsy end_address).
  { split; [reflexivity|]. exists []. split; [now rewrite app_nil_r|]. intros ? ? ? []. }
  run_method; (split; [reflexivity|]); rewrite <- ?app_assoc; cbn;
    (eexists; split; [reflexivity|]); intros s t wf Hin; cbn in Hin;
    intuition (try discriminate; try congruence).
Qed.

Lemma find_route_engine start_address end_address selected_hour (w : world) :
  engine (find_route start_address end_address selected_hour w).2 = engine w.
Proof. apply find_route_frame. Qed.

(** A result comes with a path that the search returned for the selected
    weight, and its analytics are those of that path. *)
Lemma find_route_result start_address end_address selected_hour (w : world) res w' :
  find_route start_address end_address selected_hour w = (Ok res, w') →
  ∃ s t path_nodes,
    let h := resolve_hour selected_hour now_hour in
    astar_path (G (engine w)) s t (select_weight (engine w) h) = Ok path_nodes
    ∧ In (AStar s t (select_weight (engine w) h)) (log w')
    ∧ analyze_path (G (engine w)) (is_quiet_hours h) path_nodes = Ok (analytics res).
Proof.
  unfold find_route.
  destruct (falsy start_address || falsy end_address); [discriminate|].
  run_method; intros [= <- <-]; cbn.
  eexists _, _, _. split; [eassumption|]. split; [|assumption].
  rewrite !in_app_iff; cbn. tauto.
Qed.

End planner_facts.

(** ** The time-of-day policy *)

Section policy.
Context `{Builtins} `{Collaborators}.

Lemma is_quiet_hours_quiet h : is_quiet_hours h = true ↔ spec.quiet h.
Proof. unfold is_quiet_hours, spec.quiet. lia. Qed.

(** Once the two addresses are located and snapped to nodes, a query
    runs exactly one search, from the start node to the end node with
    the weight the policy selects, and its outcome is that search's: its
    exception, or the analytics of the path it returned. *)
Lemma find_route_search (w : world) (sa ea : string) (selected_hour : option Z)
    (start_loc end_loc : Location) (sp ep : float * float) (sn en : node) :
  let this := engine w in
  let h := resolve_hour selected_hour now_hour in
  sa ≠ ""%string → ea ≠ ""%string →
  geocode sa = Ok (Some start_loc) →
  geocode ea = Ok (Some end_loc) →
  project_geometry (longitude start_loc) (latitude start_loc)
                   (graph_init_crs this) (graph_crs this) = Ok sp →
  project_geometry (longitude end_loc) (latitude end_loc)
                   (graph_init_crs this) (graph_crs this) = Ok ep →
  nearest_nodes (G this) sp.1 sp.2 = Ok sn →
  nearest_nodes (G this) ep.1 ep.2 = Ok en →
  (∃ rest,
     logged (Some sa) (Some ea) selected_hour w
       ([ Geocode sa; Geocode ea;
          Project (longitude start_loc) (latitude start_loc);
          Project (longitude end_loc) (latitude end_loc);
          NearestNodes sp.1 sp.2; NearestNodes ep.1 ep.2;
          AStar sn en (select_weight this h) ] ++ rest)
     ∧ ∀ s t wf, ¬ In (AStar s t wf) rest)
  ∧ (∀ e, astar_path (G this) sn en (select_weight this h) = Raise e →
       (find_route (Some sa) (Some ea) selected_hour w).1 = Raise e)
  ∧ (∀ res, (find_route (Some sa) (Some ea) selected_hour w).1 = Ok res →
       ∃ path_nodes,
         astar_path (G this) sn en (select_weight this h) = Ok path_nodes
         ∧ analyze_path (G this) (is_quiet_hours h) path_nodes = Ok (analytics res)).
Proof.
  intros this h Hsa Hea Hgs Hge Hps Hpe Hns Hne.
  unfold logged, find_route. cbn.
  apply String.eqb_neq in Hsa, Hea. rewrite Hsa, Hea. cbn.
  unfold bind, call, lift, self, ret; cbn.
  rewrite Hgs, Hge; cbn. fold this. rewrite Hps, Hpe; cbn.
  rewrite Hns, Hne; cbn. fold h.
  destruct (astar_path (G this) sn en (select_weight this h)) as [path_nodes|e] eqn:Hp; cbn.
  2:{ split; [|split; [now intros ? [= <-]|discriminate]].
      exists []. rewrite <- !app_assoc. split; [reflexivity|]. intros s t wf []. }
  destruct (analyze_path (G this) (is_quiet_hours h) path_nodes) as [a|e] eqn:Ha; cbn.
  2:{ split; [|split; discriminate].
      exists []. rewrite <- !app_assoc. split; [reflexivity|]. intros s t wf []. }
  assert (Hrest : ∃ rest,
            ((((((((log w ++ [Geocode sa]) ++ [Geocode ea])
                 ++ [Project (longitude start_loc) (latitude start_loc)])
                ++ [Project (longitude end_loc) (latitude end_loc)])
               ++ [NearestNodes sp.1 sp.2]) ++ [NearestNodes ep.1 ep.2])
              ++ [AStar sn en (select_weight this h)]) ++ [RouteToGdf path_nodes])
            = log w
              ++ [ Geocode sa; Geocode ea;
                   Project (longitude start_loc) (latitude start_loc);
                   Project (longitude end_loc) (latitude end_loc);
                   NearestNodes sp.1 sp.2; NearestNodes ep.1 ep.2;
                   AStar sn en (select_weight this h) ] ++ rest
            ∧ ∀ s t wf, ¬ In (AStar s t wf) rest).
  { exists [RouteToGdf path_nodes]. rewrite <- !app_assoc. split; [reflexivity|].
    intros s t wf [|[]]; discriminate. }
  destruct (route_to_gdf (G this) path_nodes "length") as [gdf|e]; cbn.
  2:{ split; [exact Hrest|split; discriminate]. }
  destruct (to_crs gdf (graph_init_crs this)) as [gdf'|e]; cbn.
  2:{ split; [exact Hrest|split; discriminate]. }
  split; [exact Hrest|]. split; [discriminate|].
  intros res [= <-]. exists path_nodes. split; [reflexivity|exact Ha].
Qed.

(** C2.  Whatever the hour is resolved from (the caller's or the clock's)
    and whatever the preferences are, every search [find_route] starts
    gets the weight [select_weight] chooses for that hour.  And it does
    start one: once the two addresses are located and snapped to nodes,
    the query calls the search exactly once, from the start node to the
    end node with that weight, and the query's outcome is the search's,
    its exception or the analytics of the path it returned.  The weight
    is the raw ['time_cost'] attribute in a quiet hour, and in a normal
    hour when [w_time >= 0.70]; it is the bound [_get_edge_cost] in a
    normal hour when [w_time < 0.70], and in no case other than a normal
    hour without [w_time >= 0.70] (which, for a [w_time] that is a
    number, is [w_time < 0.70]). *)
Theorem weight_policy (w : world) (start_address end_address : option string)
    (selected_hour : option Z) (h : Z) :
  h = resolve_hour selected_hour now_hour →
  0 ≤ h ≤ 23 →
  (∃ evs, logged start_address end_address selected_hour w evs
     ∧ ∀ s t wf, In (AStar s t wf) evs → wf = select_weight (engine w) h)
  ∧ (∀ sa ea start_loc end_loc sp ep sn en,
       start_address = Some sa → end_address = Some ea →
       sa ≠ ""%string → ea ≠ ""%string →
       geocode sa = Ok (Some start_loc) →
       geocode ea = Ok (Some end_loc) →
       project_geometry (longitude start_loc) (latitude start_loc)
                        (graph_init_crs (engine w)) (graph_crs (engine w)) = Ok sp →
       project_geometry (longitude end_loc) (latitude end_loc)
                        (graph_init_crs (engine w)) (graph_crs (engine w)) = Ok ep →
       nearest_nodes (G (engine w)) sp.1 sp.2 = Ok sn →
       nearest_nodes (G (engine w)) ep.1 ep.2 = Ok en →
       (∃ rest,
          logged start_address end_address selected_hour w
            ([ Geocode sa; Geocode ea;
               Project (longitude start_loc) (latitude start_loc);
               Project (longitude end_loc) (latitude end_loc);
               NearestNodes sp.1 sp.2; NearestNodes ep.1 ep.2;
               AStar sn en (select_weight (engine w) h) ] ++ rest)
          ∧ ∀ s t wf, ¬ In (AStar s t wf) rest)
       ∧ (∀ e, astar_path (G (engine w)) sn en (select_weight (engine w) h) = Raise e →
            (find_route start_address end_address selected_hour w).1 = Raise e)
       ∧ (∀ res, (find_route start_address end_address selected_hour w).1 = Ok res →
            ∃ path_nodes,
              astar_path (G (engine w)) sn en (select_weight (engine w) h) = Ok path_nodes
              ∧ analyze_path (G (engine w)) (is_quiet_hours h) path_nodes
                = Ok (analytics res)))
  ∧ (spec.quiet h → select_weight (engine w) h = attribute "time_cost")
  ∧ (¬ spec.quiet h → (0.70 <=? w_time (engine w))%float = true →
     select_weight (engine w) h = attribute "time_cost")
  ∧ (¬ spec.quiet h → (w_time (engine w) <? 0.70)%float = true →
     select_weight (engine w) h = bound_get_edge_cost (engine w))
  ∧ (select_weight (engine w) h = bound_get_edge_cost (engine w) →
     ¬ spec.quiet h ∧ (0.70 <=? w_time (engine w))%float = false)
  ∧ (is_nan (w_time (engine w)) = false →
     select_weight (engine w) h = bound_get_edge_cost (engine w) →
     (w_time (engine w) <? 0.70)%float = true).
Proof.
  intros -> _. set (h := resolve_hour selected_hour now_hour).
  split; [apply find_route_frame|].
  split.
  { intros sa ea start_loc end_loc sp ep sn en -> ->. apply find_route_search. }
  unfold select_weight. pose proof (is_quiet_hours_quiet h) as Hq.
  destruct (is_quiet_hours h).
  - assert (spec.quiet h) by now apply Hq.
    repeat split; try done.
  - assert (¬ spec.quiet h) by (intros Q; apply Hq in Q; discriminate).
    repeat split; try done.
    + intros _ ->. reflexivity.
    + intros _ L%float_ltb_not_leb. now rewrite L.
    + destruct (0.70 <=? _)%float; done.
    + intros Hnan. destruct (0.70 <=? _)%float eqn:L; [done|]. intros _.
      now apply float_not_leb_ltb.
Qed.

End policy.

(** [weight_policy] at 13 o'clock from the clock with [w_time = 0.3]:
    the query from Times Square to Bryant Park starts one search, from
    node 1 to node 2, with the bound cost function. *)
Lemma weight_policy_witness :
  (∃ evs, logged (Some "Times Square") (Some "Bryant Park") None
            (samples.world_of (samples.engine_with samples.row_graph 0.3 0.7 false false)) evs
     ∧ ∀ s t wf, In (AStar s t wf) evs →
         wf = select_weight (samples.engine_with samples.row_graph 0.3 0.7 false false) 13)
  ∧ (∃ rest, logged (Some "Times Square") (Some "Bryant Park") None
               (samples.world_of (samples.engine_with samples.row_graph 0.3 0.7 false false))
               ([ Geocode "Times Square"; Geocode "Bryant Park";
                  Project (-73.985) 40.758; Project (-73.984) 40.754;
                  NearestNodes (-73.985) 40.758; NearestNodes (-73.984) 40.754;
                  AStar 1 2 (bound_get_edge_cost
                               (samples.engine_with samples.row_graph 0.3 0.7 false false)) ]
                ++ rest)
       ∧ ∀ s t wf, ¬ In (AStar s t wf) rest)
  ∧ select_weight (samples.engine_with samples.row_graph 0.3 0.7 false false) 13
    = bound_get_edge_cost (samples.engine_with samples.row_graph 0.3 0.7 false false).
Proof.
  pose proof (weight_policy
                (samples.world_of (samples.engine_with samples.row_graph 0.3 0.7 false false))
                (Some "Times Square") (Some "Bryant Park") None 13 eq_refl
                ltac:(lia)) as (Hlog & Hsearch & _ & _ & Hblend & _).
  split; [exact Hlog|]. split.
  - refine (proj1 (Hsearch "Times Square"%string "Bryant Park"%string
                     {| latitude := 40.758; longitude := -73.985 |}
                     {| latitude := 40.754; longitude := -73.984 |}
                     (-73.985, 40.758)%float (-73.984, 40.754)%float 1 2
                     eq_refl eq_refl _ _ eq_refl eq_refl eq_refl eq_refl eq_refl eq_refl));
      discriminate.
  - apply Hblend; [unfold spec.quiet; lia|reflexivity].
Defined.

(** The hours of the specification's test list, and the three branches
    of the policy at work. *)
Example quiet_hours_table :
  map is_quiet_hours [3; 9; 10; 16; 20; 23] = [true; false; true; true; false; true].
Proof. reflexivity. Qed.

Example policy_examples :
  select_weight (samples.engine_with samples.row_graph 0.3 0.7 false false) 3
    = attribute "time_cost"
  ∧ select_weight (samples.engine_with samples.row_graph 0.9 0.1 false false) 13
    = attribute "time_cost"
  ∧ select_weight (samples.engine_with samples.row_graph 0.7 0.3 false false) 13
    = attribute "time_cost"
  ∧ select_weight (samples.engine_with samples.row_graph 0.3 0.7 false false) 13
    = bound_get_edge_cost (samples.engine_with samples.row_graph 0.3 0.7 false false).
Proof. repeat split; reflexivity. Qed.

(** A search from the sample world: the log shows the calls in order,
    the search among them with the selected weight. *)
Example find_route_log_example :
  log (find_route (Some "Times Square") (Some "Grand Central") (Some 3)
         (samples.world_of (samples.engine_with samples.row_graph 0.3 0.7 false false))).2
  = [ Geocode "Times Square"; Geocode "Grand Central";
      Project (-73.985) 40.758; Project (-73.977) 40.753;
      NearestNodes (-73.985) 40.758; NearestNodes (-73.977) 40.753;
      AStar 1 3 (attribute "time_cost"); RouteToGdf [1; 2; 3] ].
Proof. reflexivity. Qed.

(** ** Failing queries and the engine's state *)

Section failures.
Context `{Builtins} `{Collaborators}.

(** C8.  A call of [find_route] whose start or end address is [None] or
    empty raises [ValueError] with the world as it was: nothing was
    called.  A call whose addresses are both given and for which the
    geocoder returns no location for one of them raises [ValueError]
    after the two geocoder calls and nothing else: no search ran.  And
    every call, failing or not, leaves the engine (the graph and the
    four preferences) as it found it. *)
Theorem input_errors_abort_before_search (w : world)
    (start_address end_address : option string) (selected_hour : option Z) :
  (falsy start_address = true ∨ falsy end_address = true →
   find_route start_address end_address selected_hour w
   = (Raise (ValueError "Start and end addresses are required."), w))
  ∧ (∀ sa ea start_loc end_loc,
       start_address = Some sa → end_address = Some ea → sa ≠ ""%string → ea ≠ ""%string →
       geocode sa = Ok start_loc → geocode ea = Ok end_loc →
       start_loc = None ∨ end_loc = None →
       find_route start_address end_address selected_hour w
       = (Raise (ValueError "Could not geocode one or both addresses."),
          World (engine w) (log w ++ [Geocode sa; Geocode ea])))
  ∧ engine (find_route start_address end_address selected_hour w).2 = engine w
  ∧ G (engine (find_route start_address end_address selected_hour w).2) = G (engine w)
  ∧ spec.preferences_of (engine (find_route start_address end_address selected_hour w).2)
    = spec.preferences_of (engine w).
Proof.
  split; [|split].
  - intros Hfalsy. unfold find_route.
    destruct Hfalsy as [-> | ->]; rewrite ?orb_true_r; reflexivity.
  - intros sa ea start_loc end_loc -> -> Hsa Hea Hs He Hnone. unfold find_route. cbn.
    apply String.eqb_neq in Hsa, Hea. rewrite Hsa, Hea. cbn.
    unfold bind, call, raise; cbn. rewrite Hs, He; cbn.
    rewrite <- app_assoc.
    destruct Hnone as [-> | ->]; [reflexivity|]. now destruct start_loc.
  - rewrite find_route_engine. done.
Qed.

(** C10.  [set_preferences] checks nothing: for any two floats and any
    two flags it returns normally with exactly these four values in the
    engine's fields, the graph, the reference systems and the log
    untouched.  The values stay in place through every later query,
    failing or not, and every search of a later query is started with the
    weight the policy selects from them. *)
Theorem set_preferences_stores_verbatim (w : world) (wt wn : float) (parks junctions : bool) :
  let w1 := (set_preferences wt wn parks junctions w).2 in
  (set_preferences wt wn parks junctions w).1 = Ok tt
  ∧ engine w1
    = Engine (G (engine w)) (graph_crs (engine w)) (graph_init_crs (engine w))
             wt wn parks junctions
  ∧ log w1 = log w
  ∧ ∀ (qs : list query),
      engine (run_queries qs w1) = engine w1
      ∧ ∀ q evs,
          logged (query_start q) (query_end q) (query_hour q) (run_queries qs w1) evs →
          ∀ s t wf, In (AStar s t wf) evs →
            wf = select_weight
                   (Engine (G (engine w)) (graph_crs (engine w)) (graph_init_crs (engine w))
                           wt wn parks junctions)
                   (resolve_hour (query_hour q) now_hour).
Proof.
  cbn. split; [reflexivity|]. split; [reflexivity|]. split; [reflexivity|].
  set (w1 := World _ _).
  assert (Hkeep : ∀ qs w0, engine (run_queries qs w0) = engine w0).
  { induction qs as [|q qs IH]; intros w0; cbn; [reflexivity|].
    rewrite IH. apply find_route_engine. }
  intros qs. split; [apply Hkeep|].
  intros q evs Hlog s t wf Hin.
  destruct (find_route_frame (query_start q) (query_end q) (query_hour q)
              (run_queries qs w1)) as (_ & evs' & Hlog' & Hw).
  unfold logged in Hlog, Hlog'. rewrite Hlog in Hlog'.
  apply app_inv_head in Hlog'. subst evs'.
  rewrite (Hw s t wf Hin), Hkeep. reflexivity.
Qed.

End failures.

(** ** Path analytics *)

Section analytics_facts.
Context `{Builtins} `{Collaborators}.

(** The loop adds each reading to the running totals, in path order. *)
Lemma analyze_loop_totals (G0 : MultiDiGraph) (mult : float) edges rs :
  Forall2 (spec.reads G0) edges rs →
  ∀ acc,
    analyze_loop G0 mult edges acc
    = Ok (Totals
            (fold_left PrimFloat.add (map spec.raw_time rs) (total_time_sec acc))
            (fold_left PrimFloat.add
               (map (λ r, spec.raw_noise r * mult)%float rs) (total_noise_weighted acc))
            (fold_left PrimFloat.add (map spec.raw_length rs) (total_length_m acc))
            (fold_left PrimFloat.add
               (map spec.raw_time (List.filter spec.near_park rs)) (time_in_green acc))).
Proof.
  induction 1 as [|[u v] r edges rs (ed & Hed & Ht & Hn & Hl & Hg) _ IH]; intros acc.
  - now destruct acc.
  - cbn [analyze_loop]. unfold analyze_edge. cbn in Hed.
    rewrite Hed; cbn [rbind]. rewrite Ht, Hn, Hl; cbn [rbind]. rewrite Hg.
    rewrite IH. cbn. now destruct (spec.near_park r).
Qed.

(** The guarded divisions never divide by zero. *)
Lemma format_analytics_ok (t : totals) :
  format_analytics t
  = Ok {| time := total_time_sec t;
          distance := total_length_m t;
          avg_noise :=
            if (0 <? total_length_m t)%float
            then (total_noise_weighted t / total_length_m t)%float else 0%float;
          green_percent :=
            if (0 <? total_time_sec t)%float
            then (time_in_green t / total_time_sec t * 100)%float else 0%float |}.
Proof.
  unfold format_analytics, truediv.
  destruct (0 <? total_length_m t)%float eqn:Hl;
    [rewrite (float_pos_nonzero _ Hl)|];
    (destruct (0 <? total_time_sec t)%float eqn:Ht;
       [rewrite (float_pos_nonzero _ Ht)|]); reflexivity.
Qed.

(** C3.  For a path whose steps can be read, the analytics record is
    produced, and in it: [time] is the sum of the raw [time_cost]
    values, [distance] the sum of the raw [length] values; [avg_noise]
    is the sum of the raw [noise_cost] values, each times 0.7 in a quiet
    hour and times 1.0 otherwise, divided by [distance] when that is
    positive, and 0 otherwise, so 0 when [distance == 0];
    [green_percent] is 100 times the quotient of the green edges'
    [time_cost] sum by [time] when that is positive, and 0 otherwise, so
    0 when [time == 0].  The record [find_route] returns is the one of
    the path the search returned.  The factor 0.7 is not in what the
    search minimizes: in a quiet hour a step weighs the least raw
    [time_cost] of its parallel edges, and in a normal hour the factor
    is 1.0. *)
Theorem analytics_of_route (w : world) (start_address end_address : option string)
    (selected_hour : option Z) (path_nodes : list node) (rs : list spec.reading) :
  let current_hour := resolve_hour selected_hour now_hour in
  let is_quiet := is_quiet_hours current_hour in
  Forall2 (spec.reads (G (engine w))) (path_edges path_nodes) rs →
  (∃ a, analyze_path (G (engine w)) is_quiet path_nodes = Ok a
     ∧ time a = spec.total_time rs
     ∧ distance a = spec.total_distance rs
     ∧ avg_noise a
       = (if (0 <? distance a)%float
          then (spec.total_noise_weighted is_quiet rs / distance a)%float else 0%float)
     ∧ ((distance a =? 0)%float = true → avg_noise a = 0%float)
     ∧ green_percent a
       = (if (0 <? time a)%float
          then (100 * (spec.time_in_green rs / time a))%float else 0%float)
     ∧ ((time a =? 0)%float = true → green_percent a = 0%float))
  ∧ (∀ res w',
       find_route start_address end_address selected_hour w = (Ok res, w') →
       ∃ s t p,
         astar_path (G (engine w)) s t (select_weight (engine w) current_hour) = Ok p
         ∧ analyze_path (G (engine w)) is_quiet p = Ok (analytics res))
  ∧ (is_quiet = true →
     ∀ u v d,
       networkx.edge_weight (select_weight (engine w) current_hour) u v d
       = networkx.min_attribute "time_cost" d)
  ∧ (is_quiet = false → spec.noise_scale is_quiet = 1%float).
Proof.
  intros current_hour is_quiet Hreads. split; [|split; [|split]].
  - unfold analyze_path.
    rewrite (analyze_loop_totals _ _ _ _ Hreads). cbn [rbind].
    rewrite format_analytics_ok. cbn.
    eexists. split; [reflexivity|]. cbn.
    fold (spec.total (map spec.raw_time rs)) (spec.total (map spec.raw_length rs)).
    repeat split.
    + intros Hz. now rewrite (float_zero_not_pos _ Hz).
    + now rewrite (float_mul_comm 100).
    + intros Hz. now rewrite (float_zero_not_pos _ Hz).
  - intros res w' Hres.
    destruct (find_route_result _ _ _ _ _ _ Hres) as (s & t & p & Hp & _ & Ha).
    now exists s, t, p.
  - intros Hq u v d. unfold select_weight. fold current_hour. fold is_quiet.
    now rewrite Hq.
  - now intros ->.
Qed.

End analytics_facts.

(** [analytics_of_route] on the three corners at 3 o'clock: 60 s along
    the park, 30 s along the main road. *)
Lemma analytics_of_route_witness :
  ∃ a, analyze_path samples.row_graph true [1; 2; 3] = Ok a
    ∧ time a = 90%float
    ∧ distance a = 200%float
    ∧ avg_noise a = ((0 + 300 * 0.7 + 500 * 0.7) / 200)%float
    ∧ green_percent a = (100 * (60 / 90))%float.
Proof.
  destruct (analytics_of_route
              (samples.world_of (samples.engine_with samples.row_graph 0.3 0.7 false false))
              (Some "Times Square") (Some "Grand Central") (Some 3) [1; 2; 3]
              [spec.Reading 60 300 100 true; spec.Reading 30 500 100 false])
    as ((a & Ha & Ht & Hd & Hn & _ & Hg & _) & _).
  - repeat constructor.
    + exists (samples.raw_attrs 60 300 100 (VBool true)). repeat split; reflexivity.
    + exists (samples.raw_attrs 30 500 100 (VBool false)). repeat split; reflexivity.
  - exists a. rewrite Hn, Hg, Hd, Ht. repeat split; try exact Ha; reflexivity.
Defined.

(** The same path in a normal hour: the noise is not scaled. *)
Example analytics_normal_hour :
  analyze_path samples.row_graph false [1; 2; 3]
  = Ok {| time := 90; distance := 200; avg_noise := 4;
          green_percent := (60 / 90 * 100)%float |}.
Proof. reflexivity. Qed.

(** C4, at the failing input.  Two parallel streets join corner 1 to
    corner 2: key 0 takes 100 s over 1000 m away from parks, key 1 takes
    10 s over 100 m along a park.  At 3 o'clock the search weighs the
    step by ['time_cost'], that is by 10 s, which is the value of key 1
    and not of key 0; the analytics of the returned path [[1; 2]] are
    those of key 0: 100 s, 1000 m, no green time. *)
Lemma analytics_read_key_0_not_the_searched_edge :
  select_weight (samples.engine_with samples.parallel_graph 0.3 0.7 false false) 3
    = attribute "time_cost"
  ∧ get_edge_data samples.parallel_graph 1 2
    = Some [ (0, samples.raw_attrs 100 3000 1000 (VBool false));
             (1, samples.raw_attrs 10 300 100 (VBool true)) ]
  ∧ networkx.edge_weight (attribute "time_cost") 1 2
      [ (0, samples.raw_attrs 100 3000 1000 (VBool false));
        (1, samples.raw_attrs 10 300 100 (VBool true)) ] = Ok 10%float
  ∧ networkx.number (get (samples.raw_attrs 100 3000 1000 (VBool false)) "time_cost" (VInt 1))
    = Ok 100%float
  ∧ networkx.number (get (samples.raw_attrs 10 300 100 (VBool true)) "time_cost" (VInt 1))
    = Ok 10%float
  ∧ ∃ res,
      (find_route (Some "Times Square") (Some "Bryant Park") (Some 3)
         (samples.world_of
            (samples.engine_with samples.parallel_graph 0.3 0.7 false false))).1 = Ok res
      ∧ time (analytics res) = 100%float
      ∧ distance (analytics res) = 1000%float
      ∧ green_percent (analytics res) = 0%float.
Proof.
  repeat split; try reflexivity.
  eexists. repeat split; reflexivity.
Qed.

(** C9, at the failing input.  A street along a park with an infinite
    [time_cost] (its speed is zero) is the only way from corner 1 to
    corner 2.  Its [time_cost] is not negative, and the query returns a
    record whose [green_percent] is NaN: infinity over infinity.  It is
    not between 0 and 100. *)
Lemma green_percent_nan_on_infinite_time :
  as_float (get (samples.raw_attrs infinity 300 100 (VBool true)) "time_cost" (VFloat 0))
    = Ok infinity
  ∧ (0 <=? infinity)%float = true
  ∧ ∃ res,
      (find_route (Some "Times Square") (Some "Bryant Park") (Some 13)
         (samples.world_of
            (samples.engine_with samples.closed_street_graph 0.3 0.7 false false))).1 = Ok res
      ∧ time (analytics res) = infinity
      ∧ green_percent (analytics res) = nan
      ∧ (0 <=? green_percent (analytics res))%float = false
      ∧ (green_percent (analytics res) <=? 100)%float = false.
Proof.
  repeat split; try reflexivity.
  eexists. repeat split; reflexivity.
Qed.

(** [input_errors_abort_before_search] at an empty start address and at
    an address the geocoder does not know. *)
Lemma input_errors_abort_before_search_witness :
  find_route (Some "") (Some "Bryant Park") None
    (samples.world_of (samples.engine_with samples.row_graph 0.3 0.7 true false))
  = (Raise (ValueError "Start and end addresses are required."),
     samples.world_of (samples.engine_with samples.row_graph 0.3 0.7 true false))
  ∧ find_route (Some "Times Square") (Some "Atlantis") None
      (samples.world_of (samples.engine_with samples.row_graph 0.3 0.7 true false))
    = (Raise (ValueError "Could not geocode one or both addresses."),
       World (samples.engine_with samples.row_graph 0.3 0.7 true false)
             [Geocode "Times Square"; Geocode "Atlantis"]).
Proof.
  split.
  - apply (input_errors_abort_before_search
             (samples.world_of (samples.engine_with samples.row_graph 0.3 0.7 true false))
             (Some "") (Some "Bryant Park") None).
    left. reflexivity.
  - apply (input_errors_abort_before_search
             (samples.world_of (samples.engine_with samples.row_graph 0.3 0.7 true false))
             (Some "Times Square") (Some "Atlantis") None)
      with (start_loc := Some {| latitude := 40.758; longitude := -73.985 |})
           (end_loc := None);
      try reflexivity; try discriminate.
    right. reflexivity.
Defined.

(** [set_preferences_stores_verbatim] with weights outside [0, 1] that do
    not sum to 1, followed by a failing and a successful query. *)
Lemma set_preferences_stores_verbatim_witness :
  (set_preferences (-2.5) 7 true false
     (samples.world_of (samples.engine_with samples.row_graph 1 0 false false))).1 = Ok tt
  ∧ engine
      (run_queries
         [ Query (Some "Times Square") (Some "Atlantis") None;
           Query (Some "Times Square") (Some "Grand Central") None ]
         (set_preferences (-2.5) 7 true false
            (samples.world_of (samples.engine_with samples.row_graph 1 0 false false))).2)
    = samples.engine_with samples.row_graph (-2.5) 7 true false.
Proof.
  pose proof (set_preferences_stores_verbatim
                (samples.world_of (samples.engine_with samples.row_graph 1 0 false false))
                (-2.5) 7 true false) as (Hok & Hfields & _ & Hlater).
  split; [exact Hok|].
  destruct (Hlater [ Query (Some "Times Square") (Some "Atlantis") None;
                     Query (Some "Times Square") (Some "Grand Central") None ])
    as (Hkeep & _).
  rewrite Hkeep. exact Hfields.
Defined.

(** After these preferences a search in a normal hour is started with the
    bound cost function of an engine that holds them. *)
Example out_of_range_preferences_reach_the_search :
  log (run_queries [Query (Some "Times Square") (Some "Grand Central") None]
         (set_preferences (-2.5) 7 true false
            (samples.world_of (samples.engine_with samples.row_graph 1 0 false false))).2)
  = [ Geocode "Times Square"; Geocode "Grand Central";
      Project (-73.985) 40.758; Project (-73.977) 40.753;
      NearestNodes (-73.985) 40.758; NearestNodes (-73.977) 40.753;
      AStar 1 3 (bound_get_edge_cost (samples.engine_with samples.row_graph (-2.5) 7 true false));
      RouteToGdf [1; 2; 3] ].
Proof. reflexivity. Qed.

(** * The graph passes *)

Section first_pass.
Context `{Builtins}.
Variable junction_nodes : gset node.
Variable meets_park : pyval → bool.

Lemma float_of_int_noise_score (road_type : pyval) :
  float_of_int (graph_processor.noise_score_of road_type)
  = Ok (match graph_processor.noise_score_of road_type with
        | 10 => 10 | 7 => 7 | 3 => 3 | _ => 5
        end)%float.
Proof.
  unfold graph_processor.noise_score_of.
  repeat (destruct (in_strs road_type _)); reflexivity.
Qed.

Lemma noise_score_weight (d : attrs) :
  (match graph_processor.noise_score_of (get d "highway" (VStr "residential")) with
   | 10 => 10 | 7 => 7 | 3 => 3 | _ => 5
   end)%float
  = spec.road_class_weight (d !! "highway"%string).
Proof.
  unfold get, graph_processor.noise_score_of, spec.road_class_weight.
  destruct (d !! "highway"%string) as [[]|]; cbn -[str_in]; try reflexivity.
  repeat (destruct (str_in _ _)); reflexivity.
Qed.

(** C7, amended.  For every edge whose speed and length can be read, the
    first pass succeeds and sets [noise_cost = length * w], where [w] is
    10 for motorway, primary and trunk, 7 for secondary and tertiary, 3
    for residential, living_street and unclassified and also when the
    [highway] attribute is absent, and 5 in every other case. *)
Theorem noise_cost_by_road_class (e : edge) (speed_kmh length_m : float) :
  as_float (get (data e) "speed_kph" (VInt config.DEFAULT_SPEED)) = Ok speed_kmh →
  as_float (get (data e) "length" (VFloat 0)) = Ok length_m →
  ∃ e', graph_processor.add_custom_costs junction_nodes meets_park e = Ok e'
    ∧ data e' !! "noise_cost"%string
      = Some (VFloat (length_m * spec.road_class_weight (data e !! "highway"%string))).
Proof.
  intros Hs Hl. unfold graph_processor.add_custom_costs.
  rewrite Hs, Hl; cbn [rbind].
  assert (Htime : ∃ c,
    (if (speed_kmh =? 0)%float then Ok infinity
     else let! h := truediv (length_m / 1000) speed_kmh in Ok (h * 3600)%float) = Ok c).
  { unfold truediv. destruct (speed_kmh =? 0)%float; eauto. }
  destruct Htime as [c ->]; cbn [rbind].
  unfold graph_processor.int_mul_float.
  rewrite float_of_int_noise_score; cbn [rbind].
  eexists. split; [reflexivity|]. cbn [data].
  assert (Hlook : ∀ (m : attrs) v, (if bool_decide (src e ∈ junction_nodes)
                               || bool_decide (dst e ∈ junction_nodes)
                          then <["is_junction" := VBool true]> m
                          else <["is_junction" := v]> m) !! "noise_cost"%string
                         = m !! "noise_cost"%string).
  { intros m v. destruct (_ || _); now rewrite lookup_insert_ne. }
  rewrite Hlook.
  rewrite lookup_insert_ne by done. rewrite lookup_insert_ne by done.
  rewrite lookup_insert_eq.
  assert (Hhw : get (<["time_cost" := VFloat c]> (data e)) "highway" (VStr "residential")
                = get (data e) "highway" (VStr "residential")).
  { unfold get. now rewrite lookup_insert_ne. }
  rewrite Hhw, noise_score_weight. now rewrite float_mul_comm.
Qed.

End first_pass.

(** The counterexample to C7 as stated: an edge of 100 m without a
    [highway] attribute gets [noise_cost = 300], three times its length,
    not five times. *)
Lemma absent_highway_weighs_three :
  data (samples.raw_edge 0 100 None) !! "highway"%string = None
  ∧ (∃ e', graph_processor.add_custom_costs ∅ (λ _, false) (samples.raw_edge 0 100 None) = Ok e'
       ∧ data e' !! "noise_cost"%string = Some (VFloat 300))
  ∧ (100 * 5 =? 300)%float = false.
Proof.
  repeat split; try reflexivity.
  eexists. split; reflexivity.
Qed.

(** [noise_cost_by_road_class] at a primary road of 250 m. *)
Lemma noise_cost_by_road_class_witness :
  ∃ e', graph_processor.add_custom_costs ∅ (λ _, false)
          (samples.raw_edge 0 250 (Some "primary"%string)) = Ok e'
    ∧ data e' !! "noise_cost"%string = Some (VFloat (250 * 10)).
Proof.
  apply (noise_cost_by_road_class ∅ (λ _, false)
           (samples.raw_edge 0 250 (Some "primary"%string)) 30 250); reflexivity.
Defined.

(** The weights of the road classes, one edge of 100 m each. *)
Example noise_cost_table :
  map (λ h, (λ e, data e !! "noise_cost"%string)
              <$> graph_processor.add_custom_costs ∅ (λ _, false) (samples.raw_edge 0 100 h))
      [ Some "motorway"; Some "tertiary"; Some "living_street"; Some "service"; None ]%string
  = [ Ok (Some (VFloat 1000)); Ok (Some (VFloat 700)); Ok (Some (VFloat 300));
      Ok (Some (VFloat 500)); Ok (Some (VFloat 300)) ].
Proof. reflexivity. Qed.

Section second_pass.
Context `{Builtins}.

Import graph_processor.

Lemma rbind_ok {A B} (m : result A) (k : A → result B) b :
  rbind m k = Ok b → ∃ a, m = Ok a ∧ k a = Ok b.
Proof. destruct m; cbn; [eauto|discriminate]. Qed.

Lemma no_zero_division_bind {A B} (m : result A) (k : A → result B) :
  no_zero_division m → (∀ a, m = Ok a → no_zero_division (k a)) →
  no_zero_division (rbind m k).
Proof. destruct m; cbn; [auto|]. intros Hm _. unfold no_zero_division in *. congruence. Qed.

Lemma no_zero_division_ok {A} (a : A) : no_zero_division (Ok a).
Proof. discriminate. Qed.

Lemma no_zero_division_as_float v : no_zero_division (as_float v).
Proof.
  destruct v; cbn; try discriminate.
  - unfold float_of_int. destruct (is_infinity _); discriminate.
  - destruct (float_of_str s); discriminate.
Qed.

Lemma no_zero_division_cost_of k (e : edge) :
  no_zero_division (let! v := getitem (data e) k in as_float v).
Proof.
  apply no_zero_division_bind.
  - unfold getitem. destruct (_ !! _); discriminate.
  - intros; apply no_zero_division_as_float.
Qed.

Lemma no_zero_division_for_each {A B} (f : A → result B) xs :
  (∀ x, no_zero_division (f x)) → no_zero_division (for_each f xs).
Proof.
  intros Hf. induction xs as [|x xs IH]; cbn; [discriminate|].
  apply no_zero_division_bind; [apply Hf|]. intros y _.
  apply no_zero_division_bind; [apply IH|]. discriminate.
Qed.

Lemma no_zero_division_min l : no_zero_division (min_ l).
Proof. destruct l; discriminate. Qed.

Lemma no_zero_division_max l : no_zero_division (max_ l).
Proof. destruct l; discriminate. Qed.

(** The denominator is positive or 1.0: never zero. *)
Lemma range_of_nonzero lo hi : (range_of lo hi =? 0)%float = false.
Proof.
  unfold range_of. destruct (0 <? hi - lo)%float eqn:Hpos.
  - now apply float_pos_nonzero.
  - reflexivity.
Qed.

Lemma truediv_range x lo hi :
  truediv x (range_of lo hi) = Ok (x / range_of lo hi)%float.
Proof. unfold truediv. now rewrite range_of_nonzero. Qed.

Lemma normalize_edge_ok lo hi nlo nhi (e : edge) t n :
  time_cost_of e = Ok t → noise_cost_of e = Ok n →
  normalize_edge lo (range_of lo hi) nlo (range_of nlo nhi) e
  = Ok (spec.with_norms e (spec.time_norm lo hi t) (spec.rescale nlo nhi n)).
Proof.
  intros Ht Hn. unfold normalize_edge. rewrite Ht, Hn; cbn [rbind].
  rewrite !truediv_range. unfold spec.time_norm.
  destruct (t =? infinity)%float; reflexivity.
Qed.

Lemma for_each_ok_cons {A B} (f : A → result B) x xs ys :
  for_each f (x :: xs) = Ok ys →
  ∃ y ys', ys = y :: ys' ∧ f x = Ok y ∧ for_each f xs = Ok ys'.
Proof.
  cbn. intros (y & Hy & Hrest)%rbind_ok. apply rbind_ok in Hrest as (ys' & Hys & [= <-]).
  eauto.
Qed.

Lemma for_each_ok_nil {A B} (f : A → result B) ys : for_each f [] = Ok ys → ys = [].
Proof. now intros [= <-]. Qed.

Lemma times_of_not_inf es ts :
  for_each time_cost_of es = Ok ts → times_of es = Ok (spec.not_inf ts).
Proof.
  revert ts. induction es as [|e es IH]; intros ts Hts.
  - apply for_each_ok_nil in Hts as ->. reflexivity.
  - apply for_each_ok_cons in Hts as (t & ts' & -> & Ht & Hts').
    cbn [times_of]. rewrite Ht; cbn [rbind]. rewrite (IH _ Hts'); cbn [rbind].
    unfold spec.not_inf; cbn. now destruct (t =? infinity)%float.
Qed.

Lemma second_loop_ok lo hi nlo nhi es ts ns :
  for_each time_cost_of es = Ok ts →
  for_each noise_cost_of es = Ok ns →
  for_each (normalize_edge lo (range_of lo hi) nlo (range_of nlo nhi)) es
  = Ok (spec.with_norms_all es (map (spec.time_norm lo hi) ts)
          (map (spec.rescale nlo nhi) ns)).
Proof.
  revert ts ns. induction es as [|e es IH]; intros ts ns Hts Hns.
  - reflexivity.
  - apply for_each_ok_cons in Hts as (t & ts' & -> & Ht & Hts').
    apply for_each_ok_cons in Hns as (n & ns' & -> & Hn & Hns').
    cbn [for_each]. rewrite (normalize_edge_ok _ _ _ _ _ _ _ Ht Hn); cbn [rbind].
    rewrite (IH _ _ Hts' Hns'); reflexivity.
Qed.

(** The extrema of a list that repeats one value. *)
Lemma fold_constant (f : float → float → float) c l :
  (f c c = c) → Forall (eq c) l → fold_left f l c = c.
Proof.
  intros Hf. induction 1 as [|x l <- _ IH]; cbn; [reflexivity|]. now rewrite Hf.
Qed.

Lemma min_constant c l lo : Forall (eq c) l → min_ l = Ok lo → lo = c.
Proof.
  destruct l as [|x l]; [discriminate|]. intros Hall [= <-].
  apply Forall_cons in Hall as [<- Hall].
  apply fold_constant; [|assumption]. now destruct (c <? c)%float.
Qed.

Lemma max_constant c l hi : Forall (eq c) l → max_ l = Ok hi → hi = c.
Proof.
  destruct l as [|x l]; [discriminate|]. intros Hall [= <-].
  apply Forall_cons in Hall as [<- Hall].
  apply fold_constant; [|assumption]. now destruct (c <? c)%float.
Qed.

(** Rescaling a finite value within a range that is that value alone
    gives 0.0. *)
Lemma rescale_constant c : is_finite c = true → spec.rescale c c c = 0%float.
Proof.
  intros Hc. unfold spec.rescale. rewrite (float_sub_diag c Hc). reflexivity.
Qed.

(** C6, amended.  When every edge's [time_cost] and [noise_cost] can be
    read and some [time_cost] is not infinite, normalization succeeds
    and sets [time_cost_norm] to 1.0 on the edges with infinite
    [time_cost] and to [(time_cost - min) / (max - min)] on the others,
    [min] and [max] taken over the values that are not infinite, with
    denominator 1.0 in place of a range that is not positive;
    [noise_cost_norm] is rescaled the same way over all [noise_cost]
    values, without the infinite case.  Normalization never raises
    [ZeroDivisionError].  In a graph whose not-infinite [time_cost]
    values all equal one finite value, every edge with a not-infinite
    [time_cost] gets [time_cost_norm = 0.0] and every edge with an
    infinite one gets 1.0; likewise all-equal finite [noise_cost] values
    give [noise_cost_norm = 0.0] on every edge. *)
Theorem normalization_rescales (es : list edge) (ts ns : list float) (lo hi nlo nhi : float) :
  for_each time_cost_of es = Ok ts →
  for_each noise_cost_of es = Ok ns →
  min_ (spec.not_inf ts) = Ok lo → max_ (spec.not_inf ts) = Ok hi →
  min_ ns = Ok nlo → max_ ns = Ok nhi →
  normalize_costs es
  = Ok (spec.with_norms_all es (map (spec.time_norm lo hi) ts)
          (map (spec.rescale nlo nhi) ns))
  ∧ (∀ es', no_zero_division (normalize_costs es'))
  ∧ (∀ c, is_finite c = true → Forall (eq c) (spec.not_inf ts) →
       Forall (λ t, spec.time_norm lo hi t
                    = if (t =? infinity)%float then 1%float else 0%float) ts)
  ∧ (∀ c, is_finite c = true → Forall (eq c) ns →
       Forall (λ n, spec.rescale nlo nhi n = 0%float) ns).
Proof.
  intros Hts Hns Hlo Hhi Hnlo Hnhi. split; [|split; [|split]].
  - unfold normalize_costs, noises_of.
    rewrite (times_of_not_inf _ _ Hts), Hns; cbn [rbind].
    rewrite Hlo, Hhi, Hnlo, Hnhi; cbn [rbind].
    now apply second_loop_ok.
  - intros es'. unfold normalize_costs.
    apply no_zero_division_bind.
    { clear. induction es' as [|e es' IH]; cbn; [discriminate|].
      apply no_zero_division_bind; [apply no_zero_division_cost_of|]. intros t _.
      apply no_zero_division_bind; [apply IH|]. discriminate. }
    intros times _. apply no_zero_division_bind.
    { apply no_zero_division_for_each. intros e. apply no_zero_division_cost_of. }
    intros noises _.
    apply no_zero_division_bind; [apply no_zero_division_min|]. intros min_time _.
    apply no_zero_division_bind; [apply no_zero_division_max|]. intros max_time _.
    apply no_zero_division_bind; [apply no_zero_division_min|]. intros min_noise _.
    apply no_zero_division_bind; [apply no_zero_division_max|]. intros max_noise _.
    apply no_zero_division_for_each. intros e. unfold normalize_edge.
    apply no_zero_division_bind; [apply no_zero_division_cost_of|]. intros t _.
    apply no_zero_division_bind; [apply no_zero_division_cost_of|]. intros n _.
    rewrite !truediv_range. destruct (t =? infinity)%float; discriminate.
  - intros c Hc Hall.
    rewrite (min_constant c _ _ Hall Hlo), (max_constant c _ _ Hall Hhi).
    clear -Hc Hall. induction ts as [|t ts IH]; constructor.
    + unfold spec.time_norm. destruct (t =? infinity)%float eqn:Ht; [reflexivity|].
      unfold spec.not_inf in Hall. cbn in Hall. rewrite Ht in Hall. cbn in Hall.
      apply Forall_cons in Hall as [<- _]. now apply rescale_constant.
    + apply IH. unfold spec.not_inf in *. cbn in Hall.
      destruct (negb _) in Hall; [now apply Forall_cons in Hall as [_ ?]|assumption].
  - intros c Hc Hall.
    rewrite (min_constant c _ _ Hall Hnlo), (max_constant c _ _ Hall Hnhi).
    eapply Forall_impl; [exact Hall|]. intros n <-. now apply rescale_constant.
Qed.

End second_pass.

(** The counterexample to C6 as stated: the not-infinite [time_cost]
    values of these three edges are all 5, and the third edge, whose
    [time_cost] is infinite, gets [time_cost_norm = 1.0], not 0.0.  And
    a graph whose only edge is closed has no [time_cost] that is not
    infinite: there [min] raises and no edge gets a norm. *)
Lemma infinite_edge_keeps_norm_one :
  for_each graph_processor.time_cost_of samples.equal_times
    = Ok [5; 5; infinity]%float
  ∧ spec.not_inf [5; 5; infinity]%float = [5; 5]%float
  ∧ spec.column "time_cost_norm" <$> graph_processor.normalize_costs samples.equal_times
    = Ok [VFloat 0; VFloat 0; VFloat 1]
  ∧ (1 =? 0)%float = false
  ∧ spec.not_inf [infinity] = []
  ∧ graph_processor.normalize_costs [samples.costed_edge 0 infinity 300]
    = Raise (ValueError "min() arg is an empty sequence").
Proof. repeat split; reflexivity. Qed.

(** [normalization_rescales] on the same three edges. *)
Lemma normalization_rescales_witness :
  graph_processor.normalize_costs samples.equal_times
  = Ok (spec.with_norms_all samples.equal_times [0; 0; 1]%float [0; 0; 1]%float)
  ∧ Forall (λ t, spec.time_norm 5 5 t = if (t =? infinity)%float then 1%float else 0%float)
      [5; 5; infinity]%float.
Proof.
  destruct (normalization_rescales samples.equal_times
              [5; 5; infinity]%float [300; 300; 700]%float 5 5 300 700)
    as (Hnorm & _ & Hequal & _); try reflexivity.
  split; [exact Hnorm|].
  apply (Hequal 5%float); [reflexivity|]. repeat constructor.
Defined.

(** All-equal times without a closed street: every edge gets 0.0. *)
Example all_equal_times_norm :
  spec.column "time_cost_norm"
    <$> graph_processor.normalize_costs [samples.costed_edge 0 5 300; samples.costed_edge 1 5 700]
  = Ok [VFloat 0; VFloat 0].
Proof. reflexivity. Qed.

(** ** The green share of a finite total *)

Section green_share.
Context `{Builtins}.

(** Along the loop the green time stays at most the total time. *)
Lemma green_totals_ordered (rs : list spec.reading) :
  Forall (λ r, binary64.nonneg (spec.raw_time r)) rs →
  ∀ tg tt,
    binary64.acc tg → binary64.acc tt → (tg <=? tt)%float = true →
    binary64.acc
      (fold_left PrimFloat.add (map spec.raw_time (List.filter spec.near_park rs)) tg)
    ∧ binary64.acc (fold_left PrimFloat.add (map spec.raw_time rs) tt)
    ∧ (fold_left PrimFloat.add (map spec.raw_time (List.filter spec.near_park rs)) tg
       <=? fold_left PrimFloat.add (map spec.raw_time rs) tt)%float = true.
Proof.
  induction 1 as [|r rs Hr _ IH]; intros tg tt Hg Ht Hle; cbn [List.filter map fold_left].
  - auto.
  - destruct (spec.near_park r); cbn [map fold_left].
    + apply IH.
      * now apply acc_add.
      * now apply acc_add.
      * now apply float_add_mono.
    + apply IH.
      * assumption.
      * now apply acc_add.
      * now apply float_add_ge.
Qed.

(** X2.  The green share of a finite total is a percentage: for a path whose
    steps can be read, whose [time_cost] values are not negative and
    whose total time is finite, the record is produced and its
    [green_percent] lies between 0 and 100, roundings included. *)
Theorem green_percent_in_range_for_finite_total (G0 : MultiDiGraph) (is_quiet : bool)
    (path_nodes : list node) (rs : list spec.reading) :
  Forall2 (spec.reads G0) (path_edges path_nodes) rs →
  Forall (λ r, (0 <=? spec.raw_time r)%float = true) rs →
  is_finite (spec.total_time rs) = true →
  ∃ a, analyze_path G0 is_quiet path_nodes = Ok a
    ∧ (0 <=? green_percent a)%float = true
    ∧ (green_percent a <=? 100)%float = true.
Proof.
  intros Hreads Hnn Hfin. unfold analyze_path.
  rewrite (analyze_loop_totals _ _ _ _ Hreads). cbn [rbind].
  rewrite format_analytics_ok. eexists. split; [reflexivity|]. cbn.
  fold (spec.total (map spec.raw_time rs)). fold (spec.total_time rs).
  destruct (0 <? spec.total_time rs)%float eqn:Hpos; [|split; reflexivity].
  destruct (green_totals_ordered rs Hnn 0%float 0%float
              acc_zero acc_zero eq_refl) as (Hg & Ht & Hle).
  now apply percent_bounds.
Qed.

End green_share.

(** [green_percent_in_range_for_finite_total] on the three corners: two
    thirds of the time is green. *)
Lemma green_percent_in_range_for_finite_total_witness :
  ∃ a, analyze_path samples.row_graph true [1; 2; 3] = Ok a
    ∧ (0 <=? green_percent a)%float = true
    ∧ (green_percent a <=? 100)%float = true.
Proof.
  apply (green_percent_in_range_for_finite_total samples.row_graph true [1; 2; 3]
           [spec.Reading 60 300 100 true; spec.Reading 30 500 100 false]).
  - repeat constructor.
    + exists (samples.raw_attrs 60 300 100 (VBool true)). repeat split; reflexivity.
    + exists (samples.raw_attrs 30 500 100 (VBool false)). repeat split; reflexivity.
  - repeat constructor.
  - reflexivity.
Defined.

(** * More binary64 facts: signs, order, subtraction, division *)

Section binary64_signs.

Lemma addend_nonneg x : addend (Prim2SF x) → nonneg x.
Proof.
  unfold nonneg. rewrite leb_spec. change (Prim2SF 0) with (S754_zero false).
  intros [[[|m e Hb]| ->]| ->]; reflexivity.
Qed.

(** A product of two finite numbers that are not negative is not
    negative. *)
Lemma float_mul_nonneg x y :
  nonneg x → nonneg y → is_finite x = true → is_finite y = true → nonneg (x * y)%float.
Proof.
  intros Hx%nonneg_addend Hy%nonneg_addend Hfx%is_finite_view Hfy%is_finite_view.
  unfold nonneg. rewrite leb_spec, mul_spec. change (Prim2SF 0) with (S754_zero false).
  unfold SF64mul.
  destruct Hx as [[[|mx ex Hbx]| Hx]| Hx]; try (rewrite Hx in *; clear Hx);
    try solve [inversion Hfx];
    (destruct Hy as [[[|my ey Hby]| Hy]| Hy]; try (rewrite Hy in *; clear Hy);
     try solve [inversion Hfy]); cbn [SFmul xorb]; try reflexivity.
  rewrite binary_round_aux_eq by lia. apply zero_le_mk, st12_nonneg. lia.
Qed.

(** So is the product of a number that is not negative and a positive
    finite number. *)
Lemma float_scale_nonneg x c :
  nonneg x → (0 <? c)%float = true → is_finite c = true → nonneg (x * c)%float.
Proof.
  intros Hx Hc Hfc%is_finite_view.
  pose proof (nonneg_addend x Hx) as Hax.
  unfold nonneg. rewrite leb_spec, mul_spec. change (Prim2SF 0) with (S754_zero false).
  rewrite ltb_spec in Hc. change (Prim2SF 0) with (S754_zero false) in Hc.
  unfold SF64mul.
  destruct Hfc as [s|s m e]; [destruct s; discriminate|].
  destruct s; [discriminate|].
  destruct Hax as [[[|mx ex Hbx]| ->]| ->]; cbn [SFmul xorb]; try reflexivity.
  rewrite binary_round_aux_eq by lia. apply zero_le_mk, st12_nonneg. lia.
Qed.

(** A sum of two numbers that are not negative is not negative. *)
Lemma float_add_nonneg x y : nonneg x → nonneg y → nonneg (x + y)%float.
Proof.
  intros Hx Hy. pose proof (nonneg_addend x Hx) as Hax.
  destruct Hax as [[Hp|Hz]|Hi].
  - apply addend_nonneg. assert (Ha : acc (x + y)%float) by (apply acc_add; [now left|done]).
    destruct Ha as [Ha|Ha]; [now left; left|now right].
  - apply addend_nonneg. rewrite add_spec, Hz. unfold SF64add.
    destruct (nonneg_addend y Hy) as [[[|my ey Hby]| ->]| ->]; cbn.
    + left; left; constructor.
    + left; left; now constructor.
    + left; now right.
    + now right.
  - apply addend_nonneg. assert (Ha : acc (x + y)%float) by (apply acc_add; [now right|done]).
    destruct Ha as [Ha|Ha]; [now left; left|now right].
Qed.

Lemma float_nonneg_nonzero_pos x : nonneg x → (x =? 0)%float = false → (0 <? x)%float = true.
Proof.
  intros Hx%nonneg_addend. rewrite FloatAxioms.eqb_spec, ltb_spec.
  change (Prim2SF 0) with (S754_zero false).
  destruct Hx as [[[|m e Hb]| ->]| ->]; cbn; congruence.
Qed.

End binary64_signs.

Section binary64_order.

Lemma V_finite_pos m e : bounded prec emax m e = true → 0 < V (S754_finite false m e).
Proof.
  intros Hb. destruct (bounded_facts m e Hb) as (He & _). cbn [V].
  assert (0 < 2 ^ (e + 1074)) by (apply Z.pow_pos_nonneg; lia). lia.
Qed.

Lemma V_leb x y : posfin x → posfin y → V x ≤ V y → SFleb x y = true.
Proof.
  intros Hx Hy Hle. rewrite (posfin_R x Hx), (posfin_R y Hy).
  apply R_mono. split; [apply V_nonneg|exact Hle].
Qed.

(** On finite numbers that are not negative, the order is that of the
    scaled values. *)
Lemma finadd_leb x y : finadd x → finadd y → (SFleb x y = true ↔ V x ≤ V y).
Proof.
  intros [Hx| ->] [Hy| ->].
  - split; [now apply leb_V|now apply V_leb].
  - destruct Hx as [|m e Hb]; cbn [V]; [done|].
    pose proof (V_finite_pos m e Hb) as Hp. cbn [V] in Hp. split; [discriminate|lia].
  - destruct Hy as [|m e Hb]; [done|].
    pose proof (V_finite_pos m e Hb) as Hp. split; [intros _; cbn [V] in *; lia|reflexivity].
  - done.
Qed.

Lemma finadd_not_nan x : finadd x → x ≠ S754_nan.
Proof. intros [[]| ->]; discriminate. Qed.

Lemma finadd_ltb x y : finadd x → finadd y → (SFltb x y = true ↔ V x < V y).
Proof.
  intros Hx Hy. pose proof (finadd_leb y x Hy Hx) as Hle.
  unfold SFltb. unfold SFleb in Hle. rewrite (SFcompare_swap x y) in Hle.
  destruct (SFcompare_total x y (finadd_not_nan x Hx) (finadd_not_nan y Hy)) as [c Hc].
  rewrite Hc in *. destruct c; cbn in Hle.
  - split; [discriminate|]. intros Hlt. assert (V y ≤ V x) by now apply Hle. lia.
  - split; [|reflexivity]. intros _.
    destruct (Z.lt_ge_cases (V x) (V y)); [assumption|].
    assert (false = true) by (apply Hle; lia). discriminate.
  - split; [discriminate|]. intros Hlt. assert (V y ≤ V x) by now apply Hle. lia.
Qed.

(** The difference of two such numbers, the smaller taken from the
    larger, is the rounding of the exact difference, or [-0] when both
    are zero. *)
Lemma SFsub_finadd x y : finadd x → finadd y → V y ≤ V x →
  SFsub prec emax x y = R_at E64 (V x - V y)
  ∨ (SFsub prec emax x y = S754_zero true ∧ V x - V y = 0).
Proof.
  intros [Hx| ->] [Hy| ->] Hle.
  - destruct Hx as [|mx ex Hbx], Hy as [|my ey Hby].
    + left. reflexivity.
    + pose proof (V_finite_pos my ey Hby). cbn [V] in *. lia.
    + left. cbn [SFsub V]. rewrite Z.sub_0_r. now apply finite_is_R.
    + left. cbn [SFsub cond_Zopp].
      destruct (bounded_facts mx ex Hbx) as (Hex & _).
      destruct (bounded_facts my ey Hby) as (Hey & _).
      set (ez := Z.min ex ey).
      destruct (shl_align_value mx ex ez ltac:(lia)) as [Hvx _].
      destruct (shl_align_value my ey ez ltac:(lia)) as [Hvy _].
      assert (HV : V (S754_finite false mx ex) - V (S754_finite false my ey)
                   = (Z.pos (shl_align mx ex ez).1 - Z.pos (shl_align my ey ez).1)
                     * 2 ^ (ez + 1074)).
      { rewrite Hvx, Hvy. cbn [V].
        rewrite Z.mul_sub_distr_r, <- !Z.mul_assoc, <- !Z.pow_add_r by lia.
        f_equal; f_equal; f_equal; lia. }
      rewrite HV.
      assert (Hpow : 0 < 2 ^ (ez + 1074)) by (apply Z.pow_pos_nonneg; lia).
      destruct (Z.pos (shl_align mx ex ez).1 - Z.pos (shl_align my ey ez).1)
        as [|p|p] eqn:Hd.
      * reflexivity.
      * cbn [binary_normalize]. rewrite (binary_round_at E64) by lia.
        now replace (ez - E64) with (ez + 1074) by lia.
      * exfalso. assert (Z.neg p * 2 ^ (ez + 1074) < 0) by nia. lia.
  - left. destruct Hx as [|mx ex Hbx].
    + reflexivity.
    + cbn [SFsub V]. rewrite Z.sub_0_r. now apply finite_is_R.
  - destruct Hy as [|my ey Hby].
    + right. split; reflexivity.
    + pose proof (V_finite_pos my ey Hby). cbn [V] in *. lia.
  - left. reflexivity.
Qed.

End binary64_order.

Section binary64_rescale.

Lemma posext_le_posfin b h : posext b → posfin h → SFleb b h = true → posfin b.
Proof. intros [Hb| ->] Hh Hle; [assumption|]. destruct Hh; discriminate. Qed.

Lemma R_at_V_posfin h : finadd h → posfin (R_at E64 (V h)).
Proof.
  intros [Hh| ->]; [|constructor]. now rewrite <- (posfin_R h Hh).
Qed.

(** The quotient by the range, or by 1.0 when the range is not positive,
    of a number that is at most the range. *)
Lemma SFdiv_range_unit a b : finadd a → finadd b → SFleb a b = true →
  let d := if SFltb (S754_zero false) b then b else one64 in
  SFleb (S754_zero false) (SFdiv prec emax a d) = true
  ∧ SFleb (SFdiv prec emax a d) one64 = true.
Proof.
  intros Ha Hb. cbv zeta.
  destruct Hb as [Hb| ->]; [destruct Hb as [|mb eb Hbb]|];
    (destruct Ha as [Ha| ->]; [destruct Ha as [|ma ea Hba]|]);
    cbn [SFltb SFcompare]; intros Hle;
    try discriminate Hle; try (split; reflexivity).
  now apply SFdiv_le_one.
Qed.

Lemma float_finadd_leb x y : finadd (Prim2SF x) → finadd (Prim2SF y) →
  ((x <=? y)%float = true ↔ V (Prim2SF x) ≤ V (Prim2SF y)).
Proof. intros Hx Hy. rewrite leb_spec. now apply finadd_leb. Qed.

Lemma float_finadd_ltb x y : finadd (Prim2SF x) → finadd (Prim2SF y) →
  ((x <? y)%float = true ↔ V (Prim2SF x) < V (Prim2SF y)).
Proof. intros Hx Hy. rewrite ltb_spec. now apply finadd_ltb. Qed.

(** Min-max rescaling of a value between the bounds gives a number
    between 0 and 1, roundings included. *)
Lemma rescale_bounds lo hi x :
  finadd (Prim2SF lo) → finadd (Prim2SF hi) → finadd (Prim2SF x) →
  V (Prim2SF lo) ≤ V (Prim2SF x) → V (Prim2SF x) ≤ V (Prim2SF hi) →
  (0 <=? spec.rescale lo hi x)%float = true ∧ (spec.rescale lo hi x <=? 1)%float = true.
Proof.
  intros Hlo Hhi Hx Hlx Hxh. unfold spec.rescale.
  pose proof (Prim2SF_valid (x - lo)) as Hva.
  pose proof (Prim2SF_valid (hi - lo)) as Hvb.
  assert (Hd : Prim2SF (if (0 <? hi - lo)%float then (hi - lo)%float else 1%float)
               = if SFltb (S754_zero false) (Prim2SF (hi - lo))
                 then Prim2SF (hi - lo) else one64).
  { rewrite ltb_spec. change (Prim2SF 0) with (S754_zero false).
    now destruct (SFltb _ _). }
  rewrite !leb_spec, div_spec, Hd.
  change (Prim2SF 0) with (S754_zero false). change (Prim2SF 1) with one64.
  rewrite !sub_spec in *. unfold SF64div, SF64sub in *.
  set (a := SFsub prec emax (Prim2SF x) (Prim2SF lo)) in *.
  set (b := SFsub prec emax (Prim2SF hi) (Prim2SF lo)) in *.
  pose proof (V_nonneg (Prim2SF lo)) as Hlo0.
  assert (Hb : finadd b ∧ SFleb (R_at E64 (V (Prim2SF x) - V (Prim2SF lo))) b = true).
  { destruct (SFsub_finadd (Prim2SF hi) (Prim2SF lo) Hhi Hlo ltac:(lia)) as [Hb|[Hb Hz]];
      fold b in Hb.
    - assert (Hle : SFleb b (R_at E64 (V (Prim2SF hi))) = true)
        by (rewrite Hb; apply R_mono; lia).
      assert (Hpe : posext b).
      { rewrite Hb in *. apply R_posext; [lia|assumption]. }
      split; [left; exact (posext_le_posfin _ _ Hpe (R_at_V_posfin _ Hhi) Hle)|].
      rewrite Hb. apply R_mono. lia.
    - split; [now right|]. rewrite Hb.
      replace (V (Prim2SF x) - V (Prim2SF lo)) with 0 by lia. reflexivity. }
  destruct Hb as [Hbf Hab].
  assert (Ha : finadd a ∧ SFleb a b = true).
  { destruct (SFsub_finadd (Prim2SF x) (Prim2SF lo) Hx Hlo Hlx) as [Ha|[Ha Hz]];
      fold a in Ha.
    - rewrite <- Ha in Hab. split; [|exact Hab].
      assert (Hpe : posext a).
      { rewrite Ha in *. apply R_posext; [lia|assumption]. }
      destruct Hpe as [Hpa| Hinf]; [now left|]. rewrite Hinf in Hab. exfalso.
      revert Hab. clear -Hbf. destruct Hbf as [Hbf| ->]; [destruct Hbf|]; discriminate.
    - split; [now right|]. rewrite Ha. destruct Hbf as [[]| ->]; reflexivity. }
  destruct Ha as [Haf Hle].
  exact (SFdiv_range_unit a b Haf Hbf Hle).
Qed.

(** The fold of [min] returns an element at most every element, and the
    fold of [max] one at least every element. *)
Lemma min_fold xs : ∀ x,
  finadd (Prim2SF x) → Forall (λ y, finadd (Prim2SF y)) xs →
  let r := fold_left (λ m y, if (y <? m)%float then y else m) xs x in
  finadd (Prim2SF r)
  ∧ V (Prim2SF r) ≤ V (Prim2SF x)
  ∧ Forall (λ y, V (Prim2SF r) ≤ V (Prim2SF y)) xs.
Proof.
  induction xs as [|y xs IH]; intros x Hx Hxs; cbn [fold_left].
  - split; [assumption|]. split; [lia|constructor].
  - apply Forall_cons in Hxs as [Hy Hxs].
    pose proof (float_finadd_ltb y x Hy Hx) as Hlt.
    destruct (y <? x)%float.
    + destruct (IH y Hy Hxs) as (Hr & Hry & Hall).
      assert (V (Prim2SF y) < V (Prim2SF x)) by now apply Hlt.
      split; [assumption|]. split; [lia|]. constructor; assumption.
    + destruct (IH x Hx Hxs) as (Hr & Hrx & Hall).
      assert (¬ V (Prim2SF y) < V (Prim2SF x)) by (intros ?%Hlt; discriminate).
      split; [assumption|]. split; [lia|]. constructor; [lia|assumption].
Qed.

Lemma max_fold xs : ∀ x,
  finadd (Prim2SF x) → Forall (λ y, finadd (Prim2SF y)) xs →
  let r := fold_left (λ m y, if (m <? y)%float then y else m) xs x in
  finadd (Prim2SF r)
  ∧ V (Prim2SF x) ≤ V (Prim2SF r)
  ∧ Forall (λ y, V (Prim2SF y) ≤ V (Prim2SF r)) xs.
Proof.
  induction xs as [|y xs IH]; intros x Hx Hxs; cbn [fold_left].
  - split; [assumption|]. split; [lia|constructor].
  - apply Forall_cons in Hxs as [Hy Hxs].
    pose proof (float_finadd_ltb x y Hx Hy) as Hlt.
    destruct (x <? y)%float.
    + destruct (IH y Hy Hxs) as (Hr & Hry & Hall).
      assert (V (Prim2SF x) < V (Prim2SF y)) by now apply Hlt.
      split; [assumption|]. split; [lia|]. constructor; assumption.
    + destruct (IH x Hx Hxs) as (Hr & Hrx & Hall).
      assert (¬ V (Prim2SF x) < V (Prim2SF y)) by (intros ?%Hlt; discriminate).
      split; [assumption|]. split; [lia|]. constructor; [lia|assumption].
Qed.

Lemma min_bounds l lo :
  Forall (λ y, finadd (Prim2SF y)) l → min_ l = Ok lo →
  finadd (Prim2SF lo) ∧ Forall (λ y, V (Prim2SF lo) ≤ V (Prim2SF y)) l.
Proof.
  destruct l as [|x xs]; [discriminate|]. intros [Hx Hxs]%Forall_cons [= <-].
  destruct (min_fold xs x Hx Hxs) as (Hr & Hrx & Hall).
  split; [assumption|]. now constructor.
Qed.

Lemma max_bounds l hi :
  Forall (λ y, finadd (Prim2SF y)) l → max_ l = Ok hi →
  finadd (Prim2SF hi) ∧ Forall (λ y, V (Prim2SF y) ≤ V (Prim2SF hi)) l.
Proof.
  destruct l as [|x xs]; [discriminate|]. intros [Hx Hxs]%Forall_cons [= <-].
  destruct (max_fold xs x Hx Hxs) as (Hr & Hrx & Hall).
  split; [assumption|]. now constructor.
Qed.

Lemma nonneg_finite_finadd x : nonneg x → is_finite x = true → finadd (Prim2SF x).
Proof.
  intros [Hx|Hx]%nonneg_addend Hf%is_finite_view; [assumption|].
  rewrite Hx in Hf. inversion Hf.
Qed.

Lemma nonneg_not_inf_finadd x :
  nonneg x → (x =? infinity)%float = false → finadd (Prim2SF x).
Proof.
  intros [Hx|Hx]%nonneg_addend; [done|].
  rewrite FloatAxioms.eqb_spec, Hx. discriminate.
Qed.

End binary64_rescale.

Section binary64_division.

Lemma SFdiv_core_nonneg mx ex my ey :
  0 ≤ (SFdiv_core_binary prec emax (Z.pos mx) ex (Z.pos my) ey).1.1.
Proof.
  unfold SFdiv_core_binary.
  set (e' := Z.min _ _). set (s := ex - ey - e').
  set (m' := match s with Z.pos _ => Z.shiftl (Z.pos mx) s | 0 => Z.pos mx | Z.neg _ => 0 end).
  assert (Hm' : 0 ≤ m').
  { unfold m'. destruct s as [|p|p]; [lia| |lia].
    rewrite Z.shiftl_mul_pow2 by lia. apply Z.mul_nonneg_nonneg; [lia|apply Z.pow_nonneg; lia]. }
  pose proof (Z_div_mod m' (Z.pos my) ltac:(lia)) as Hdm.
  destruct (Z.div_eucl m' (Z.pos my)) as [q r]. destruct Hdm as [Hqr Hr].
  cbn [fst]. nia.
Qed.

(** The quotient of a number that is not negative by a positive finite
    number is not negative. *)
Lemma float_div_nonneg x c :
  nonneg x → (0 <? c)%float = true → is_finite c = true → nonneg (x / c)%float.
Proof.
  intros Hx%nonneg_addend Hc Hfc%is_finite_view.
  unfold nonneg. rewrite leb_spec, div_spec. change (Prim2SF 0) with (S754_zero false).
  rewrite ltb_spec in Hc. change (Prim2SF 0) with (S754_zero false) in Hc.
  unfold SF64div.
  destruct Hfc as [s|s m e]; [destruct s; discriminate|].
  destruct s; [discriminate|].
  destruct Hx as [[[|mx ex Hbx]| ->]| ->]; cbn [SFdiv xorb]; try reflexivity.
  pose proof (SFdiv_core_nonneg mx ex m e) as Hq.
  destruct (SFdiv_core_binary prec emax (Z.pos mx) ex (Z.pos m) e) as [[mz ez] lz].
  cbn [fst] in Hq. rewrite binary_round_aux_eq by assumption.
  apply zero_le_mk, st12_nonneg, Hq.
Qed.

End binary64_division.

(** * More about the cost model *)

Section cost_reads.
Context `{Builtins}.

(** X3.  The cost of an edge depends on its attributes only through the two
    normalized costs and, for each preference that is switched on, the
    truthiness of the flag that preference looks at; it does not depend
    on the end points. *)
Theorem edge_cost_reads_four_attributes (self : RoutingEngine) (u v u' v' : node)
    (d d' : attrs) :
  d !! "time_cost_norm"%string = d' !! "time_cost_norm"%string →
  d !! "noise_cost_norm"%string = d' !! "noise_cost_norm"%string →
  (prefer_parks self = true →
   _is_truthy (get_none d "green_cover") = _is_truthy (get_none d' "green_cover")) →
  (avoid_junctions self = true →
   _is_truthy (get_none d "is_junction") = _is_truthy (get_none d' "is_junction")) →
  _get_edge_cost self u v d = _get_edge_cost self u' v' d'.
Proof.
  intros Ht Hn Hg Hj. unfold _get_edge_cost, get. rewrite Ht, Hn.
  destruct (as_float (default (VFloat 1) _)) as [t|e]; [|reflexivity].
  destruct (as_float (default (VFloat 0) _)) as [n|e]; [|reflexivity].
  cbn [rbind].
  destruct (prefer_parks self); [rewrite Hg by reflexivity|];
    (destruct (avoid_junctions self); [rewrite Hj by reflexivity|]); reflexivity.
Qed.

End cost_reads.

(** [edge_cost_reads_four_attributes] at a flag stored as text on one
    side and as a boolean on the other, next to an attribute the cost
    does not read. *)
Lemma edge_cost_reads_four_attributes_witness :
  _get_edge_cost (samples.engine_with samples.empty_graph 0.3 0.7 true false) 1 2
    (samples.edge_attrs 0.5 0.25 (VStr "True") (VInt 0))
  = _get_edge_cost (samples.engine_with samples.empty_graph 0.3 0.7 true false) 7 8
      (<["name" := VStr "Broadway"]> (samples.edge_attrs 0.5 0.25 (VBool true) (VStr "yes"))).
Proof.
  apply (edge_cost_reads_four_attributes
           (samples.engine_with samples.empty_graph 0.3 0.7 true false) 1 2 7 8);
    first [reflexivity | discriminate].
Defined.

Section cost_sign.
Context `{Builtins}.

(** X4.  The search never gets a negative cost, and gets a positive one for
    every edge with a positive normalized cost: when the two weights and
    the two normalized costs are finite and not negative, the cost
    [_get_edge_cost] returns is not negative (and not NaN), and it is
    positive when [time_cost_norm > 0] or [noise_cost_norm > 0]. *)
Theorem edge_cost_is_not_negative (self : RoutingEngine) (u v : node) (d : attrs)
    (t n : float) :
  (0 <=? w_time self)%float = true → is_finite (w_time self) = true →
  (0 <=? w_noise self)%float = true → is_finite (w_noise self) = true →
  as_float (get d "time_cost_norm" (VFloat 1)) = Ok t →
  as_float (get d "noise_cost_norm" (VFloat 0)) = Ok n →
  (0 <=? t)%float = true → is_finite t = true →
  (0 <=? n)%float = true → is_finite n = true →
  ∃ c, _get_edge_cost self u v d = Ok c
    ∧ (0 <=? c)%float = true
    ∧ ((0 <? t)%float || (0 <? n)%float = true → (0 <? c)%float = true).
Proof.
  intros Hwt Hfwt Hwn Hfwn Ht Hn Htn Hft Hnn Hfn.
  unfold _get_edge_cost. rewrite Ht, Hn; cbn [rbind]. cbv zeta.
  set (base0 := if (w_noise self =? 1)%float then n
                else (w_time self * t + w_noise self * n)%float).
  assert (H0 : nonneg base0).
  { unfold base0. destruct (w_noise self =? 1)%float; [exact Hnn|].
    apply float_add_nonneg; now apply float_mul_nonneg. }
  set (base1 := if prefer_parks self && _is_truthy (get_none d "green_cover")
                then (base0 * 0.7)%float else base0).
  assert (H1 : nonneg base1).
  { unfold base1.
    destruct (prefer_parks self && _is_truthy (get_none d "green_cover")); [|exact H0].
    now apply float_scale_nonneg. }
  set (base2 := if avoid_junctions self && _is_truthy (get_none d "is_junction")
                then (base1 * 2)%float else base1).
  assert (H2 : nonneg base2).
  { unfold base2.
    destruct (avoid_junctions self && _is_truthy (get_none d "is_junction")); [|exact H1].
    now apply float_scale_nonneg. }
  destruct (base2 =? 0)%float eqn:Hz; cbn [andb].
  - destruct ((0 <? t)%float || (0 <? n)%float) eqn:Hpos.
    + eexists. split; [reflexivity|]. split; reflexivity.
    + eexists. split; [reflexivity|]. split; [exact H2|discriminate].
  - eexists. split; [reflexivity|]. split; [exact H2|]. intros _.
    now apply float_nonneg_nonzero_pos.
Qed.

End cost_sign.

(** [edge_cost_is_not_negative] in pure speed mode on a green junction
    edge whose [time_cost_norm] is the least, 0.0, and whose
    [noise_cost_norm] is 0.4: the blend is zero and the cost is the
    floor, 1e-9. *)
Lemma edge_cost_is_not_negative_witness :
  ∃ c, _get_edge_cost (samples.engine_with samples.empty_graph 1 0 true true) 1 2
         (samples.edge_attrs 0 0.4 (VBool true) (VBool true)) = Ok c
    ∧ (0 <=? c)%float = true ∧ (0 <? c)%float = true.
Proof.
  destruct (edge_cost_is_not_negative
              (samples.engine_with samples.empty_graph 1 0 true true) 1 2
              (samples.edge_attrs 0 0.4 (VBool true) (VBool true)) 0 0.4)
    as (c & Hc & Hnn & Hpos); try reflexivity.
  exists c. split; [exact Hc|]. split; [exact Hnn|]. apply Hpos. reflexivity.
Defined.

(** [edge_cost_nonzero] with weights no slider gives, -2.5 and 2.5: on
    an edge whose two normalized costs are 0.5 the blend cancels to 0.0,
    and the cost is the floor, 1e-9. *)
Lemma edge_cost_nonzero_witness :
  _get_edge_cost (samples.engine_with samples.empty_graph (-2.5) 2.5 false false) 1 2
    (samples.edge_attrs 0.5 0.5 (VBool false) (VBool false)) = Ok 1e-9%float
  ∧ (1e-9 =? 0)%float = false.
Proof.
  split; [reflexivity|].
  apply (edge_cost_nonzero
           (samples.engine_with samples.empty_graph (-2.5) 2.5 false false) 1 2
           (samples.edge_attrs 0.5 0.5 (VBool false) (VBool false)) 0.5 0.5 1e-9);
    reflexivity.
Defined.

(** * More about the planner *)

Section planner_more.
Context `{Builtins} `{Collaborators}.

(** X5.  A new engine needs the graph's ['crs'] and raises [KeyError] without
    it; it keeps the graph, takes ['init_crs'] or EPSG:4326, and with
    its default preferences searches by the raw ['time_cost'] at every
    hour. *)
Theorem fresh_engine_routes_by_time (graph : MultiDiGraph) :
  match __init__ graph with
  | Ok e =>
      G e = graph
      ∧ graph_attrs graph !! "crs"%string = Some (graph_crs e)
      ∧ graph_init_crs e = default "EPSG:4326"%string (graph_attrs graph !! "init_crs"%string)
      ∧ ∀ h, select_weight e h = attribute "time_cost"
  | Raise ex => ex = KeyError ∧ graph_attrs graph !! "crs"%string = None
  end.
Proof.
  unfold __init__. destruct (graph_attrs graph !! "crs"%string) as [crs|]; [|done].
  repeat split. intros h. unfold select_weight. cbn. now destruct (is_quiet_hours h).
Qed.

(** X6.  A query whose every step succeeds returns the analytics of the path
    found, the route re-projected to the initial reference system, the
    start as (latitude, longitude) and the bounds of the re-projected
    route; it makes eight calls, in this order: the two geocodings, the
    two projections, the two nearest-node lookups, one search with the
    selected weight and one route geometry. *)
Theorem find_route_returns (w : world) (sa ea : string) (selected_hour : option Z)
    (start_loc end_loc : Location) (sp ep : float * float) (sn en : node)
    (path_nodes : list node) (a : Analytics) (gdf gdf' : GeoDataFrame) :
  let this := engine w in
  let h := resolve_hour selected_hour now_hour in
  sa ≠ ""%string → ea ≠ ""%string →
  geocode sa = Ok (Some start_loc) →
  geocode ea = Ok (Some end_loc) →
  project_geometry (longitude start_loc) (latitude start_loc)
                   (graph_init_crs this) (graph_crs this) = Ok sp →
  project_geometry (longitude end_loc) (latitude end_loc)
                   (graph_init_crs this) (graph_crs this) = Ok ep →
  nearest_nodes (G this) sp.1 sp.2 = Ok sn →
  nearest_nodes (G this) ep.1 ep.2 = Ok en →
  astar_path (G this) sn en (select_weight this h) = Ok path_nodes →
  analyze_path (G this) (is_quiet_hours h) path_nodes = Ok a →
  route_to_gdf (G this) path_nodes "length" = Ok gdf →
  to_crs gdf (graph_init_crs this) = Ok gdf' →
  find_route (Some sa) (Some ea) selected_hour w
  = (Ok {| analytics := a;
           route_gdf := gdf';
           start_location := (latitude start_loc, longitude start_loc);
           map_bounds := total_bounds gdf' |},
     World this
       (log w ++ [ Geocode sa; Geocode ea;
                   Project (longitude start_loc) (latitude start_loc);
                   Project (longitude end_loc) (latitude end_loc);
                   NearestNodes sp.1 sp.2; NearestNodes ep.1 ep.2;
                   AStar sn en (select_weight this h);
                   RouteToGdf path_nodes ])).
Proof.
  intros this h Hsa Hea Hgs Hge Hps Hpe Hns Hne Hpath Han Hgdf Hcrs.
  unfold find_route. cbn.
  apply String.eqb_neq in Hsa, Hea. rewrite Hsa, Hea. cbn.
  unfold bind, call, lift, self, ret; cbn.
  rewrite Hgs, Hge; cbn. fold this. rewrite Hps, Hpe; cbn.
  rewrite Hns, Hne; cbn. fold h. rewrite Hpath; cbn. rewrite Han, Hgdf, Hcrs; cbn.
  rewrite <- !app_assoc. reflexivity.
Qed.

(** X7.  Whatever a query does, the kinds of the calls it makes are an
    initial part of: geocoding twice, projecting twice, nearest node
    twice, searching once, drawing the route once; and all eight are made
    when it returns.  So no query searches twice, and none draws a route
    it did not search for. *)
Theorem find_route_calls_in_order (w : world) (start_address end_address : option string)
    (selected_hour : option Z) :
  ∃ evs,
    logged start_address end_address selected_hour w evs
    ∧ map trace.kind_of evs `prefix_of` trace.full
    ∧ (is_ok (find_route start_address end_address selected_hour w).1 = true →
       map trace.kind_of evs = trace.full).
Proof.
  unfold logged, find_route.
  destruct (falsy start_address || falsy end_address).
  { exists []. split; [now rewrite app_nil_r|]. split; [apply prefix_nil|discriminate]. }
  run_method; rewrite <- ?app_assoc; cbn;
    (eexists; split; [reflexivity|]); cbn;
    (split; [by eexists|]); first [discriminate | reflexivity].
Qed.

(** X8.  An exception of the geocoder is passed on as it is.  When it is
    raised for the start address nothing else has been called, the end
    address has not been looked up; when it is raised for the end address
    the two geocodings are all that happened. *)
Theorem geocoder_exception_is_passed_on (w : world) (sa ea : string)
    (selected_hour : option Z) (e : exn) :
  sa ≠ ""%string → ea ≠ ""%string →
  (geocode sa = Raise e →
   find_route (Some sa) (Some ea) selected_hour w
   = (Raise e, World (engine w) (log w ++ [Geocode sa])))
  ∧ (∀ start_loc, geocode sa = Ok start_loc → geocode ea = Raise e →
     find_route (Some sa) (Some ea) selected_hour w
     = (Raise e, World (engine w) (log w ++ [Geocode sa; Geocode ea]))).
Proof.
  intros Hsa%String.eqb_neq Hea%String.eqb_neq.
  unfold find_route; cbn. rewrite Hsa, Hea; cbn.
  unfold bind, call; cbn. split.
  - now intros ->.
  - intros start_loc -> ->. now rewrite <- app_assoc.
Qed.

(** X9.  When the search raises (there is no path), the query raises the same
    exception: the six lookups and the one search were made, no route was
    drawn, and the engine is as it was. *)
Theorem search_exception_is_passed_on (w : world) (sa ea : string)
    (selected_hour : option Z) (start_loc end_loc : Location) (sp ep : float * float)
    (sn en : node) (e : exn) :
  let this := engine w in
  let h := resolve_hour selected_hour now_hour in
  sa ≠ ""%string → ea ≠ ""%string →
  geocode sa = Ok (Some start_loc) →
  geocode ea = Ok (Some end_loc) →
  project_geometry (longitude start_loc) (latitude start_loc)
                   (graph_init_crs this) (graph_crs this) = Ok sp →
  project_geometry (longitude end_loc) (latitude end_loc)
                   (graph_init_crs this) (graph_crs this) = Ok ep →
  nearest_nodes (G this) sp.1 sp.2 = Ok sn →
  nearest_nodes (G this) ep.1 ep.2 = Ok en →
  astar_path (G this) sn en (select_weight this h) = Raise e →
  find_route (Some sa) (Some ea) selected_hour w
  = (Raise e,
     World this
       (log w ++ [ Geocode sa; Geocode ea;
                   Project (longitude start_loc) (latitude start_loc);
                   Project (longitude end_loc) (latitude end_loc);
                   NearestNodes sp.1 sp.2; NearestNodes ep.1 ep.2;
                   AStar sn en (select_weight this h) ])).
Proof.
  intros this h Hsa Hea Hgs Hge Hps Hpe Hns Hne Hpath.
  unfold find_route. cbn.
  apply String.eqb_neq in Hsa, Hea. rewrite Hsa, Hea. cbn.
  unfold bind, call, lift, self, ret; cbn.
  rewrite Hgs, Hge; cbn. fold this. rewrite Hps, Hpe; cbn.
  rewrite Hns, Hne; cbn. fold h. rewrite Hpath; cbn.
  rewrite <- !app_assoc. reflexivity.
Qed.

End planner_more.

(** [find_route_returns] from Times Square to Grand Central at 3
    o'clock. *)
Lemma find_route_returns_witness :
  find_route (Some "Times Square") (Some "Grand Central") (Some 3)
    (samples.world_of (samples.engine_with samples.row_graph 0.3 0.7 false false))
  = (Ok {| analytics := {| time := 90; distance := 200;
                           avg_noise := ((0 + 300 * 0.7 + 500 * 0.7) / 200)%float;
                           green_percent := (60 / 90 * 100)%float |};
           route_gdf := {| rows := []; frame_crs := "EPSG:4326" |};
           start_location := (40.758, -73.985)%float;
           map_bounds := (0, 0, 0, 0)%float |},
     World (samples.engine_with samples.row_graph 0.3 0.7 false false)
       [ Geocode "Times Square"; Geocode "Grand Central";
         Project (-73.985) 40.758; Project (-73.977) 40.753;
         NearestNodes (-73.985) 40.758; NearestNodes (-73.977) 40.753;
         AStar 1 3 (attribute "time_cost"); RouteToGdf [1; 2; 3] ]).
Proof.
  refine (find_route_returns
           (samples.world_of (samples.engine_with samples.row_graph 0.3 0.7 false false))
           "Times Square" "Grand Central" (Some 3)
           {| latitude := 40.758; longitude := -73.985 |}
           {| latitude := 40.753; longitude := -73.977 |}
           (-73.985, 40.758)%float (-73.977, 40.753)%float 1 3 [1; 2; 3]
           {| time := 90; distance := 200;
              avg_noise := ((0 + 300 * 0.7 + 500 * 0.7) / 200)%float;
              green_percent := (60 / 90 * 100)%float |}
           {| rows := []; frame_crs := "EPSG:32618" |}
           {| rows := []; frame_crs := "EPSG:4326" |} _ _ _ _ _ _ _ _ _ _ _ _);
    first [reflexivity | discriminate].
Defined.

(** [geocoder_exception_is_passed_on] at an address the sample geocoder
    times out on. *)
Lemma geocoder_exception_is_passed_on_witness :
  find_route (Some "Nowhere") (Some "Bryant Park") None
    (samples.world_of (samples.engine_with samples.row_graph 0.3 0.7 false false))
  = (Raise (LibraryError "GeocoderTimedOut"),
     World (samples.engine_with samples.row_graph 0.3 0.7 false false) [Geocode "Nowhere"]).
Proof.
  apply (geocoder_exception_is_passed_on
           (samples.world_of (samples.engine_with samples.row_graph 0.3 0.7 false false))
           "Nowhere" "Bryant Park" None (LibraryError "GeocoderTimedOut"));
    first [reflexivity | discriminate].
Defined.

(** [search_exception_is_passed_on] from Grand Central back to Times
    Square, against the one-way streets of the sample graph. *)
Lemma search_exception_is_passed_on_witness :
  find_route (Some "Grand Central") (Some "Times Square") None
    (samples.world_of (samples.engine_with samples.row_graph 0.3 0.7 false false))
  = (Raise (LibraryError "NetworkXNoPath"),
     World (samples.engine_with samples.row_graph 0.3 0.7 false false)
       [ Geocode "Grand Central"; Geocode "Times Square";
         Project (-73.977) 40.753; Project (-73.985) 40.758;
         NearestNodes (-73.977) 40.753; NearestNodes (-73.985) 40.758;
         AStar 3 1 (bound_get_edge_cost
                      (samples.engine_with samples.row_graph 0.3 0.7 false false)) ]).
Proof.
  refine (search_exception_is_passed_on
           (samples.world_of (samples.engine_with samples.row_graph 0.3 0.7 false false))
           "Grand Central" "Times Square" None
           {| latitude := 40.753; longitude := -73.977 |}
           {| latitude := 40.758; longitude := -73.985 |}
           (-73.977, 40.753)%float (-73.985, 40.758)%float 3 1
           (LibraryError "NetworkXNoPath") _ _ _ _ _ _ _ _ _);
    first [reflexivity | discriminate].
Defined.

(** * More about the analytics *)

Section analysis_more.
Context `{Builtins}.

Lemma analyze_loop_app (G0 : MultiDiGraph) (mult : float) (before after : list (node * node))
    (acc : totals) :
  analyze_loop G0 mult (before ++ after) acc
  = let! acc' := analyze_loop G0 mult before acc in analyze_loop G0 mult after acc'.
Proof.
  revert acc. induction before as [|uv before IH]; intros acc; cbn; [reflexivity|].
  destruct (analyze_edge G0 mult acc uv); cbn; [apply IH|reflexivity].
Qed.

Lemma keydict_getitem_missing (d : keydict) (k : Z) :
  Forall (λ ka, ka.1 ≠ k) d → keydict_getitem d k = Raise KeyError.
Proof.
  induction 1 as [|[k' a] d Hk _ IH]; cbn; [reflexivity|].
  cbn in Hk. apply Z.eqb_neq in Hk. now rewrite Hk.
Qed.

(** X10.  A route that starts where it ends has no steps: for a path of one
    node, or of none, the four figures are 0.0 and nothing is divided. *)
Theorem analytics_of_a_route_without_steps (G0 : MultiDiGraph) (is_quiet : bool)
    (path_nodes : list node) :
  (length path_nodes ≤ 1)%nat →
  analyze_path G0 is_quiet path_nodes
  = Ok {| time := 0; distance := 0; avg_noise := 0; green_percent := 0 |}.
Proof.
  destruct path_nodes as [|n [|n' rest]]; cbn [length]; intros Hlen;
    [reflexivity|reflexivity|lia].
Qed.

(** X11.  The analysis stops at the first step it cannot read.  When the steps
    before it can be read and the graph has no edge for the step, it
    raises [TypeError]; when the graph has edges for the step but none
    with key 0, it raises [KeyError]. *)
Theorem analysis_stops_at_unreadable_step (G0 : MultiDiGraph) (is_quiet : bool)
    (path_nodes : list node) (before after : list (node * node)) (u v : node)
    (rs : list spec.reading) :
  path_edges path_nodes = before ++ (u, v) :: after →
  Forall2 (spec.reads G0) before rs →
  (get_edge_data G0 u v = None → analyze_path G0 is_quiet path_nodes = Raise TypeError)
  ∧ (∀ d, get_edge_data G0 u v = Some d → Forall (λ ka, ka.1 ≠ 0) d →
       analyze_path G0 is_quiet path_nodes = Raise KeyError).
Proof.
  intros Hpath Hreads. unfold analyze_path. rewrite Hpath, analyze_loop_app.
  rewrite (analyze_loop_totals _ _ _ _ Hreads). cbn [rbind analyze_loop].
  unfold analyze_edge, edge_data_at. split.
  - now intros ->.
  - intros d -> Hd. now rewrite keydict_getitem_missing.
Qed.

End analysis_more.

(** [analytics_of_a_route_without_steps] at a single corner. *)
Lemma analytics_of_a_route_without_steps_witness :
  analyze_path samples.row_graph false [2]
  = Ok {| time := 0; distance := 0; avg_noise := 0; green_percent := 0 |}.
Proof.
  apply (analytics_of_a_route_without_steps samples.row_graph false [2]). cbn. lia.
Defined.

(** [analysis_stops_at_unreadable_step] on the three corners: the step
    back from 3 to 2 has no edge, and from 1 to 2 in the graph that has
    lost its key 0 only key 1 is left. *)
Lemma analysis_stops_at_unreadable_step_witness :
  analyze_path samples.row_graph false [1; 2; 3; 2] = Raise TypeError
  ∧ analyze_path
      (Graph samples.no_attrs [Edge 1 2 1 (samples.raw_attrs 10 300 100 (VBool true))])
      false [1; 2] = Raise KeyError.
Proof.
  split.
  - apply (analysis_stops_at_unreadable_step samples.row_graph false [1; 2; 3; 2]
             [(1, 2); (2, 3)] [] 3 2
             [spec.Reading 60 300 100 true; spec.Reading 30 500 100 false]).
    + reflexivity.
    + repeat constructor.
      * exists (samples.raw_attrs 60 300 100 (VBool true)). repeat split; reflexivity.
      * exists (samples.raw_attrs 30 500 100 (VBool false)). repeat split; reflexivity.
    + reflexivity.
  - apply (analysis_stops_at_unreadable_step
             (Graph samples.no_attrs [Edge 1 2 1 (samples.raw_attrs 10 300 100 (VBool true))])
             false [1; 2] [] [] 1 2 [])
      with (d := [(1, samples.raw_attrs 10 300 100 (VBool true))]).
    + reflexivity.
    + constructor.
    + reflexivity.
    + repeat constructor. cbn. lia.
Defined.

Section analytics_signs.
Context `{Builtins}.

Lemma acc_nonneg a : acc a → nonneg a.
Proof. intros [Ha| Ha]; apply addend_nonneg; [now left; left|now right]. Qed.

Lemma acc_fold (xs : list float) :
  Forall nonneg xs → ∀ a, acc a → acc (fold_left PrimFloat.add xs a).
Proof.
  induction 1 as [|x xs Hx _ IH]; intros a Ha; cbn [fold_left]; [assumption|].
  apply IH. now apply acc_add.
Qed.

(** X12.  The figures of a route are never negative: for a path whose steps
    can be read and whose raw times, noise costs and lengths are not
    negative, the record is produced and its [time] and [distance] are
    not negative (and not NaN); so is [avg_noise], in quiet and in
    normal hours, when the distance is finite. *)
Theorem analytics_are_not_negative (G0 : MultiDiGraph) (is_quiet : bool)
    (path_nodes : list node) (rs : list spec.reading) :
  Forall2 (spec.reads G0) (path_edges path_nodes) rs →
  Forall (λ r, (0 <=? spec.raw_time r)%float = true
               ∧ (0 <=? spec.raw_noise r)%float = true
               ∧ (0 <=? spec.raw_length r)%float = true) rs →
  ∃ a, analyze_path G0 is_quiet path_nodes = Ok a
    ∧ (0 <=? time a)%float = true
    ∧ (0 <=? distance a)%float = true
    ∧ (is_finite (distance a) = true → (0 <=? avg_noise a)%float = true).
Proof.
  intros Hreads Hnn. unfold analyze_path.
  rewrite (analyze_loop_totals _ _ _ _ Hreads). cbn [rbind].
  rewrite format_analytics_ok. eexists. split; [reflexivity|]. cbn.
  assert (Ht : Forall nonneg (map spec.raw_time rs)).
  { apply Forall_map. eapply Forall_impl; [exact Hnn|]. now intros r (? & ? & ?). }
  assert (Hl : Forall nonneg (map spec.raw_length rs)).
  { apply Forall_map. eapply Forall_impl; [exact Hnn|]. now intros r (? & ? & ?). }
  assert (Hn : Forall nonneg
                 (map (λ r, (spec.raw_noise r * (if is_quiet then 0.7 else 1))%float) rs)).
  { apply Forall_map. eapply Forall_impl; [exact Hnn|]. intros r (_ & Hr & _). cbn.
    apply float_scale_nonneg; [exact Hr|now destruct is_quiet|now destruct is_quiet]. }
  pose proof (acc_nonneg _ (acc_fold _ Ht _ acc_zero)) as Htime.
  pose proof (acc_nonneg _ (acc_fold _ Hl _ acc_zero)) as Hdist.
  pose proof (acc_nonneg _ (acc_fold _ Hn _ acc_zero)) as Hnoise.
  split; [exact Htime|]. split; [exact Hdist|]. intros Hfin.
  destruct (0 <? fold_left PrimFloat.add (map spec.raw_length rs) 0)%float eqn:Hpos;
    [|reflexivity].
  now apply float_div_nonneg.
Qed.

End analytics_signs.

(** [analytics_are_not_negative] on the three corners in a quiet
    hour. *)
Lemma analytics_are_not_negative_witness :
  ∃ a, analyze_path samples.row_graph true [1; 2; 3] = Ok a
    ∧ (0 <=? time a)%float = true
    ∧ (0 <=? distance a)%float = true
    ∧ (0 <=? avg_noise a)%float = true.
Proof.
  destruct (analytics_are_not_negative samples.row_graph true [1; 2; 3]
              [spec.Reading 60 300 100 true; spec.Reading 30 500 100 false])
    as (a & Ha & Ht & Hd & Hn).
  - repeat constructor.
    + exists (samples.raw_attrs 60 300 100 (VBool true)). repeat split; reflexivity.
    + exists (samples.raw_attrs 30 500 100 (VBool false)). repeat split; reflexivity.
  - repeat constructor.
  - exists a. split; [exact Ha|]. split; [exact Ht|]. split; [exact Hd|].
    apply Hn. cbn in Ha. injection Ha as <-. reflexivity.
Defined.

(** * More about the graph passes *)

Section passes_more.
Context `{Builtins}.
Variable junction_nodes : gset node.
Variable meets_park : pyval → bool.

Import graph_processor.

(** What the first loop leaves in an edge: the five assignments, in
    order, on top of the attributes it found. *)
Lemma add_custom_costs_data (e e' : edge) :
  add_custom_costs junction_nodes meets_park e = Ok e' →
  ∃ t n l g j,
    e' = Edge (src e) (dst e) (key e)
           (<["is_junction" := j]>
              (<["green_cover" := VBool g]>
                 (<["length" := VFloat l]>
                    (<["noise_cost" := VFloat n]>
                       (<["time_cost" := VFloat t]> (data e))))))
    ∧ as_float (get (data e) "length" (VFloat 0)) = Ok l
    ∧ j = (if bool_decide (src e ∈ junction_nodes) || bool_decide (dst e ∈ junction_nodes)
           then VBool true else get (data e) "junction" (VBool false)).
Proof.
  unfold add_custom_costs.
  intros (speed & Hs & Hrest)%rbind_ok.
  apply rbind_ok in Hrest as (l & Hl & Hrest).
  apply rbind_ok in Hrest as (t & Ht & Hrest).
  apply rbind_ok in Hrest as (n & Hn & Hrest).
  injection Hrest as <-.
  exists t, n, l, (meets_park (get_none
    (<["length" := VFloat l]> (<["noise_cost" := VFloat n]>
       (<["time_cost" := VFloat t]> (data e)))) "geometry")).
  eexists. split; [|split; [exact Hl|reflexivity]].
  f_equal.
  destruct (bool_decide (src e ∈ junction_nodes) || bool_decide (dst e ∈ junction_nodes));
    [reflexivity|].
  f_equal. unfold get. now rewrite !lookup_insert_ne.
Qed.

(** X13.  The first pass assigns to five attributes and to nothing else: the
    edge keeps its end points, its key and every other attribute, and
    afterwards [time_cost], [noise_cost] and [length] are floats and
    [green_cover] is a boolean. *)
Theorem first_pass_writes_five_attributes (e e' : edge) :
  add_custom_costs junction_nodes meets_park e = Ok e' →
  src e' = src e ∧ dst e' = dst e ∧ key e' = key e
  ∧ (∀ k : string,
       k ∉ ["time_cost"; "noise_cost"; "length"; "green_cover"; "is_junction"]%string →
       data e' !! k = data e !! k)
  ∧ (∃ t n l g,
       data e' !! "time_cost"%string = Some (VFloat t)
       ∧ data e' !! "noise_cost"%string = Some (VFloat n)
       ∧ data e' !! "length"%string = Some (VFloat l)
       ∧ data e' !! "green_cover"%string = Some (VBool g))
  ∧ is_Some (data e' !! "is_junction"%string).
Proof.
  intros (t & n & l & g & j & -> & _ & _)%add_custom_costs_data. cbn [src dst key data].
  repeat split.
  - intros k Hk. rewrite !lookup_insert_ne; [reflexivity|..];
      intros <-; apply Hk; set_solver.
  - exists t, n, l, g. repeat split.
    + now rewrite !lookup_insert_ne, lookup_insert_eq by done.
    + now rewrite !lookup_insert_ne, lookup_insert_eq by done.
    + now rewrite !lookup_insert_ne, lookup_insert_eq by done.
    + now rewrite !lookup_insert_ne, lookup_insert_eq by done.
  - rewrite lookup_insert_eq. eauto.
Qed.

Lemma no_zero_division_test {A} (r : result A) :
  no_zero_division r → is_zero_division r = false.
Proof. destruct r as [a|[]]; cbn; try reflexivity. intros Hr. now destruct Hr. Qed.

Lemma no_zero_division_add_custom_costs (e : edge) :
  no_zero_division (add_custom_costs junction_nodes meets_park e).
Proof.
  unfold add_custom_costs.
  apply no_zero_division_bind; [apply no_zero_division_as_float|]. intros speed _.
  apply no_zero_division_bind; [apply no_zero_division_as_float|]. intros l _.
  apply no_zero_division_bind.
  { unfold truediv. destruct (speed =? 0)%float; discriminate. }
  intros t _.
  apply no_zero_division_bind; [|discriminate].
  unfold int_mul_float. apply no_zero_division_bind; [|discriminate].
  unfold float_of_int. destruct (is_infinity _); discriminate.
Qed.

Lemma no_zero_division_times_of (es : list edge) : no_zero_division (times_of es).
Proof.
  induction es as [|e es IH]; cbn; [discriminate|].
  apply no_zero_division_bind; [apply no_zero_division_cost_of|]. intros t _.
  apply no_zero_division_bind; [apply IH|]. discriminate.
Qed.

Lemma no_zero_division_normalize_costs (es : list edge) :
  no_zero_division (normalize_costs es).
Proof.
  unfold normalize_costs.
  apply no_zero_division_bind; [apply no_zero_division_times_of|]. intros times _.
  apply no_zero_division_bind.
  { apply no_zero_division_for_each. intros e. apply no_zero_division_cost_of. }
  intros noises _.
  apply no_zero_division_bind; [apply no_zero_division_min|]. intros min_time _.
  apply no_zero_division_bind; [apply no_zero_division_max|]. intros max_time _.
  apply no_zero_division_bind; [apply no_zero_division_min|]. intros min_noise _.
  apply no_zero_division_bind; [apply no_zero_division_max|]. intros max_noise _.
  apply no_zero_division_for_each. intros e. unfold normalize_edge.
  apply no_zero_division_bind; [apply no_zero_division_cost_of|]. intros t _.
  apply no_zero_division_bind; [apply no_zero_division_cost_of|]. intros n _.
  rewrite !truediv_range. destruct (t =? infinity)%float; discriminate.
Qed.

(** X14.  Whatever the graph holds, the two edge passes never raise
    [ZeroDivisionError]: a speed of zero is tested before the division,
    and the denominators of the normalization are never zero. *)
Theorem process_graph_never_divides_by_zero (G_proj : MultiDiGraph) :
  is_zero_division (process_graph junction_nodes meets_park G_proj) = false.
Proof.
  apply no_zero_division_test. unfold process_graph.
  apply no_zero_division_bind.
  { apply no_zero_division_for_each, no_zero_division_add_custom_costs. }
  intros es _. apply no_zero_division_bind; [apply no_zero_division_normalize_costs|].
  discriminate.
Qed.

End passes_more.

Section passes_compose.
Context `{Builtins}.
Variable junction_nodes : gset node.
Variable meets_park : pyval → bool.

Import graph_processor.

Lemma for_each_Forall2 {A B} (f : A → result B) (P : A → B → Prop) xs ys :
  (∀ x y, f x = Ok y → P x y) → for_each f xs = Ok ys → Forall2 P xs ys.
Proof.
  intros HP. revert ys. induction xs as [|x xs IH]; intros ys Hys.
  - apply for_each_ok_nil in Hys as ->. constructor.
  - apply for_each_ok_cons in Hys as (y & ys' & -> & Hy & Hys'). constructor; auto.
Qed.

Lemma for_each_Forall_ok {A B} (f : A → result B) xs :
  Forall (λ x, ∃ y, f x = Ok y) xs → ∃ ys, for_each f xs = Ok ys.
Proof.
  induction 1 as [|x xs [y Hy] _ [ys IH]]; cbn; [eauto|]. rewrite Hy, IH; cbn. eauto.
Qed.

Lemma normalize_edge_data lo rt nlo rn (e e' : edge) :
  normalize_edge lo rt nlo rn e = Ok e' → ∃ tn nn, e' = spec.with_norms e tn nn.
Proof.
  unfold normalize_edge.
  intros (t & _ & Hrest)%rbind_ok. apply rbind_ok in Hrest as (n & _ & Hrest).
  apply rbind_ok in Hrest as (tn & _ & Hrest). apply rbind_ok in Hrest as (nn & _ & Hrest).
  injection Hrest as <-. now exists tn, nn.
Qed.

Lemma normalize_costs_data (es es' : list edge) :
  normalize_costs es = Ok es' →
  Forall2 (λ e e', ∃ tn nn, e' = spec.with_norms e tn nn) es es'.
Proof.
  unfold normalize_costs.
  intros (times & _ & Hrest)%rbind_ok. apply rbind_ok in Hrest as (noises & _ & Hrest).
  apply rbind_ok in Hrest as (lo & _ & Hrest). apply rbind_ok in Hrest as (hi & _ & Hrest).
  apply rbind_ok in Hrest as (nlo & _ & Hrest). apply rbind_ok in Hrest as (nhi & _ & Hrest).
  eapply for_each_Forall2; [|exact Hrest]. intros e e'. apply normalize_edge_data.
Qed.

(** X15.  A graph that went through the two passes can be costed and analysed
    without a conversion error: it has the same attributes of its own and
    the same edges, end points and keys, in the same order; on every
    edge the two raw costs, the length and the two normalized costs are
    floats; and [_get_edge_cost] returns a cost for every edge, under
    every preference vector. *)
Theorem processed_edges_can_be_costed (G_proj G' : MultiDiGraph) :
  process_graph junction_nodes meets_park G_proj = Ok G' →
  graph_attrs G' = graph_attrs G_proj
  ∧ Forall2 (λ e e', src e' = src e ∧ dst e' = dst e ∧ key e' = key e)
      (edge_list G_proj) (edge_list G')
  ∧ Forall (λ e',
              (∃ t n l tn nn,
                 data e' !! "time_cost"%string = Some (VFloat t)
                 ∧ data e' !! "noise_cost"%string = Some (VFloat n)
                 ∧ data e' !! "length"%string = Some (VFloat l)
                 ∧ data e' !! "time_cost_norm"%string = Some (VFloat tn)
                 ∧ data e' !! "noise_cost_norm"%string = Some (VFloat nn))
              ∧ ∀ self u v, is_ok (_get_edge_cost self u v (data e')) = true)
      (edge_list G').
Proof.
  unfold process_graph.
  intros (es1 & H1 & Hrest)%rbind_ok. apply rbind_ok in Hrest as (es2 & H2 & [= <-]).
  cbn [graph_attrs edge_list]. split; [reflexivity|].
  apply (for_each_Forall2 _ (λ e e1, add_custom_costs junction_nodes meets_park e = Ok e1))
    in H1; [|auto].
  apply normalize_costs_data in H2.
  revert es2 H2. induction H1 as [|e e1 es es1 He _ IH]; intros es2 H2.
  - apply Forall2_nil_inv_l in H2 as ->. split; constructor.
  - apply Forall2_cons_inv_l in H2 as (e2 & es2' & (tn & nn & ->) & H2 & ->).
    destruct (IH _ H2) as [IHa IHb].
    apply add_custom_costs_data in He as (t & n & l & g & j & -> & _ & _).
    split; constructor; try assumption; cbn [src dst key data spec.with_norms].
    + done.
    + assert (Htn : ∀ d : attrs,
                (<["noise_cost_norm" := VFloat nn]> (<["time_cost_norm" := VFloat tn]> d))
                  !! "time_cost_norm"%string = Some (VFloat tn)).
      { intros d. now rewrite lookup_insert_ne, lookup_insert_eq by done. }
      assert (Hnn : ∀ d : attrs,
                (<["noise_cost_norm" := VFloat nn]> (<["time_cost_norm" := VFloat tn]> d))
                  !! "noise_cost_norm"%string = Some (VFloat nn)).
      { intros d. now rewrite lookup_insert_eq. }
      split.
      * exists t, n, l, tn, nn. repeat split; try apply Htn; try apply Hnn;
          now rewrite !lookup_insert_ne, lookup_insert_eq by done.
      * intros self u v. unfold _get_edge_cost, get. rewrite Htn, Hnn. cbn.
        now destruct (_ && _).
Qed.

Lemma add_custom_costs_closed (e : edge) (speed_kmh length_m : float) :
  as_float (get (data e) "speed_kph" (VInt config.DEFAULT_SPEED)) = Ok speed_kmh →
  (speed_kmh =? 0)%float = true →
  as_float (get (data e) "length" (VFloat 0)) = Ok length_m →
  ∃ e1, add_custom_costs junction_nodes meets_park e = Ok e1
    ∧ time_cost_of e1 = Ok infinity ∧ ∃ n, noise_cost_of e1 = Ok n.
Proof.
  intros Hs Hz Hl. unfold add_custom_costs.
  rewrite Hs, Hl; cbn [rbind]. rewrite Hz; cbn [rbind].
  unfold int_mul_float. rewrite float_of_int_noise_score; cbn [rbind].
  eexists. split; [reflexivity|].
  unfold time_cost_of, noise_cost_of, getitem; cbn [data].
  destruct (bool_decide (src e ∈ junction_nodes) || bool_decide (dst e ∈ junction_nodes));
    rewrite !lookup_insert_ne, lookup_insert_eq by done;
    (split; [reflexivity|]);
    rewrite !lookup_insert_ne, lookup_insert_eq by done; cbn; eauto.
Qed.

Lemma times_of_closed (es : list edge) :
  Forall (λ e, time_cost_of e = Ok infinity) es → times_of es = Ok [].
Proof.
  induction 1 as [|e es He _ IH]; cbn [times_of]; [reflexivity|].
  rewrite He, IH. reflexivity.
Qed.

(** X16.  A graph without an edge that can be driven (no edge at all, or a
    speed of zero on every edge) cannot be processed: every [time_cost]
    is infinite, none is left to take the minimum of, and the passes end
    in [ValueError]. *)
Theorem no_passable_edge_no_graph (G_proj : MultiDiGraph) :
  Forall (λ e, ∃ speed_kmh length_m,
            as_float (get (data e) "speed_kph" (VInt config.DEFAULT_SPEED)) = Ok speed_kmh
            ∧ (speed_kmh =? 0)%float = true
            ∧ as_float (get (data e) "length" (VFloat 0)) = Ok length_m)
    (edge_list G_proj) →
  process_graph junction_nodes meets_park G_proj
  = Raise (ValueError "min() arg is an empty sequence").
Proof.
  intros Hall. unfold process_graph.
  assert (Hfirst : ∃ es1, for_each (add_custom_costs junction_nodes meets_park)
                            (edge_list G_proj) = Ok es1
            ∧ Forall (λ e1, time_cost_of e1 = Ok infinity) es1
            ∧ ∃ ns, for_each noise_cost_of es1 = Ok ns).
  { induction Hall as [|e es (speed & l & Hs & Hz & Hl) _ (es1 & IH1 & IH2 & ns & IH3)].
    - exists []. split; [reflexivity|]. split; [constructor|]. now exists [].
    - destruct (add_custom_costs_closed e speed l Hs Hz Hl) as (e1 & He & Ht & n & Hn).
      exists (e1 :: es1). cbn [for_each]. rewrite He, IH1, Hn, IH3. cbn.
      split; [reflexivity|]. split; [now constructor|]. eauto. }
  destruct Hfirst as (es1 & -> & Ht & ns & Hns). cbn [rbind].
  unfold normalize_costs, noises_of. rewrite (times_of_closed _ Ht), Hns. reflexivity.
Qed.

End passes_compose.

(** [no_passable_edge_no_graph] on a single street with a speed of
    zero. *)
Lemma no_passable_edge_no_graph_witness :
  graph_processor.process_graph ∅ (λ _, false)
    (Graph samples.no_attrs
       [Edge 1 2 0 (<["speed_kph" := VInt 0]> (<["length" := VFloat 120]> ∅))])
  = Raise (ValueError "min() arg is an empty sequence").
Proof.
  apply (no_passable_edge_no_graph ∅ (λ _, false)
           (Graph samples.no_attrs
              [Edge 1 2 0 (<["speed_kph" := VInt 0]> (<["length" := VFloat 120]> ∅))])).
  repeat constructor. exists 0%float, 120%float. repeat split; reflexivity.
Defined.

(** [processed_edges_can_be_costed] on two streets of different
    lengths. *)
Lemma processed_edges_can_be_costed_witness :
  ∃ G',
    graph_processor.process_graph ∅ (λ _, false)
      (Graph samples.no_attrs
         [samples.raw_edge 0 100 (Some "primary"%string); samples.raw_edge 1 250 None])
    = Ok G'
    ∧ Forall (λ e', ∀ self u v, is_ok (_get_edge_cost self u v (data e')) = true)
        (edge_list G').
Proof.
  destruct (graph_processor.process_graph ∅ (λ _, false)
              (Graph samples.no_attrs
                 [samples.raw_edge 0 100 (Some "primary"%string); samples.raw_edge 1 250 None]))
    as [G'|ex] eqn:HG.
  - exists G'. split; [reflexivity|].
    destruct (processed_edges_can_be_costed ∅ (λ _, false) _ _ HG) as (_ & _ & Hall).
    eapply Forall_impl; [exact Hall|]. intros e' [_ Hcost]. exact Hcost.
  - vm_compute in HG. discriminate.
Defined.

Section first_pass_signs.
Context `{Builtins}.
Variable junction_nodes : gset node.
Variable meets_park : pyval → bool.

Import graph_processor.

(** X17.  The raw costs are never negative: for an edge whose speed and length
    are finite and not negative the first pass succeeds, and the
    [time_cost] and the [noise_cost] it stores are not negative (and not
    NaN); the [time_cost] is [inf] when the speed is zero. *)
Theorem first_pass_costs_are_not_negative (e : edge) (speed_kmh length_m : float) :
  as_float (get (data e) "speed_kph" (VInt config.DEFAULT_SPEED)) = Ok speed_kmh →
  as_float (get (data e) "length" (VFloat 0)) = Ok length_m →
  (0 <=? speed_kmh)%float = true → is_finite speed_kmh = true →
  (0 <=? length_m)%float = true → is_finite length_m = true →
  ∃ e' t n,
    add_custom_costs junction_nodes meets_park e = Ok e'
    ∧ data e' !! "time_cost"%string = Some (VFloat t)
    ∧ data e' !! "noise_cost"%string = Some (VFloat n)
    ∧ (0 <=? t)%float = true
    ∧ (0 <=? n)%float = true
    ∧ ((speed_kmh =? 0)%float = true → t = infinity).
Proof.
  intros Hs Hl Hsn Hsf Hln Hlf. unfold add_custom_costs.
  rewrite Hs, Hl; cbn [rbind].
  set (t := if (speed_kmh =? 0)%float then infinity
            else (length_m / 1000 / speed_kmh * 3600)%float).
  assert (Htime : (if (speed_kmh =? 0)%float then Ok infinity
                   else let! h := truediv (length_m / 1000) speed_kmh in Ok (h * 3600)%float)
                  = Ok t).
  { unfold t, truediv. now destruct (speed_kmh =? 0)%float. }
  rewrite Htime; cbn [rbind].
  unfold int_mul_float. rewrite float_of_int_noise_score; cbn [rbind].
  eexists _, t, _. split; [reflexivity|]. cbn [data].
  assert (Hlook : ∀ (m : attrs) v k, k ≠ "is_junction"%string →
            (if bool_decide (src e ∈ junction_nodes) || bool_decide (dst e ∈ junction_nodes)
             then <["is_junction" := VBool true]> m
             else <["is_junction" := v]> m) !! k = m !! k).
  { intros m v k Hk. destruct (_ || _); now rewrite lookup_insert_ne. }
  rewrite !Hlook by done.
  split; [now rewrite !lookup_insert_ne, lookup_insert_eq by done|].
  split; [now rewrite !lookup_insert_ne, lookup_insert_eq by done|].
  split; [|split].
  - unfold t. destruct (speed_kmh =? 0)%float eqn:Hz; [reflexivity|].
    apply float_scale_nonneg; [|reflexivity|reflexivity].
    apply float_div_nonneg; [|now apply float_nonneg_nonzero_pos|assumption].
    now apply float_div_nonneg.
  - assert (Hscore : ∀ w : float, nonneg w → is_finite w = true →
                       (0 <=? w * length_m)%float = true).
    { intros w Hw Hwf. now apply float_mul_nonneg. }
    unfold noise_score_of. repeat (destruct (in_strs _ _)); apply Hscore; reflexivity.
  - unfold t. now intros ->.
Qed.

End first_pass_signs.

(** [first_pass_costs_are_not_negative] on a primary road of 250 m at
    the default speed. *)
Lemma first_pass_costs_are_not_negative_witness :
  ∃ e' t n,
    graph_processor.add_custom_costs ∅ (λ _, false)
      (samples.raw_edge 0 250 (Some "primary"%string)) = Ok e'
    ∧ data e' !! "time_cost"%string = Some (VFloat t)
    ∧ data e' !! "noise_cost"%string = Some (VFloat n)
    ∧ (0 <=? t)%float = true
    ∧ (0 <=? n)%float = true.
Proof.
  destruct (first_pass_costs_are_not_negative ∅ (λ _, false)
              (samples.raw_edge 0 250 (Some "primary"%string)) 30 250)
    as (e' & t & n & He & Ht & Hn & Htn & Hnn & _); try reflexivity.
  exists e', t, n. auto.
Defined.

(** [first_pass_writes_five_attributes] on a street with a name. *)
Lemma first_pass_writes_five_attributes_witness :
  ∃ e', graph_processor.add_custom_costs ∅ (λ _, false)
          (Edge 1 2 0 (<["name" := VStr "Broadway"]> (<["length" := VFloat 100]> ∅))) = Ok e'
    ∧ src e' = 1 ∧ dst e' = 2 ∧ key e' = 0
    ∧ data e' !! "name"%string = Some (VStr "Broadway").
Proof.
  destruct (graph_processor.add_custom_costs ∅ (λ _, false)
              (Edge 1 2 0 (<["name" := VStr "Broadway"]> (<["length" := VFloat 100]> ∅))))
    as [e'|ex] eqn:He.
  - exists e'. split; [reflexivity|].
    destruct (first_pass_writes_five_attributes ∅ (λ _, false) _ _ He)
      as (Hs & Hd & Hk & Hother & _).
    split; [exact Hs|]. split; [exact Hd|]. split; [exact Hk|].
    rewrite Hother; [reflexivity|]. intros Hin.
    repeat (apply elem_of_cons in Hin as [Hin|Hin]; [discriminate Hin|]).
    now apply elem_of_nil in Hin.
  - vm_compute in He. discriminate.
Defined.

Section unit_interval.
Context `{Builtins}.

Import graph_processor.

Lemma with_norms_all_Forall (es : list edge) (tns nns : list float) (P Q : float → Prop) :
  Forall P tns → Forall Q nns →
  Forall (λ e', ∃ tn nn,
            data e' !! "time_cost_norm"%string = Some (VFloat tn)
            ∧ data e' !! "noise_cost_norm"%string = Some (VFloat nn)
            ∧ P tn ∧ Q nn)
    (spec.with_norms_all es tns nns).
Proof.
  intros Ht. revert es nns. induction Ht as [|tn tns Htn _ IH]; intros es nns Hn.
  - destruct es; constructor.
  - destruct es as [|e es]; [constructor|].
    destruct Hn as [|nn nns Hnn Hn]; [constructor|]. cbn [spec.with_norms_all].
    constructor; [|now apply IH].
    exists tn, nn. unfold spec.with_norms; cbn [data].
    rewrite lookup_insert_ne, !lookup_insert_eq by done. auto.
Qed.

(** X18.  Normalization scales to [0, 1]: when every [time_cost] is not
    negative and every [noise_cost] is finite and not negative, each
    edge of the normalized graph carries a [time_cost_norm] and a
    [noise_cost_norm] between 0 and 1, roundings included; an edge with
    an infinite [time_cost] carries 1. *)
Theorem normalized_costs_lie_in_unit_interval (es es' : list edge) (ts ns : list float) :
  for_each time_cost_of es = Ok ts →
  for_each noise_cost_of es = Ok ns →
  Forall (λ t, (0 <=? t)%float = true) ts →
  Forall (λ n, (0 <=? n)%float = true ∧ is_finite n = true) ns →
  normalize_costs es = Ok es' →
  Forall (λ e', ∃ tn nn,
            data e' !! "time_cost_norm"%string = Some (VFloat tn)
            ∧ data e' !! "noise_cost_norm"%string = Some (VFloat nn)
            ∧ ((0 <=? tn)%float = true ∧ (tn <=? 1)%float = true)
            ∧ ((0 <=? nn)%float = true ∧ (nn <=? 1)%float = true))
    es'.
Proof.
  intros Hts Hns Htpos Hnpos. unfold normalize_costs, noises_of.
  rewrite (times_of_not_inf _ _ Hts), Hns; cbn [rbind].
  destruct (min_ (spec.not_inf ts)) as [lo|] eqn:Hlo; [|discriminate]; cbn [rbind].
  destruct (max_ (spec.not_inf ts)) as [hi|] eqn:Hhi; [|discriminate]; cbn [rbind].
  destruct (min_ ns) as [nlo|] eqn:Hnlo; [|discriminate]; cbn [rbind].
  destruct (max_ ns) as [nhi|] eqn:Hnhi; [|discriminate]; cbn [rbind].
  rewrite (second_loop_ok _ _ _ _ _ _ _ Hts Hns). intros [= <-].
  assert (Htf : Forall (λ y, finadd (Prim2SF y)) (spec.not_inf ts)).
  { unfold spec.not_inf. apply List.Forall_forall. intros t [Hin Hfin]%filter_In.
    rewrite List.Forall_forall in Htpos. apply nonneg_not_inf_finadd; [now apply Htpos|].
    now destruct (t =? infinity)%float. }
  assert (Hnf : Forall (λ y, finadd (Prim2SF y)) ns).
  { eapply Forall_impl; [exact Hnpos|]. intros n [? ?]. now apply nonneg_finite_finadd. }
  destruct (min_bounds _ _ Htf Hlo) as [Hlof Hlob].
  destruct (max_bounds _ _ Htf Hhi) as [Hhif Hhib].
  destruct (min_bounds _ _ Hnf Hnlo) as [Hnlof Hnlob].
  destruct (max_bounds _ _ Hnf Hnhi) as [Hnhif Hnhib].
  apply with_norms_all_Forall.
  - apply Forall_map. rewrite List.Forall_forall in Htf, Hlob, Hhib |- *.
    intros t Hin. unfold spec.time_norm.
    destruct (t =? infinity)%float eqn:Hinf; [split; reflexivity|].
    assert (Hin' : In t (spec.not_inf ts)).
    { unfold spec.not_inf. apply filter_In. split; [assumption|now rewrite Hinf]. }
    apply rescale_bounds; auto.
  - apply Forall_map. rewrite List.Forall_forall in Hnf, Hnlob, Hnhib |- *.
    intros n Hin. apply rescale_bounds; auto.
Qed.

End unit_interval.

(** [normalized_costs_lie_in_unit_interval] on the two streets of 5 s
    and the closed street. *)
Lemma normalized_costs_lie_in_unit_interval_witness :
  ∃ es', graph_processor.normalize_costs samples.equal_times = Ok es'
    ∧ Forall (λ e', ∃ tn nn,
                data e' !! "time_cost_norm"%string = Some (VFloat tn)
                ∧ data e' !! "noise_cost_norm"%string = Some (VFloat nn)
                ∧ ((0 <=? tn)%float = true ∧ (tn <=? 1)%float = true)
                ∧ ((0 <=? nn)%float = true ∧ (nn <=? 1)%float = true))
        es'.
Proof.
  destruct (graph_processor.normalize_costs samples.equal_times) as [es'|ex] eqn:Hes.
  - exists es'. split; [reflexivity|].
    apply (normalized_costs_lie_in_unit_interval samples.equal_times es'
             [5; 5; infinity]%float [300; 300; 700]%float);
      first [reflexivity | exact Hes | repeat constructor].
  - vm_compute in Hes. discriminate.
Defined.

Section normalization_frame.
Context `{Builtins}.

Import graph_processor.

Lemma with_norms_costs (e : edge) (tn nn : float) :
  time_cost_of (spec.with_norms e tn nn) = time_cost_of e
  ∧ noise_cost_of (spec.with_norms e tn nn) = noise_cost_of e.
Proof.
  unfold time_cost_of, noise_cost_of, getitem, spec.with_norms; cbn [data].
  now rewrite !lookup_insert_ne by done.
Qed.

Lemma with_norms_again (e : edge) (tn nn : float) :
  spec.with_norms (spec.with_norms e tn nn) tn nn = spec.with_norms e tn nn.
Proof.
  unfold spec.with_norms; cbn [src dst key data]. f_equal.
  apply map_eq. intros k.
  destruct (decide (k = "noise_cost_norm"%string)) as [->|Hn];
    [now rewrite !lookup_insert_eq|].
  rewrite (lookup_insert_ne _ "noise_cost_norm"%string k) by done.
  destruct (decide (k = "time_cost_norm"%string)) as [->|Ht];
    [now rewrite lookup_insert_eq, lookup_insert_ne, lookup_insert_eq by done|].
  now rewrite !lookup_insert_ne by done.
Qed.

Lemma for_each_ext_Forall2 {A B} (f g : A → result B) (R : A → A → Prop) xs xs' :
  (∀ x x', R x x' → f x = g x') → Forall2 R xs xs' → for_each f xs = for_each g xs'.
Proof.
  intros Hfg. induction 1 as [|x x' xs xs' Hx _ IH]; cbn; [reflexivity|].
  now rewrite (Hfg _ _ Hx), IH.
Qed.

Lemma times_of_ext es es' :
  Forall2 (λ e e', time_cost_of e = time_cost_of e') es es' → times_of es = times_of es'.
Proof.
  induction 1 as [|e e' es es' He _ IH]; cbn [times_of]; [reflexivity|].
  now rewrite He, IH.
Qed.

(** X19.  Normalization adds the two normalized costs and touches nothing
    else: every edge keeps its end points, its key and all its other
    attributes, the raw [time_cost] and [noise_cost] among them.  And
    normalizing a normalized graph again gives the same graph. *)
Theorem normalization_keeps_raw_costs (es es' : list edge) :
  normalize_costs es = Ok es' →
  Forall2 (λ e e', src e' = src e ∧ dst e' = dst e ∧ key e' = key e
                   ∧ ∀ k : string,
                       k ≠ "time_cost_norm"%string → k ≠ "noise_cost_norm"%string →
                       data e' !! k = data e !! k)
    es es'
  ∧ normalize_costs es' = Ok es'.
Proof.
  intros Hnorm. pose proof Hnorm as Hdata%normalize_costs_data. split.
  - eapply Forall2_impl; [exact Hdata|]. intros e e' (tn & nn & ->).
    unfold spec.with_norms; cbn [src dst key data]. repeat split.
    intros k Ht Hn. now rewrite !lookup_insert_ne by done.
  - revert Hnorm. unfold normalize_costs, noises_of.
    assert (Htimes : times_of es' = times_of es).
    { symmetry. apply times_of_ext. eapply Forall2_impl; [exact Hdata|].
      intros e e' (tn & nn & ->). symmetry. apply with_norms_costs. }
    assert (Hnoises : for_each noise_cost_of es' = for_each noise_cost_of es).
    { symmetry. apply (for_each_ext_Forall2 _ _ _ _ _ (λ e e' H, H)).
      eapply Forall2_impl; [exact Hdata|].
      intros e e' (tn & nn & ->). symmetry. apply with_norms_costs. }
    rewrite Htimes, Hnoises.
    destruct (times_of es) as [times|]; [|discriminate]; cbn [rbind].
    destruct (for_each noise_cost_of es) as [noises|]; [|discriminate]; cbn [rbind].
    destruct (min_ times) as [lo|]; [|discriminate]; cbn [rbind].
    destruct (max_ times) as [hi|]; [|discriminate]; cbn [rbind].
    destruct (min_ noises) as [nlo|]; [|discriminate]; cbn [rbind].
    destruct (max_ noises) as [nhi|]; [|discriminate]; cbn [rbind].
    generalize (range_of lo hi) (range_of nlo nhi). intros rt rn. clear.
    revert es'. induction es as [|e es IH]; intros es'.
    + now intros [= <-].
    + intros (e1 & es1 & -> & He & Hes)%for_each_ok_cons. cbn [for_each].
      rewrite (IH _ Hes); cbn [rbind].
      revert He. unfold normalize_edge.
      intros (t & Ht & Hrest)%rbind_ok. apply rbind_ok in Hrest as (n & Hn & Hrest).
      apply rbind_ok in Hrest as (tn & Htn & Hrest).
      apply rbind_ok in Hrest as (nn & Hnn & [= <-]).
      fold (spec.with_norms e tn nn).
      destruct (with_norms_costs e tn nn) as [-> ->].
      rewrite Ht, Hn; cbn [rbind]. rewrite Htn; cbn [rbind]. rewrite Hnn; cbn [rbind].
      fold (spec.with_norms (spec.with_norms e tn nn) tn nn).
      now rewrite with_norms_again.
Qed.

End normalization_frame.

(** [normalization_keeps_raw_costs] on the two streets of 5 s and the
    closed street: normalizing the normalized edges returns them. *)
Lemma normalization_keeps_raw_costs_witness :
  graph_processor.normalize_costs
    (spec.with_norms_all samples.equal_times [0; 0; 1]%float [0; 0; 1]%float)
  = Ok (spec.with_norms_all samples.equal_times [0; 0; 1]%float [0; 0; 1]%float).
Proof.
  apply (normalization_keeps_raw_costs samples.equal_times). reflexivity.
Defined.

Section processed_analysis.
Context `{Builtins}.
Variable junction_nodes : gset node.
Variable meets_park : pyval → bool.

Import graph_processor.

(** The edges after the two passes, next to the edges before. *)
Lemma process_graph_edges (G_proj G' : MultiDiGraph) :
  process_graph junction_nodes meets_park G_proj = Ok G' →
  Forall2 (λ e e', src e' = src e ∧ dst e' = dst e ∧ key e' = key e
                   ∧ ∃ t n l,
                       data e' !! "time_cost"%string = Some (VFloat t)
                       ∧ data e' !! "noise_cost"%string = Some (VFloat n)
                       ∧ data e' !! "length"%string = Some (VFloat l))
    (edge_list G_proj) (edge_list G').
Proof.
  unfold process_graph.
  intros (es1 & H1 & Hrest)%rbind_ok. apply rbind_ok in Hrest as (es2 & H2 & [= <-]).
  cbn [edge_list].
  apply (for_each_Forall2 _ (λ e e1, add_custom_costs junction_nodes meets_park e = Ok e1))
    in H1; [|auto].
  apply normalize_costs_data in H2.
  revert es2 H2. induction H1 as [|e e1 es es1 He _ IH]; intros es2 H2.
  - apply Forall2_nil_inv_l in H2 as ->. constructor.
  - apply Forall2_cons_inv_l in H2 as (e2 & es2' & (tn & nn & ->) & H2 & ->).
    constructor; [|now apply IH].
    apply add_custom_costs_data in He as (t & n & l & g & j & -> & _ & _).
    cbn [src dst key data spec.with_norms]. repeat split.
    exists t, n, l. repeat split; now rewrite !lookup_insert_ne, lookup_insert_eq by done.
Qed.

Lemma keydict_getitem_found (es : list edge) (k : Z) :
  Exists (λ e, key e = k) es →
  ∃ e, e ∈ es ∧ keydict_getitem (map (λ e, (key e, data e)) es) k = Ok (data e).
Proof.
  induction es as [|e es IH]; intros Hex; [now apply Exists_nil in Hex|].
  cbn [map keydict_getitem]. destruct (Z.eqb_spec (key e) k) as [Hk|Hk].
  - exists e. split; [now left|reflexivity].
  - apply Exists_cons in Hex as [Hex|Hex]; [done|].
    destruct (IH Hex) as (e' & Hin & Hget). exists e'. split; [now right|assumption].
Qed.

Lemma edge_data_at_found (G0 : MultiDiGraph) (u v : node) (k : Z) :
  (∃ e, e ∈ edge_list G0 ∧ src e = u ∧ dst e = v ∧ key e = k) →
  ∃ e, e ∈ edge_list G0 ∧ edge_data_at G0 u v k = Ok (data e).
Proof.
  intros (e & Hin & Hs & Hd & Hk). unfold edge_data_at, get_edge_data.
  assert (Hex : Exists (λ e, key e = k)
                  (filter (λ e, joins u v e = true) (edge_list G0))).
  { apply Exists_exists. exists e. split; [|exact Hk].
    apply list_elem_of_filter. split; [|exact Hin].
    unfold joins. rewrite Hs, Hd, !Z.eqb_refl. reflexivity. }
  destruct (keydict_getitem_found _ k Hex) as (e' & Hin' & Hget).
  destruct (filter (λ e, joins u v e = true) (edge_list G0)) as [|e0 es0] eqn:Hf.
  - now apply elem_of_nil in Hin'.
  - exists e'. split; [|exact Hget].
    assert (Hin'' : e' ∈ filter (λ e, joins u v e = true) (edge_list G0))
      by now rewrite Hf.
    now apply list_elem_of_filter in Hin'' as [_ ?].
Qed.

(** X20.  On a graph that went through the two passes the analysis of a path
    cannot fail: when every step of the path has an edge with key 0,
    the four figures are returned. *)
Theorem analysis_succeeds_on_processed_graph (G_proj G' : MultiDiGraph) (is_quiet : bool)
    (path_nodes : list node) :
  process_graph junction_nodes meets_park G_proj = Ok G' →
  Forall (λ uv, ∃ e, e ∈ edge_list G_proj ∧ src e = uv.1 ∧ dst e = uv.2 ∧ key e = 0)
    (path_edges path_nodes) →
  is_ok (analyze_path G' is_quiet path_nodes) = true.
Proof.
  intros Hedges%process_graph_edges Hpath. unfold analyze_path.
  generalize (Totals 0 0 0 0). generalize (if is_quiet then 0.7%float else 1%float).
  intros mult.
  induction Hpath as [|[u v] rest (e & Hin & Hs & Hd & Hk) _ IH]; intros acc0.
  - cbn. rewrite format_analytics_ok. reflexivity.
  - cbn [analyze_loop]. unfold analyze_edge.
    assert (Hex : ∃ e', e' ∈ edge_list G' ∧ src e' = u ∧ dst e' = v ∧ key e' = 0).
    { apply list_elem_of_lookup in Hin as [i Hi].
      destruct (Forall2_lookup_l _ _ _ _ _ Hedges Hi) as (e' & Hi' & Hs' & Hd' & Hk' & _).
      exists e'. split; [eapply list_elem_of_lookup_2; exact Hi'|]. cbn in Hs, Hd.
      repeat split; congruence. }
    destruct (edge_data_at_found G' u v 0 Hex) as (e' & Hin' & ->). cbn [rbind].
    apply list_elem_of_lookup in Hin' as [i Hi].
    destruct (Forall2_lookup_r _ _ _ _ _ Hedges Hi)
      as (e0 & _ & _ & _ & _ & t & n & l & Ht & Hn & Hl).
    unfold get. rewrite Ht, Hn, Hl. cbn. apply IH.
Qed.

End processed_analysis.

(** [analysis_succeeds_on_processed_graph] on two streets in a row. *)
Lemma analysis_succeeds_on_processed_graph_witness :
  ∃ G',
    graph_processor.process_graph ∅ (λ _, false)
      (Graph samples.no_attrs
         [ Edge 1 2 0 (<["length" := VFloat 100]> ∅);
           Edge 2 3 0 (<["length" := VFloat 250]> ∅) ]) = Ok G'
    ∧ is_ok (analyze_path G' false [1; 2; 3]) = true.
Proof.
  destruct (graph_processor.process_graph ∅ (λ _, false)
              (Graph samples.no_attrs
                 [ Edge 1 2 0 (<["length" := VFloat 100]> ∅);
                   Edge 2 3 0 (<["length" := VFloat 250]> ∅) ])) as [G'|ex] eqn:HG.
  - exists G'. split; [reflexivity|].
    apply (analysis_succeeds_on_processed_graph ∅ (λ _, false) _ _ false [1; 2; 3] HG).
    repeat constructor.
    + exists (Edge 1 2 0 (<["length" := VFloat 100]> ∅)).
      split; [apply elem_of_cons; now left|]. repeat split.
    + exists (Edge 2 3 0 (<["length" := VFloat 250]> ∅)).
      split; [apply elem_of_cons; right; apply elem_of_cons; now left|]. repeat split.
  - vm_compute in HG. discriminate.
Defined.

(** * The node pass, and the graph read back from the file *)

Section loading_facts.
Context `{Builtins}.

Import graph_processor.

Lemma verify_edge_facts (e e' : edge) (assigned : bool) :
  verify_edge e = Ok (e', assigned) →
  src e' = src e ∧ dst e' = dst e ∧ key e' = key e
  ∧ (∀ k : string, k ≠ "time_cost"%string → data e' !! k = data e !! k)
  ∧ is_int_or_float (get_none (data e') "time_cost") = true
  ∧ (assigned = false → e' = e)
  ∧ (is_int_or_float (get_none (data e) "time_cost") = true → assigned = false).
Proof.
  unfold verify_edge.
  destruct (is_int_or_float (get_none (data e) "time_cost")) eqn:Hnum; cbn [negb].
  - intros [= <- <-]. repeat split; auto.
  - intros (t & _ & [= <- <-])%rbind_ok. cbn [src dst key data].
    repeat split; try discriminate.
    + intros k Hk. now rewrite lookup_insert_ne.
    + unfold get_none, get. now rewrite lookup_insert_eq.
Qed.

Lemma verify_edges_facts (es es' : list edge) (flag needs_resave : bool) :
  verify_edges es flag = Ok (es', needs_resave) →
  Forall2 (λ e e', src e' = src e ∧ dst e' = dst e ∧ key e' = key e
                   ∧ ∀ k : string, k ≠ "time_cost"%string → data e' !! k = data e !! k)
    es es'
  ∧ Forall (λ e', is_int_or_float (get_none (data e') "time_cost") = true) es'
  ∧ (needs_resave = false → es' = es ∧ flag = false)
  ∧ (Forall (λ e, is_int_or_float (get_none (data e) "time_cost") = true) es →
     needs_resave = flag).
Proof.
  revert es' flag needs_resave. induction es as [|e es IH]; intros es' flag needs_resave.
  - intros [= <- <-]. repeat split; auto.
  - cbn [verify_edges]. intros ([e1 assigned] & He & Hrest)%rbind_ok.
    apply rbind_ok in Hrest as ([es1 needs] & Hes & [= <- <-]). cbn [fst snd] in *.
    apply verify_edge_facts in He as (Hs & Hd & Hk & Hother & Hnum & Hsame & Hclean).
    apply IH in Hes as (IH1 & IH2 & IH3 & IH4).
    repeat split.
    + constructor; auto.
    + constructor; auto.
    + destruct (IH3 H0) as [-> [-> ->]%orb_false_iff]. now rewrite Hsame.
    + destruct (IH3 H0) as [_ [_ ->]%orb_false_iff]. reflexivity.
    + intros [He Hes]%Forall_cons. rewrite (IH4 Hes), (Hclean He). reflexivity.
Qed.

(** X21.  The type check [get_graph] runs on a graph read back from the file,
    when it does not raise: it touches nothing but [time_cost]; after it
    every edge's [time_cost] is a number; the graph is saved again
    exactly when some edge was assigned to, and is returned as it was
    read otherwise; and run on its own result the check changes nothing
    and asks for no saving. *)
Theorem loaded_graph_check_repairs_time_costs (G0 G' : MultiDiGraph) (resaved : bool) :
  verify_loaded G0 = Ok (G', resaved) →
  graph_attrs G' = graph_attrs G0
  ∧ Forall2 (λ e e', src e' = src e ∧ dst e' = dst e ∧ key e' = key e
                     ∧ ∀ k : string, k ≠ "time_cost"%string → data e' !! k = data e !! k)
      (edge_list G0) (edge_list G')
  ∧ Forall (λ e', is_int_or_float (get_none (data e') "time_cost") = true) (edge_list G')
  ∧ (resaved = false ↔ G' = G0)
  ∧ verify_loaded G' = Ok (G', false).
Proof.
  unfold verify_loaded.
  intros ([es' needs] & Hes & [= <- <-])%rbind_ok. cbn [fst snd graph_attrs edge_list].
  pose proof Hes as (Hframe & Hnum & Hsame & Hclean)%verify_edges_facts.
  split; [reflexivity|]. split; [assumption|]. split; [assumption|].
  assert (Hfix : ∀ es, Forall (λ e', is_int_or_float (get_none (data e') "time_cost") = true) es →
                 verify_edges es false = Ok (es, false)).
  { clear. induction 1 as [|e es He _ IH]; cbn [verify_edges]; [reflexivity|].
    unfold verify_edge. rewrite He. cbn. rewrite IH. reflexivity. }
  split; [split|].
  - intros Hn. destruct (Hsame Hn) as [-> _]. now destruct G0.
  - intros HG. destruct G0 as [a es]. injection HG as ->. cbn in *.
    rewrite (Hfix _ Hnum) in Hes. now injection Hes.
  - now rewrite (Hfix _ Hnum).
Qed.

Lemma elem_of_junction_nodes_from (nodes : list (node * attrs)) (acc : gset node) (n : node) :
  n ∈ fold_left
        (λ junction_nodes nd,
           if eq_str (get_none nd.2 "highway") "traffic_signals"
           then junction_nodes ∪ {[ nd.1 ]} else junction_nodes)
        nodes acc
  ↔ n ∈ acc ∨ ∃ d, (n, d) ∈ nodes ∧ d !! "highway"%string = Some (VStr "traffic_signals").
Proof.
  revert acc. induction nodes as [|[n' d'] nodes IH]; intros acc; cbn [fold_left].
  - split; [auto|]. intros [?|(d & Hd & _)]; [assumption|]. now apply elem_of_nil in Hd.
  - rewrite IH. cbn [fst snd].
    assert (Heq : eq_str (get_none d' "highway") "traffic_signals" = true
                  ↔ d' !! "highway"%string = Some (VStr "traffic_signals")).
    { unfold get_none, get. destruct (d' !! "highway"%string) as [[]|]; cbn;
        try (split; [discriminate|congruence]).
      rewrite String.eqb_eq. split; congruence. }
    destruct (eq_str _ _) eqn:Hsig.
    + rewrite elem_of_union, elem_of_singleton. split.
      * intros [[?| ->]|(d & Hd & Hs)]; [auto| |right; exists d; split; [now right|done]].
        right. exists d'. split; [now left|now apply Heq].
      * intros [?|(d & Hd & Hs)]; [auto|].
        apply elem_of_cons in Hd as [[= -> ->]|Hd]; [auto|right; eauto].
    + split.
      * intros [?|(d & Hd & Hs)]; [auto|right; exists d; split; [now right|done]].
      * intros [?|(d & Hd & Hs)]; [auto|].
        apply elem_of_cons in Hd as [[= -> ->]|Hd]; [|right; eauto].
        apply Heq in Hs. congruence.
Qed.

(** X22.  The junction flag after the node pass and the first edge pass: an
    edge counts as a junction for the cost model exactly when one of its
    end points is a node tagged [highway = 'traffic_signals'], or its own
    [junction] attribute is truthy. *)
Theorem junction_flag_marks_traffic_signals (nodes : list (node * attrs))
    (meets_park : pyval → bool) (e e' : edge) :
  add_custom_costs (junction_nodes_of nodes) meets_park e = Ok e' →
  _is_truthy (get_none (data e') "is_junction") = true
  ↔ (∃ n d, (n = src e ∨ n = dst e) ∧ (n, d) ∈ nodes
            ∧ d !! "highway"%string = Some (VStr "traffic_signals"))
    ∨ _is_truthy (get_none (data e) "junction") = true.
Proof.
  intros (t & n & l & g & j & -> & _ & ->)%add_custom_costs_data. cbn [data].
  assert (Hj : ∀ (m : attrs) j, get_none (<["is_junction" := j]> m) "is_junction" = j).
  { intros m j. unfold get_none, get. now rewrite lookup_insert_eq. }
  rewrite Hj.
  assert (Hin : ∀ x, x ∈ junction_nodes_of nodes
                ↔ ∃ d, (x, d) ∈ nodes ∧ d !! "highway"%string = Some (VStr "traffic_signals")).
  { intros x. unfold junction_nodes_of. rewrite elem_of_junction_nodes_from.
    split; [intros [Hx|?]; [now apply elem_of_empty in Hx|assumption]|auto]. }
  assert (Hfall : _is_truthy (get (data e) "junction" (VBool false))
                  = _is_truthy (get_none (data e) "junction")).
  { unfold get_none, get. now destruct (data e !! "junction"%string). }
  destruct (bool_decide (src e ∈ junction_nodes_of nodes)) eqn:Hs;
    [|destruct (bool_decide (dst e ∈ junction_nodes_of nodes)) eqn:Hd]; cbn [orb].
  - apply bool_decide_eq_true in Hs. apply Hin in Hs as (d & Hd & Hsig).
    split; [|reflexivity]. intros _. left. exists (src e), d. auto.
  - apply bool_decide_eq_true in Hd. apply Hin in Hd as (d & Hd & Hsig).
    split; [|reflexivity]. intros _. left. exists (dst e), d. auto.
  - apply bool_decide_eq_false in Hs, Hd. rewrite Hfall. split; [auto|].
    intros [(x & d & [-> | ->] & Hx & Hsig)|?]; [| |assumption].
    + exfalso. apply Hs, Hin. eauto.
    + exfalso. apply Hd, Hin. eauto.
Qed.

End loading_facts.

(** [loaded_graph_check_repairs_time_costs] on a graph whose first edge
    came back with its [time_cost] as text and whose second edge has
    none. *)
Lemma loaded_graph_check_repairs_time_costs_witness :
  graph_processor.verify_loaded
    (Graph samples.no_attrs
       [ Edge 1 2 0 (<["time_cost" := VStr "0.5"]> ∅); Edge 2 3 0 ∅ ])
  = Ok (Graph samples.no_attrs
          [ Edge 1 2 0 (<["time_cost" := VFloat 0.5]> ∅);
            Edge 2 3 0 (<["time_cost" := VFloat infinity]> ∅) ], true)
  ∧ graph_processor.verify_loaded
      (Graph samples.no_attrs
         [ Edge 1 2 0 (<["time_cost" := VFloat 0.5]> ∅);
           Edge 2 3 0 (<["time_cost" := VFloat infinity]> ∅) ])
    = Ok (Graph samples.no_attrs
            [ Edge 1 2 0 (<["time_cost" := VFloat 0.5]> ∅);
              Edge 2 3 0 (<["time_cost" := VFloat infinity]> ∅) ], false).
Proof.
  assert (Hrun : graph_processor.verify_loaded
            (Graph samples.no_attrs
               [ Edge 1 2 0 (<["time_cost" := VStr "0.5"]> ∅); Edge 2 3 0 ∅ ])
          = Ok (Graph samples.no_attrs
                  [ Edge 1 2 0 (<["time_cost" := VFloat 0.5]> ∅);
                    Edge 2 3 0 (<["time_cost" := VFloat infinity]> ∅) ], true))
    by reflexivity.
  split; [exact Hrun|].
  exact (proj2 (proj2 (proj2 (proj2
           (loaded_graph_check_repairs_time_costs _ _ _ Hrun))))).
Defined.

(** [junction_flag_marks_traffic_signals] on a street that ends at a
    traffic signal. *)
Lemma junction_flag_marks_traffic_signals_witness :
  ∃ e', graph_processor.add_custom_costs
          (graph_processor.junction_nodes_of
             [(1, ∅); (2, <["highway" := VStr "traffic_signals"]> ∅)])
          (λ _, false) (samples.raw_edge 0 100 None) = Ok e'
    ∧ _is_truthy (get_none (data e') "is_junction") = true.
Proof.
  destruct (graph_processor.add_custom_costs
              (graph_processor.junction_nodes_of
                 [(1, ∅); (2, <["highway" := VStr "traffic_signals"]> ∅)])
              (λ _, false) (samples.raw_edge 0 100 None)) as [e'|ex] eqn:He.
  - exists e'. split; [reflexivity|].
    apply (junction_flag_marks_traffic_signals _ _ _ _ He).
    left. exists 2, (<["highway" := VStr "traffic_signals"]> ∅).
    split; [now right|]. split; [|reflexivity]. apply elem_of_cons. right. apply elem_of_cons. now left.
  - vm_compute in He. discriminate.
Defined.

(** * The window's slots *)

Section slots_facts.
Context `{Builtins} `{Collaborators}.

Import main_window.

(** The weights at each of the slider's 101 positions, computed. *)
Lemma slider_table :
  forallb
    (λ p : Z,
       match float_of_int p with
       | Ok value =>
           let w_noise := (value / 100)%float in
           let w_time := (1 - w_noise)%float in
           (0 <=? w_noise)%float && (w_noise <=? 1)%float
           && (0 <=? w_time)%float && (w_time <=? 1)%float
           && (w_time + w_noise =? 1)%float
           && Bool.eqb (w_noise =? 1)%float (p =? 100)
           && Bool.eqb (0.70 <=? w_time)%float (p <=? 30)
       | Raise _ => false
       end)
    (map Z.of_nat (seq 0 101)) = true.
Proof. vm_compute. reflexivity. Qed.

Lemma slider_weights (p : Z) :
  0 ≤ p ≤ 100 →
  ∃ value : float,
    let w_noise := (value / 100)%float in
    let w_time := (1 - w_noise)%float in
    float_of_int p = Ok value
    ∧ (0 <=? w_noise)%float = true ∧ (w_noise <=? 1)%float = true
    ∧ (0 <=? w_time)%float = true ∧ (w_time <=? 1)%float = true
    ∧ (w_time + w_noise =? 1)%float = true
    ∧ (w_noise =? 1)%float = (p =? 100)
    ∧ (0.70 <=? w_time)%float = (p <=? 30).
Proof.
  intros Hp.
  pose proof slider_table as Htab. rewrite forallb_forall in Htab.
  specialize (Htab p).
  assert (Hin : In p (map Z.of_nat (seq 0 101))).
  { apply in_map_iff. exists (Z.to_nat p). split; [lia|]. apply in_seq. lia. }
  apply Htab in Hin. destruct (float_of_int p) as [value|ex]; [|discriminate Hin].
  exists value. cbv zeta in Hin |- *.
  repeat (apply andb_true_iff in Hin as [Hin ?]).
  repeat match goal with Hb : Bool.eqb _ _ = true |- _ => apply Bool.eqb_prop in Hb end.
  auto 10.
Qed.

Lemma update_preferences_run (win : MainWindow) (w : world) (value : float) :
  float_of_int (profile_slider win) = Ok value →
  update_preferences win w
  = (Ok tt,
     World (Engine (G (engine w)) (graph_crs (engine w)) (graph_init_crs (engine w))
                   (1 - value / 100) (value / 100)
                   (parks_checkbox win) (junctions_checkbox win))
           (log w)).
Proof.
  intros Hv. unfold update_preferences, bind, lift, truediv, set_preferences.
  rewrite Hv. reflexivity.
Qed.

(** X23.  With the slider anywhere on its scale, 0 to 100, [update_preferences]
    returns and stores [w_noise = position / 100.0] and
    [w_time = 1.0 - w_noise] with the two check boxes, leaving the graph
    and the log alone.  Both weights lie between 0 and 1 and add up to
    exactly 1.0; [w_noise] is 1.0, the pure peace mode, at position 100
    only; and [w_time >= 0.70] holds exactly up to position 30. *)
Theorem slider_sets_the_weights (win : MainWindow) (w : world) :
  0 ≤ profile_slider win ≤ 100 →
  ∃ value : float,
    let w_noise := (value / 100)%float in
    let w_time := (1 - w_noise)%float in
    float_of_int (profile_slider win) = Ok value
    ∧ update_preferences win w
      = (Ok tt,
         World (Engine (G (engine w)) (graph_crs (engine w)) (graph_init_crs (engine w))
                       w_time w_noise (parks_checkbox win) (junctions_checkbox win))
               (log w))
    ∧ (0 <=? w_noise)%float = true ∧ (w_noise <=? 1)%float = true
    ∧ (0 <=? w_time)%float = true ∧ (w_time <=? 1)%float = true
    ∧ (w_time + w_noise =? 1)%float = true
    ∧ (w_noise =? 1)%float = (profile_slider win =? 100)
    ∧ (0.70 <=? w_time)%float = (profile_slider win <=? 30).
Proof.
  intros Hp. destruct (slider_weights _ Hp) as (value & Hv & Hrest).
  exists value. cbv zeta. split; [exact Hv|]. split; [|exact Hrest].
  now apply update_preferences_run.
Qed.

(** X24.  From the controls to the search: once [update_preferences] has run
    with the slider on its scale, every search a query from the window
    starts goes by the raw [time_cost] when the hour in force (the one
    chosen in the window, the clock's otherwise) is a quiet hour or the
    slider is at 30 or below, and by the blended cost of the engine
    otherwise. *)
Theorem window_search_follows_slider_and_hour (win : MainWindow) (w : world)
    (evs : list event) :
  let w1 := (update_preferences win w).2 in
  let h := resolve_hour (selected_hour win) now_hour in
  0 ≤ profile_slider win ≤ 100 →
  log (route_query win w1).2 = log w1 ++ evs →
  ∀ s t wf, In (AStar s t wf) evs →
    wf = if is_quiet_hours h || (profile_slider win <=? 30)
         then attribute "time_cost" else bound_get_edge_cost (engine w1).
Proof.
  intros w1 h Hp Hlog s t wf Hin.
  destruct (find_route_frame (Some (start_input win)) (Some (end_input win))
              (selected_hour win) w1) as (_ & evs' & Hlog' & Hw).
  unfold logged in Hlog'. unfold route_query in Hlog. rewrite Hlog in Hlog'.
  apply app_inv_head in Hlog'. subst evs'.
  rewrite (Hw s t wf Hin). fold h.
  destruct (slider_weights _ Hp) as (value & Hv & _ & _ & _ & _ & _ & _ & Hpol).
  subst w1. rewrite (update_preferences_run _ _ _ Hv). cbn [snd engine].
  unfold select_weight. cbn [w_time]. rewrite Hpol.
  destruct (is_quiet_hours h); cbn [orb]; [reflexivity|].
  now destruct (profile_slider win <=? 30).
Qed.

End slots_facts.

(** [slider_sets_the_weights] with the slider at 40 and the parks box
    ticked. *)
Lemma slider_sets_the_weights_witness :
  main_window.update_preferences
    (main_window.Window "Times Square" "Grand Central" 40 true false None)
    (samples.world_of (samples.engine_with samples.row_graph 1 0 false false))
  = (Ok tt,
     samples.world_of
       (samples.engine_with samples.row_graph (1 - 40 / 100) (40 / 100) true false))
  ∧ ((1 - 40 / 100) + 40 / 100 =? 1)%float = true.
Proof.
  destruct (slider_sets_the_weights
              (main_window.Window "Times Square" "Grand Central" 40 true false None)
              (samples.world_of (samples.engine_with samples.row_graph 1 0 false false)))
    as (value & Hv & Hrun & _ & _ & _ & _ & Hsum & _).
  - cbn. lia.
  - injection Hv as <-. split; [exact Hrun|exact Hsum].
Defined.

(** [window_search_follows_slider_and_hour] with the slider at 40 and 13
    o'clock chosen in the window: the search of the query goes by the
    blended cost. *)
Lemma window_search_follows_slider_and_hour_witness :
  ∃ wf,
    In (AStar 1 3 wf)
       (log (main_window.route_query
               (main_window.set_selected_hour
                  (main_window.Window "Times Square" "Grand Central" 40 true false None) 13)
               (samples.world_of
                  (samples.engine_with samples.row_graph
                     (1 - 40 / 100) (40 / 100) true false))).2)
    ∧ wf = bound_get_edge_cost
             (samples.engine_with samples.row_graph (1 - 40 / 100) (40 / 100) true false).
Proof.
  eexists. split; [cbn; do 6 right; left; reflexivity|].
  refine (window_search_follows_slider_and_hour
            (main_window.set_selected_hour
               (main_window.Window "Times Square" "Grand Central" 40 true false None) 13)
            (samples.world_of (samples.engine_with samples.row_graph 1 0 false false))
            _ _ eq_refl 1 3 _ _).
  - cbn. lia.
  - cbn. do 6 right. left. reflexivity.
Defined.
